(** * x-collector-mcp: the extraction engine and the append-safe sheet writer

    A shallow embedding of
      - [src/utils/selectors.ts]   ([parseEngagement] and the selector lists),
      - [src/services/twitter.ts]  ([extractTweets], [collectTweetsNaturally],
                                    [getUserProfile]),
      - [src/services/sheets.ts]   ([exportTweetsToSheets]),
    together with the parts of the JavaScript runtime, of the DOM and of the
    Google Sheets service that these functions observe.

    Conventions.
      - A JavaScript string is the list of its UTF-16 code units ([jsstring]);
        [length] is then [String.prototype.length].
      - A JavaScript number is an IEEE-754 binary64 value ([number]); the code
        modelled here never negates or subtracts, so only [NaN], [+Infinity]
        and the non-negative finite values are represented.
      - Code that can throw returns a [result]. *)

From Stdlib Require Import ZArith QArith Qround String Ascii List Lia Bool.
From Stdlib Require Import DecimalString.
From Stdlib Require DecimalPos DecimalN.
From stdpp Require Import base option list gmap.

Local Open Scope N_scope.

(* ===================================================================== *)
(** * The JavaScript runtime, as far as the sources use it               *)
(* ===================================================================== *)

Module JS.

(** ** Strings *)

(** One UTF-16 code unit, and a string of them. *)
Abbreviation char16 := N (only parsing).
Abbreviation jsstring := (list N) (only parsing).

(** Source literals are written in the file's UTF-8 and decoded to UTF-16
    here, so that a literal such as [js "時間前"] has the three code units
    it has in the TypeScript source. *)
Definition utf16_of_code_point (cp : N) : jsstring :=
  if cp <? 65536 then [cp]
  else let v := cp - 65536 in [55296 + v / 1024; 56320 + v mod 1024].

Fixpoint utf16_of_utf8 (bs : list N) : jsstring :=
  match bs with
  | [] => []
  | b0 :: r0 =>
    if b0 <? 128 then b0 :: utf16_of_utf8 r0
    else match r0 with
    | [] => [65533]
    | b1 :: r1 =>
      if b0 <? 224 then
        utf16_of_code_point ((b0 mod 32) * 64 + b1 mod 64) ++ utf16_of_utf8 r1
      else match r1 with
      | [] => [65533]
      | b2 :: r2 =>
        if b0 <? 240 then
          utf16_of_code_point ((b0 mod 16) * 4096 + (b1 mod 64) * 64 + b2 mod 64)
            ++ utf16_of_utf8 r2
        else match r2 with
        | [] => [65533]
        | b3 :: r3 =>
          utf16_of_code_point
            ((b0 mod 8) * 262144 + (b1 mod 64) * 4096 + (b2 mod 64) * 64 + b3 mod 64)
            ++ utf16_of_utf8 r3
        end
      end
    end
  end.

Definition js (s : string) : jsstring :=
  utf16_of_utf8 (map N_of_ascii (list_ascii_of_string s)).

(** Character classes of the regular expressions in the sources. *)
Definition is_digit (c : char16) : bool := (48 <=? c) && (c <=? 57).
Definition is_upper (c : char16) : bool := (65 <=? c) && (c <=? 90).
Definition is_lower (c : char16) : bool := (97 <=? c) && (c <=? 122).

(** [\s], which is also what [String.prototype.trim] strips: WhiteSpace and
    LineTerminator of ECMA-262. *)
Definition is_space (c : char16) : bool :=
  ((9 <=? c) && (c <=? 13)) || (c =? 32) || (c =? 160) || (c =? 5760)
  || ((8192 <=? c) && (c <=? 8202)) || (c =? 8232) || (c =? 8233)
  || (c =? 8239) || (c =? 8287) || (c =? 12288) || (c =? 65279).

(** The longest prefix whose code units satisfy [p], and the rest: what a
    greedy [p+] or [p*] consumes. *)
Fixpoint span (p : char16 -> bool) (s : jsstring) : jsstring * jsstring :=
  match s with
  | [] => ([], [])
  | c :: r => if p c then let '(a, b) := span p r in (c :: a, b) else ([], s)
  end.

Fixpoint drop_while (p : char16 -> bool) (s : jsstring) : jsstring :=
  match s with
  | [] => []
  | c :: r => if p c then drop_while p r else s
  end.

(** [s.trim()] *)
Definition trim (s : jsstring) : jsstring :=
  rev (drop_while is_space (rev (drop_while is_space s))).

(** [s.substring(0, n)] for [0 <= n]. *)
Definition substring0 (n : nat) (s : jsstring) : jsstring := firstn n s.

(** [s.slice(1)] *)
Definition slice1 (s : jsstring) : jsstring := skipn 1 s.

Fixpoint starts_with (p s : jsstring) : bool :=
  match p, s with
  | [], _ => true
  | _ :: _, [] => false
  | a :: p', b :: s' => (a =? b) && starts_with p' s'
  end.

(** [s.includes(p)] *)
Fixpoint includes (p s : jsstring) : bool :=
  starts_with p s ||
  match s with
  | [] => false
  | _ :: r => includes p r
  end.

(** [s.toUpperCase()], on the Basic Latin letters (the only ones the sources
    compare the result against). *)
Definition to_upper_char (c : char16) : char16 := if is_lower c then c - 32 else c.
Definition toUpperCase (s : jsstring) : jsstring := map to_upper_char s.

(** [s.split(c)[0]]: the part before the first occurrence of [c]. *)
Definition before_first (c : char16) (s : jsstring) : jsstring :=
  fst (span (fun x => negb (x =? c)) s).

(** Truthiness of a string: [''] is falsy. *)
Definition truthy (s : jsstring) : bool :=
  match s with [] => false | _ => true end.

(** [a || b] on strings. *)
Definition or_else (a b : jsstring) : jsstring := if truthy a then a else b.

(** ** Regular-expression matching

    The patterns of the sources are matched by scanners built from these
    parts. [search at_ s] is the leftmost match: [at_] is tried at every
    position of [s] from the left, the end of the string included. *)
Fixpoint search {A} (at_ : jsstring -> option A) (s : jsstring) : option A :=
  match at_ s with
  | Some x => Some x
  | None => match s with
            | [] => None
            | _ :: r => search at_ r
            end
  end.

(** A literal, and one code unit of a class, at the head of [s]. *)
Definition lit (p : jsstring) (s : jsstring) : option jsstring :=
  if starts_with p s then Some p else None.
Definition one_of (p : char16 -> bool) (s : jsstring) : option jsstring :=
  match s with
  | c :: _ => if p c then Some [c] else None
  | [] => None
  end.

(** [a|b|...] at the head of [s]: the first alternative that matches. *)
Fixpoint first_alt (alts : list (jsstring -> option jsstring)) (s : jsstring)
  : option jsstring :=
  match alts with
  | [] => None
  | a :: rest => match a s with
                 | Some m => Some m
                 | None => first_alt rest s
                 end
  end.

(** [\d+X] at the head of [s], for [X] one of [alts], none of which starts
    with a digit: the longest run of digits and then [X]. (A shorter run
    would be followed by a digit, where no [X] matches, so giving digits
    back never helps.) The result is the matched text. *)
Definition digits_then (alts : list (jsstring -> option jsstring)) (s : jsstring)
  : option jsstring :=
  let '(ds, r) := span is_digit s in
  match ds with
  | [] => None
  | _ => match first_alt alts r with
         | Some m => Some (ds ++ m)
         | None => None
         end
  end.

(** [s.replace(c, '')] for a one-unit pattern: the first occurrence goes. *)
Fixpoint remove_first (c : char16) (s : jsstring) : jsstring :=
  match s with
  | [] => []
  | x :: r => if x =? c then r else x :: remove_first c r
  end.

(** ** Numbers *)

(** A binary64 value: [Finite q] carries the exact rational value of a
    finite double, kept in lowest terms. *)
Inductive number : Type :=
  | NaN
  | Infinity
  | Finite (q : Q).

Definition of_Z (z : Z) : number := Finite (inject_Z z).

(** Round to nearest, ties to even, of the non-negative fraction [n / d]. *)
Definition round_half_even (n d : Z) : Z :=
  let q := (n / d)%Z in
  match (2 * (n mod d) ?= d)%Z with
  | Lt => q
  | Gt => (q + 1)%Z
  | Eq => if Z.even q then q else (q + 1)%Z
  end.

(** The double nearest to a non-negative rational: 53 significant bits,
    exponents from -1022 (below that, subnormals) and overflow to
    [Infinity] from [2^1024]. *)
Definition round64 (x : Q) : number :=
  let n := Qnum x in
  let d := Zpos (Qden x) in
  if (n <=? 0)%Z then Finite 0 else
  let e0 := (Z.log2 n - Z.log2 d)%Z in
  let below := if (0 <=? e0)%Z then (n <? d * 2 ^ e0)%Z else (n * 2 ^ (- e0) <? d)%Z in
  let e := if below then (e0 - 1)%Z else e0 in
  let ulp := (Z.max e (-1022) - 52)%Z in
  let m := if (0 <=? ulp)%Z then round_half_even n (d * 2 ^ ulp)
           else round_half_even (n * 2 ^ (- ulp)) d in
  if (0 <=? ulp)%Z then
    if (2 ^ 1024 <=? m * 2 ^ ulp)%Z then Infinity else Finite (inject_Z (m * 2 ^ ulp))
  else Finite (Qred (Qmake m (Z.to_pos (2 ^ (- ulp))))).

(** [a * b] *)
Definition mul (a b : number) : number :=
  match a, b with
  | Finite x, Finite y => round64 (Qred (x * y))
  | NaN, _ | _, NaN => NaN
  | Infinity, Finite y => if Qeq_bool y 0 then NaN else Infinity
  | Finite x, Infinity => if Qeq_bool x 0 then NaN else Infinity
  | Infinity, Infinity => Infinity
  end.

(** [Math.floor(a)] *)
Definition Math_floor (a : number) : number :=
  match a with
  | Finite x => Finite (inject_Z (Qfloor x))
  | _ => a
  end.

(** [a > 0] *)
Definition gt0 (a : number) : bool :=
  match a with
  | NaN => false
  | Infinity => true
  | Finite x => negb (Qle_bool x 0)
  end.

(** Whether a number is an integer ([Number.isInteger]). *)
Definition isInteger (a : number) : bool :=
  match a with
  | Finite x => Qeq_bool x (inject_Z (Qfloor x))
  | _ => false
  end.

(** The value of a run of decimal digits. *)
Definition digit_value (c : char16) : Z := Z.of_N (c - 48).
Definition digits_value (ds : jsstring) : Z :=
  fold_left (fun acc c => (acc * 10 + digit_value c)%Z) ds 0%Z.

(** [parseFloat(s)] for an unsigned decimal literal without exponent: the
    longest prefix of the shape [digits], [digits.digits], [digits.] or
    [.digits]; [NaN] when there is none. (Leading white space, signs,
    exponents and [Infinity] are not modelled: the one caller passes a
    string made of digits and dots only.) *)
Definition parseFloat (s : jsstring) : number :=
  let '(ip, r) := span is_digit s in
  let fp := match r with
            | c :: r' => if c =? 46 then fst (span is_digit r') else []
            | [] => []
            end in
  match ip, fp with
  | [], [] => NaN
  | _, _ => round64 (Qred (Qmake (digits_value (ip ++ fp))
                                 (Z.to_pos (10 ^ Z.of_nat (length fp)))))
  end.

(** [parseInt(s)] for a string that starts with a digit: the value of its
    leading run of digits, as a double. *)
Definition parseInt (s : jsstring) : number :=
  match fst (span is_digit s) with
  | [] => NaN
  | ds => round64 (inject_Z (digits_value ds))
  end.

(** [String(n)] for a non-negative integer. *)
Definition string_of_N (n : N) : jsstring :=
  map N_of_ascii (list_ascii_of_string (NilZero.string_of_uint (N.to_uint n))).

(** ** Exceptions *)

Inductive result (A : Type) : Type :=
  | Ok (a : A)
  | Throw (e : jsstring).
Arguments Ok {A} a.
Arguments Throw {A} e.

Definition bind {A B} (m : result A) (k : A -> result B) : result B :=
  match m with
  | Ok a => k a
  | Throw e => Throw e
  end.

(** [try { m } catch (error) { h }] *)
Definition try_catch {A} (m : result A) (h : jsstring -> result A) : result A :=
  match m with
  | Ok a => Ok a
  | Throw e => h e
  end.

End JS.

Export JS.

(** [let* x := m in k]: run [m]; if it throws, so does the whole; if it
    returns, go on with [k]. *)
Notation "'let*' x ':=' m 'in' k" := (JS.bind m (fun x => k))
  (at level 10, x name, m at level 100, k at level 200).
Notation "'let*' ' p ':=' m 'in' k" :=
  (JS.bind m (fun x => match x with p => k end))
  (at level 10, p strict pattern, m at level 100, k at level 200).

(* ===================================================================== *)
(** * src/utils/selectors.ts                                             *)
(* ===================================================================== *)

Module Selectors.

(** ** CSS selectors

    The sources pass selector strings to [querySelector]; the DOM is the
    only reader of their text, so a selector is kept here as its syntax
    tree: a comma list of descendant chains of compound selectors. *)
Inductive attr_sel : Type :=
  | AttrHas (name : string)                     (* [name]         *)
  | AttrEq (name : string) (value : string)     (* [name="value"] *)
  | AttrPrefix (name : string) (value : string) (* [name^="value"] *)
  | AttrSuffix (name : string) (value : string) (* [name$="value"] *)
  | AttrContains (name : string) (value : string). (* [name*="value"] *)

Record compound : Type := Compound {
  c_tag : option string;       (* [None]: no type selector *)
  c_attrs : list attr_sel
}.

(** [a b]: a chain of compounds under the descendant combinator. *)
Abbreviation complex := (list compound) (only parsing).
(** [a, b]: a selector list. *)
Abbreviation selector := (list (list compound)) (only parsing).

#[global] Instance attr_sel_eq_dec : EqDecision attr_sel.
Proof. solve_decision. Defined.
#[global] Instance compound_eq_dec : EqDecision compound.
Proof. solve_decision. Defined.

Definition tag_with (t : string) (attrs : list attr_sel) : compound :=
  Compound (Some t) attrs.
Definition tag (t : string) : compound := tag_with t [].
Definition testid (v : string) : compound := Compound None [AttrEq "data-testid" v].
Definition tag_testid (t v : string) : compound :=
  tag_with t [AttrEq "data-testid" v].
Definition has_attr (a : string) : compound := Compound None [AttrHas a].

(** [TWEET_CONTAINER_SELECTORS] *)
Definition TWEET_CONTAINER_SELECTORS : list selector :=
  [ [[testid "tweet"]];                          (* [data-testid="tweet"] *)
    [[tag_testid "article" "tweet"]];            (* article[data-testid="tweet"] *)
    [[testid "cellInnerDiv"; tag "article"]];    (* [data-testid="cellInnerDiv"] article *)
    [[tag_with "article" [AttrEq "role" "article"]]]; (* article[role="article"] *)
    [[tag_testid "div" "tweet"]] ].              (* div[data-testid="tweet"] *)

(** [TWEET_TEXT_SELECTORS] *)
Definition TWEET_TEXT_SELECTORS : list selector :=
  [ [[testid "tweetText"]];                      (* [data-testid="tweetText"] *)
    [[has_attr "lang"; tag "span"]];             (* [lang] span *)
    [[tag_with "div" [AttrHas "lang"]]];  (* div[lang] *)
    [[tag_with "span" [AttrHas "lang"]]]; (* span[lang] *)
    [[Compound None [AttrEq "dir" "auto"]]] ].   (* [dir="auto"] *)

(** ** [parseEngagement] *)

(** The class [[\d.,KMBkmb]]; under the [i] flag it is the same class. *)
Definition is_suffix_char (c : char16) : bool :=
  (c =? 75) || (c =? 77) || (c =? 66) || (c =? 107) || (c =? 109) || (c =? 98).
Definition is_count_char (c : char16) : bool :=
  is_digit c || (c =? 46) || (c =? 44) || is_suffix_char c.
Definition is_digit_or_comma (c : char16) : bool := is_digit c || (c =? 44).

(** The pattern [/( [\d,]+ \.? \d* ) \s* ( [KMBkmb]? )/i] (written here
    with blanks between its parts) tried at the head of [s]: the two
    groups when it matches there. Every part after [[\d,]+] can match the
    empty string, so the greedy choices are never undone: the first part
    takes the longest run of digits and commas, and the match exists as
    soon as that run is not empty. *)
Definition count_pattern_at (s : jsstring) : option (jsstring * jsstring) :=
  let '(run, r1) := span is_digit_or_comma s in
  match run with
  | [] => None
  | _ =>
    let '(dot, r2) := match r1 with
                      | c :: r => if c =? 46 then ([c], r) else ([], r1)
                      | [] => ([], [])
                      end in
    let '(frac, r3) := span is_digit r2 in
    let r4 := drop_while is_space r3 in
    let suffix := match r4 with
                  | c :: _ => if is_suffix_char c then [c] else []
                  | [] => []
                  end in
    Some (run ++ dot ++ frac, suffix)
  end.

(** [s.match] of that pattern: the leftmost match. *)
Definition count_pattern (s : jsstring) : option (jsstring * jsstring) :=
  search count_pattern_at s.

(** [s.match(/\d+/)]: the first run of digits, [None] when [s] has none. *)
Definition first_digits (s : jsstring) : option jsstring :=
  match fst (span is_digit (drop_while (fun c => negb (is_digit c)) s)) with
  | [] => None
  | ds => Some ds
  end.

(** [s.replace(/,/g, '')] *)
Definition remove_commas (s : jsstring) : jsstring :=
  List.filter (fun c => negb (c =? 44)) s.

(** The branch of [parseEngagement] that produces the result. *)
Inductive branch : Type := EmptyInput | Structured | Fallback.

Definition parseEngagement_branch (text : jsstring) : branch :=
  if negb (truthy text) then EmptyInput
  else match count_pattern (List.filter is_count_char text) with
       | None => Fallback
       | Some _ => Structured
       end.

Definition parseEngagement (text : jsstring) : number :=
  if negb (truthy text) then of_Z 0 else
  let cleanText := List.filter is_count_char text in
  match count_pattern cleanText with
  | None =>
    match first_digits text with
    | Some numMatch => parseInt numMatch
    | None => of_Z 0
    end
  | Some (m1, m2) =>
    let num := parseFloat (remove_commas m1) in
    let suffix := toUpperCase m2 in
    let num :=
      if decide (suffix = js "K") then mul num (of_Z 1000)
      else if decide (suffix = js "M") then mul num (of_Z 1000000)
      else if decide (suffix = js "B") then mul num (of_Z 1000000000)
      else num in
    Math_floor num
  end.

(** The factor that a suffix letter stands for: K or k a thousand, M or m
    a million, B or b a billion. *)
Definition factor_of (c : char16) : Z :=
  if (c =? 75) || (c =? 107) then 1000
  else if (c =? 77) || (c =? 109) then 1000000
  else 1000000000.

(** The groups of a match, with the suffix in upper case. *)
Definition up_suffix (g : jsstring * jsstring) : jsstring * jsstring :=
  (fst g, map to_upper_char (snd g)).

End Selectors.

(* ===================================================================== *)
(** * The rendered page                                                  *)
(* ===================================================================== *)

Module Dom.
Import Selectors.

(** An element, as the page scripts see it: its text, its descendants
    under a selector and its attributes. A read of an element can throw;
    in a browser these three reads do not, which is the case where every
    read is an [Ok]. *)
#[local] Unset Elimination Schemes.
Inductive Element : Type := mkElement {
  textContent : result (option jsstring);
  querySelector : selector -> result (option Element);
  getAttribute : string -> result (option jsstring)
}.
#[local] Set Elimination Schemes.

(** [document.querySelectorAll], in document order. The selectors of the
    sources are constants with a valid syntax, for which the call returns. *)
Record Document : Type := mkDocument {
  querySelectorAll : selector -> list Element
}.

(** [document.querySelector(sel)] *)
Definition doc_querySelector (doc : Document) (sel : selector) : option Element :=
  head (querySelectorAll doc sel).

(** [el?.textContent?.trim()] together with its truthiness test: the
    trimmed text when there is an element with a text that is not blank. *)
Definition trimmed_text (el : option Element) : result (option jsstring) :=
  match el with
  | None => Ok None
  | Some e =>
    let* t := textContent e in
    match t with
    | None => Ok None
    | Some s => if truthy (trim s) then Ok (Some (trim s)) else Ok None
    end
  end.

(** [el.textContent || ''] *)
Definition text_or_empty (el : Element) : result jsstring :=
  let* t := textContent el in
  Ok (default [] t).

End Dom.

(* ===================================================================== *)
(** * src/services/twitter.ts                                            *)
(* ===================================================================== *)

Module Twitter.
Import Selectors Dom.

Record Tweet : Type := mkTweet {
  id : jsstring;
  text : jsstring;
  timestamp : jsstring;
  author : jsstring;
  likes : number;
  retweets : number;
  replies : number;
  isRetweet : bool;
  originalAuthor : option jsstring
}.

Record UserProfile : Type := mkUserProfile {
  username : jsstring;
  displayName : jsstring;
  bio : jsstring;
  followers : number;
  following : number;
  tweets : number;
  verified : bool
}.

(** The clock of the page while it handles the element at a given index:
    [Date.now()] in milliseconds and [new Date().toISOString()]. *)
Record Clock : Type := mkClock {
  Date_now : nat -> N;
  Date_toISOString : nat -> jsstring
}.

(** ** The helpers of [extractTweets] *)

(** The selector list of [extractTweetText]. *)
Definition textSelectors : list selector :=
  [ [[testid "tweetText"]];
    [[has_attr "lang"; tag "span"]];
    [[tag_with "div" [AttrHas "lang"]]];
    [[tag_with "span" [AttrHas "lang"]]];
    [[Compound None [AttrEq "dir" "auto"]]] ].

(** The loop over [textSelectors]: the first selector whose element has a
    text that is not blank gives that text, trimmed. *)
Fixpoint first_selector_text (el : Element) (sels : list selector)
  : result (option jsstring) :=
  match sels with
  | [] => Ok None
  | sel :: rest =>
    let* textEl := querySelector el sel in
    let* t := trimmed_text textEl in
    match t with
    | Some s => Ok (Some s)
    | None => first_selector_text el rest
    end
  end.

Definition extractTweetText (el : Element) : result jsstring :=
  let* found := first_selector_text el textSelectors in
  match found with
  | Some s => Ok s
  | None =>
    (* fallback: the text of the whole element *)
    let* t := trimmed_text (Some el) in
    let fullText := default [] t in
    if (500 <? length fullText)%nat
    then Ok (substring0 280 fullText ++ js "...")
    else Ok fullText
  end.

Definition is_hms (c : char16) : bool := (c =? 104) || (c =? 109) || (c =? 115).

(** [/(\d+[hms]|\d+時間前|\d+分前|\d+時|\d+分)/] at the head of a string. *)
Definition relative_time_at (s : jsstring) : option jsstring :=
  first_alt [ digits_then [one_of is_hms];
              digits_then [lit (js "時間前")];
              digits_then [lit (js "分前")];
              digits_then [lit (js "時")];
              digits_then [lit (js "分")] ] s.

Definition extractTimestamp (clock : Clock) (index : nat) (el : Element)
  : result jsstring :=
  let* timeEl := querySelector el [[tag "time"]] in
  match timeEl with
  | Some t =>
    let* datetime := getAttribute t "datetime" in
    if truthy (default [] datetime) then Ok (default [] datetime)
    else
      let* content := textContent t in
      Ok (or_else (default [] content) [])
  | None =>
    let* text := text_or_empty el in
    match search relative_time_at text with
    | Some relativeTime => Ok relativeTime
    | None => Ok (Date_toISOString clock index)
    end
  end.

(** The selector list of [extractAuthor]. *)
Definition authorSelectors : list selector :=
  [ [[testid "User-Name"; tag_with "a" [AttrEq "role" "link"]]];
    [[testid "User-Names"; tag_with "a" [AttrEq "role" "link"]]];
    [[tag_with "a" [AttrPrefix "href" "/"]]];
    [[Compound None [AttrPrefix "href" "/"; AttrEq "role" "link"]]] ].

Fixpoint first_author_link (el : Element) (sels : list selector)
  : result (option jsstring) :=
  match sels with
  | [] => Ok None
  | sel :: rest =>
    let* authorEl := querySelector el sel in
    match authorEl with
    | Some a =>
      let* href := getAttribute a "href" in
      match href with
      | Some h =>
        if truthy h && starts_with (js "/") h && negb (includes (js "/status/") h)
        then Ok (Some (slice1 h))
        else first_author_link el rest
      | None => first_author_link el rest
      end
    | None => first_author_link el rest
    end
  end.

Definition is_handle_char (c : char16) : bool :=
  is_lower c || is_upper c || is_digit c || (c =? 95).

(** [/@([a-zA-Z0-9_]+)/] at the head of a string: its group. *)
Definition handle_at (s : jsstring) : option jsstring :=
  match s with
  | c :: r => if c =? 64
              then match fst (span is_handle_char r) with
                   | [] => None
                   | h => Some h
                   end
              else None
  | [] => None
  end.

Definition extractAuthor (index : nat) (el : Element) : result jsstring :=
  let* link := first_author_link el authorSelectors in
  match link with
  | Some a => Ok a
  | None =>
    let* text := text_or_empty el in
    match search handle_at text with
    | Some userMatch => Ok userMatch
    | None => Ok (js "extracted_user_" ++ string_of_N (N.of_nat index))
    end
  end.

Inductive engagement_type : Type := like | retweet | reply.

Definition testIds (type : engagement_type) : list string :=
  match type with
  | like => ["like"; "favorite"]
  | retweet => ["retweet"; "unretweet"]
  | reply => ["reply"]
  end%string.

(** The loop of [extractEngagement] over the test ids: the first count
    that [parseEngagement] decodes to a number above zero. *)
Fixpoint first_positive_count (el : Element) (ids : list string)
  : result (option number) :=
  match ids with
  | [] => Ok None
  | testId :: rest =>
    let* engagementEl := querySelector el [[testid testId; tag "span"]] in
    match engagementEl with
    | Some e =>
      let* t := textContent e in
      match t with
      | Some s =>
        if truthy s && gt0 (parseEngagement s)
        then Ok (Some (parseEngagement s))
        else first_positive_count el rest
      | None => first_positive_count el rest
      end
    | None => first_positive_count el rest
    end
  end.

Definition extractEngagement (el : Element) (type : engagement_type)
  : result number :=
  let* found := first_positive_count el (testIds type) in
  match found with
  | Some num => Ok num
  | None =>
    (* fallback: the first number in the text of the element *)
    let* text := text_or_empty el in
    match first_digits text with
    | Some n => Ok (parseInt n)
    | None => Ok (of_Z 0)
    end
  end.

(** ** [extractTweets] *)

(** [possibleSelectors] *)
Definition possibleSelectors : list selector :=
  [ [[testid "tweet"]];
    [[tag_testid "article" "tweet"]];
    [[testid "cellInnerDiv"; tag "article"]];
    [[tag_with "article" [AttrEq "role" "article"]]];
    [[tag_testid "div" "tweet"]];
    [[testid "tweetText"]] ].

(** The loop over [possibleSelectors]: the elements of the first selector
    that matches something. *)
Fixpoint first_working_selector (doc : Document) (sels : list selector)
  : option (list Element) :=
  match sels with
  | [] => None
  | sel :: rest =>
    match querySelectorAll doc sel with
    | [] => first_working_selector doc rest
    | elements => Some elements
    end
  end.

(** [/\d+[hms]|時間前|分前|時|分/] somewhere in a string. *)
Definition mentions_time (s : jsstring) : bool :=
  match search (first_alt [ digits_then [one_of is_hms];
                            lit (js "時間前"); lit (js "分前");
                            lit (js "時"); lit (js "分") ]) s with
  | Some _ => true
  | None => false
  end.

(** The test of the fallback scan, in the order of its [&&] chain. *)
Definition looks_like_tweet (el : Element) : result bool :=
  let* text := text_or_empty el in
  if (20 <? length text)%nat && (length text <? 1000)%nat then
    let* input := querySelector el [[tag "input"]] in
    match input with
    | Some _ => Ok false
    | None =>
      let* button := querySelector el [[tag "button"]] in
      match button with
      | Some _ => Ok false
      | None => Ok (includes (js "@") text || mentions_time text)
      end
    end
  else Ok false.

(** [allElements.forEach(el => { if (...) tweetCandidates.push(el) })] *)
Fixpoint scan_candidates (allElements : list Element) : result (list Element) :=
  match allElements with
  | [] => Ok []
  | el :: rest =>
    let* keep := looks_like_tweet el in
    let* tail := scan_candidates rest in
    Ok (if keep then el :: tail else tail)
  end.

(** Where the elements handed to the extraction loop come from. *)
Inductive strategy : Type := BySelector | ByFallback.

(** The first half of [extractTweets]: [Some] of the elements to process
    and of the strategy that found them, [None] when the function returns
    [[]] at once. *)
Definition tweetElements (doc : Document)
  : result (option (list Element * strategy)) :=
  match first_working_selector doc possibleSelectors with
  | Some elements => Ok (Some (elements, BySelector))
  | None =>
    let* tweetCandidates := scan_candidates (querySelectorAll doc [[tag "*"]]) in
    match tweetCandidates with
    | [] => Ok None
    | _ => Ok (Some (firstn 10 tweetCandidates, ByFallback))
    end
  end.

(** The body of the [try] block for one element; [None] is the early
    [return] for a text that is too short. *)
Definition extractTweet (clock : Clock) (index : nat) (element : Element)
  : result (option Tweet) :=
  let* text := extractTweetText element in
  let* timestamp := extractTimestamp clock index element in
  let* author := extractAuthor index element in
  if negb (truthy text) || (length text <? 5)%nat then Ok None
  else
    let* likes := extractEngagement element like in
    let* retweets := extractEngagement element retweet in
    let* replies := extractEngagement element reply in
    let* socialContext := querySelector element [[testid "socialContext"]] in
    let* contextLink := querySelector element [[testid "socialContext"; tag "a"]] in
    let* original := match contextLink with
                     | Some a => textContent a
                     | None => Ok None
                     end in
    Ok (Some {|
      id := js "tweet_" ++ string_of_N (Date_now clock index) ++ js "_"
              ++ string_of_N (N.of_nat index);
      text := text;
      timestamp := timestamp;
      author := author;
      likes := likes;
      retweets := retweets;
      replies := replies;
      isRetweet := bool_decide (is_Some socialContext);
      originalAuthor := match original with
                        | Some s => if truthy s then Some s else None
                        | None => None
                        end
    |}).

(** One turn of [tweetElements.forEach]: the [try] block pushes onto
    [tweets] as its last effect, the [catch] block logs the error and
    leaves [tweets] as it is. *)
Definition forEach_step (clock : Clock) (tweets : list Tweet)
    (index : nat) (element : Element) : result (list Tweet) :=
  try_catch (let* t := extractTweet clock index element in
             Ok (match t with
                 | Some tweet => tweets ++ [tweet]
                 | None => tweets
                 end))
            (fun error => Ok tweets).

Fixpoint forEach (clock : Clock) (tweets : list Tweet) (index : nat)
    (elements : list Element) : result (list Tweet) :=
  match elements with
  | [] => Ok tweets
  | element :: rest =>
    let* tweets' := forEach_step clock tweets index element in
    forEach clock tweets' (S index) rest
  end.

(** The page script of [extractTweets]. The copy of [parseEngagement] that
    the script declares for itself has the body of the one in
    [selectors.ts]. *)
Definition extractTweets (doc : Document) (clock : Clock) : result (list Tweet) :=
  let* found := tweetElements doc in
  match found with
  | None => Ok []
  | Some (elements, _) => forEach clock [] 0 elements
  end.

(** ** The collection loop, in the words of the specification

    "Posts accumulate in first-seen order across iterations; later
    duplicates (by id) are dropped, earlier instance retained": the posts
    of [l] whose id is not in [seen] and has not occurred earlier in [l]. *)
Fixpoint first_seen (seen : list jsstring) (l : list Tweet) : list Tweet :=
  match l with
  | [] => []
  | t :: r =>
    if bool_decide (id t ∈ seen) then first_seen seen r
    else t :: first_seen (seen ++ [id t]) r
  end.

(** The posts extracted in the turns [0] to [k - 1], in that order. *)
Definition extracted_before (pages : nat -> list Tweet) (k : nat) : list Tweet :=
  concat (map pages (seq 0 k)).

(** What the loop is to hold after [k] turns for a target of [maxTweets]. *)
Definition collected_after (pages : nat -> list Tweet) (maxTweets k : nat)
  : list Tweet :=
  firstn maxTweets (first_seen [] (extracted_before pages k)).

(** ** The fallback scan, in the words of the specification

    "any element whose trimmed text length is in [20, 1000), which contains
    no nested interactive input/button elements, and whose text contains
    either an @handle token or a relative-time token (digits followed by
    h/m/s, or a localized hour/minute ago marker)". *)
Definition spec_time_token (s : jsstring) : bool :=
  match search (first_alt [ digits_then [one_of is_hms];
                            lit (js "時間前"); lit (js "分前") ]) s with
  | Some _ => true
  | None => false
  end.

Definition spec_handle_token (s : jsstring) : bool :=
  match search handle_at s with
  | Some _ => true
  | None => false
  end.

Definition spec_candidate (el : Element) : result bool :=
  let* text := text_or_empty el in
  let* input := querySelector el [[tag "input"]] in
  let* button := querySelector el [[tag "button"]] in
  Ok ((20 <=? length (trim text))%nat && (length (trim text) <? 1000)%nat
      && negb (bool_decide (is_Some input)) && negb (bool_decide (is_Some button))
      && (spec_handle_token text || spec_time_token text)).

(** ** [collectTweetsNaturally] *)

Record CollectionConfig : Type := mkCollectionConfig {
  maxTweets : option nat;
  scrollDelay : option nat;
  readingTime : option nat
}.

(** [Math.ceil(maxTweets / 3)], for a count. *)
Definition maxScrolls_of (maxTweets : nat) : nat := ((maxTweets + 2) / 3)%nat.

(** The body of [for (const tweet of pageTweets)]. *)
Definition add_if_new (maxTweets : nat) (tweets : list Tweet) (tweet : Tweet)
  : list Tweet :=
  if negb (existsb (fun t => bool_decide (id t = id tweet)) tweets)
     && (length tweets <? maxTweets)%nat
  then tweets ++ [tweet]
  else tweets.

(** The [for] loop over [i], with [remaining = maxScrolls - i] turns left.
    [extract i] is the outcome of the call of [this.extractTweets()] in
    turn [i], after the mouse move, the scroll and the reading pause. The
    state is the array [tweets] and the counter [scrollCount]. *)
Fixpoint scroll_loop (extract : nat -> result (list Tweet)) (maxTweets : nat)
    (remaining i : nat) (tweets : list Tweet) (scrollCount : nat)
  : result (list Tweet * nat) :=
  match remaining with
  | O => Ok (tweets, scrollCount)
  | S remaining' =>
    if (length tweets <? maxTweets)%nat then
      let* pageTweets := extract i in
      let tweets' := fold_left (add_if_new maxTweets) pageTweets tweets in
      scroll_loop extract maxTweets remaining' (S i) tweets' (S scrollCount)
    else Ok (tweets, scrollCount)
  end.

(** The method returns a message that reports [tweets.length],
    [scrollCount] and the first five tweets; the model returns the array
    and the counter themselves. An exception of the loop is thrown again
    with a prefix. *)
Definition collectTweetsNaturally (extract : nat -> result (list Tweet))
    (config : CollectionConfig) : result (list Tweet * nat) :=
  let maxTweets := default 20%nat (maxTweets config) in
  let maxScrolls := maxScrolls_of maxTweets in
  try_catch (scroll_loop extract maxTweets maxScrolls 0 [] 0)
            (fun error => Throw (js "ツイート収集に失敗しました: " ++ error)).

(** ** [getUserProfile] *)

(** [getTextContent] of the page script. *)
Definition getTextContent (doc : Document) (sel : selector) : result jsstring :=
  let* t := trimmed_text (doc_querySelector doc sel) in
  Ok (default [] t).

(** [/[\d,]+/] at the head of a string. *)
Definition digits_commas_at (s : jsstring) : option jsstring :=
  match fst (span is_digit_or_comma s) with
  | [] => None
  | run => Some run
  end.

Definition getNumber (text : jsstring) : number :=
  match search digits_commas_at text with
  | Some m => parseInt (remove_commas m)
  | None => of_Z 0
  end.

(** The count behind a link: [el ? getNumber(el.textContent || '') : 0]. *)
Definition link_count (el : option Element) : result number :=
  match el with
  | Some e => let* t := text_or_empty e in Ok (getNumber t)
  | None => Ok (of_Z 0)
  end.

(** The page script of [getUserProfile]: the object it returns. *)
Definition getUserProfile_evaluate (doc : Document) : result UserProfile :=
  let* displayName := getTextContent doc [[testid "UserName"; tag "span"]] in
  let* handle := getTextContent doc [[testid "UserName"; Compound None [AttrEq "dir" "ltr"]]] in
  let username := remove_first 64 handle in
  let* bio := getTextContent doc [[testid "UserDescription"]] in
  let followingElement :=
    doc_querySelector doc [[tag_with "a" [AttrSuffix "href" "/following"]; tag "span"]] in
  let followersElement :=
    doc_querySelector doc
      [ [tag_with "a" [AttrSuffix "href" "/verified_followers"]; tag "span"];
        [tag_with "a" [AttrSuffix "href" "/followers"]; tag "span"] ] in
  let* following := link_count followingElement in
  let* followers := link_count followersElement in
  Ok {| username := or_else username [];
        displayName := or_else displayName [];
        bio := or_else bio [];
        followers := followers;
        following := following;
        verified := bool_decide (is_Some (doc_querySelector doc [[testid "icon-verified"]]));
        tweets := of_Z 0 |}.

End Twitter.

(* ===================================================================== *)
(** * src/services/sheets.ts                                             *)
(* ===================================================================== *)

Module Sheets.
Import Twitter.

(** ** The Google Sheets service

    The service is not part of the repository; this is the part of its
    documented behaviour that [exportTweetsToSheets] relies on.
      - A worksheet is a grid of cells; a cell holds a string or a number
        and is empty when it holds the empty string ("To set a cell to an
        empty value, set the string value to an empty string").
      - [values.get] returns the rows of the range from its first row on,
        each row cut after its last cell that is not empty, and "empty
        trailing rows and columns will not be included".
      - [values.update] writes the given rows into the range from its top
        left corner, and refuses rows that do not fit into the range.
    The size of the grid and the conversions of [USER_ENTERED] input are
    not modelled: a cell keeps what was written. *)

Inductive cell : Type :=
  | CString (s : jsstring)
  | CNumber (n : number).

Abbreviation row := (list cell) (only parsing).

(** The rows of a worksheet, row 1 first. Rows after the last one, and
    cells after the last one of a row, are empty. *)
Abbreviation worksheet := (list (list cell)) (only parsing).

(** A spreadsheet: its worksheets by title. *)
Abbreviation spreadsheet := (gmap (list N) (list (list cell))) (only parsing).

(** A range in A1 notation; a column is the code unit of its letter. *)
Inductive a1range : Type :=
  | Columns (sheet : jsstring) (first_col last_col : char16)
  | Cells (sheet : jsstring) (first_col : char16) (first_row : nat)
          (last_col : char16) (last_row : nat).

(** The text of a range: [`${sheet}!A:A`] and [`${sheet}!A${r1}:J${r2}`]. *)
Definition range_text (r : a1range) : jsstring :=
  match r with
  | Columns sheet c1 c2 => sheet ++ js "!" ++ [c1] ++ js ":" ++ [c2]
  | Cells sheet c1 r1 c2 r2 =>
    sheet ++ js "!" ++ [c1] ++ string_of_N (N.of_nat r1) ++ js ":" ++ [c2]
      ++ string_of_N (N.of_nat r2)
  end.

Inductive request : Type :=
  | SpreadsheetsGet (spreadsheetId : jsstring)
  | AddSheet (spreadsheetId : jsstring) (title : jsstring) (rowCount columnCount : nat)
  | ValuesGet (spreadsheetId : jsstring) (range : a1range)
  | ValuesUpdate (spreadsheetId : jsstring) (range : a1range)
                 (valueInputOption : string) (values : list row).

(** The state of the service: the spreadsheets of the account by id, and
    the requests it has received, oldest first. *)
Record Service : Type := mkService {
  files : gmap jsstring spreadsheet;
  requests : list request
}.

Definition log (q : request) (s : Service) : Service :=
  {| files := files s; requests := requests s ++ [q] |}.

Definition is_empty_cell (c : cell) : bool :=
  match c with
  | CString [] => true
  | _ => false
  end.

(** A row cut after its last cell that is not empty. *)
Fixpoint cut_row (r : row) : row :=
  match r with
  | [] => []
  | c :: rest => match cut_row rest with
                 | [] => if is_empty_cell c then [] else [c]
                 | rest' => c :: rest'
                 end
  end.

(** Rows without the empty rows at the end. *)
Fixpoint cut_rows (rows : list row) : list row :=
  match rows with
  | [] => []
  | r :: rest => match cut_rows rest, r with
                 | [], [] => []
                 | rest', _ => r :: rest'
                 end
  end.

Definition column_index (c : char16) : nat := N.to_nat (c - 65).

(** The cells of a row in the columns [c1] to [c2]. *)
Definition row_slice (c1 c2 : char16) (r : row) : row :=
  firstn (S (column_index c2) - column_index c1) (skipn (column_index c1) r).

(** What [values.get] returns for a range of whole columns. *)
Definition range_values (c1 c2 : char16) (ws : worksheet) : list row :=
  cut_rows (map (fun r => cut_row (row_slice c1 c2 r)) ws).

(** [new] written into a row from the column at offset [c] on. *)
Definition write_cells (c : nat) (new old : row) : row :=
  firstn c old ++ repeat (CString []) (c - length old) ++ new
    ++ skipn (c + length new) old.

(** [values] written into the rows of a worksheet, one row each, from
    the first row on. *)
Fixpoint write_rows (c : nat) (values : list row) (ws : worksheet) : worksheet :=
  match values with
  | [] => ws
  | v :: vs => write_cells c v (hd [] ws) :: write_rows c vs (tl ws)
  end.

(** [values] written from row [r1] on (rows count from 1). *)
Definition write_range (c : nat) (r1 : nat) (values : list row) (ws : worksheet)
  : worksheet :=
  firstn (r1 - 1) ws ++ repeat [] (r1 - 1 - length ws)
    ++ write_rows c values (skipn (r1 - 1) ws).

Definition not_found : jsstring := js "Requested entity was not found.".
Definition bad_range : jsstring := js "Unable to parse range".
Definition no_fit : jsstring := js "Requested writing within range, but tried writing outside of it".

(** [sheets.spreadsheets.get]: the titles of the worksheets. *)
Definition spreadsheets_get (spreadsheetId : jsstring) (s : Service)
  : result (list jsstring * Service) :=
  match files s !! spreadsheetId with
  | None => Throw not_found
  | Some ss => Ok (map fst (map_to_list ss), log (SpreadsheetsGet spreadsheetId) s)
  end.

(** [sheets.spreadsheets.batchUpdate] with one [addSheet] request. *)
Definition add_sheet (spreadsheetId title : jsstring) (rowCount columnCount : nat)
    (s : Service) : result Service :=
  match files s !! spreadsheetId with
  | None => Throw not_found
  | Some ss =>
    match ss !! title with
    | Some _ => Throw (js "A sheet with this name already exists")
    | None =>
      Ok {| files := <[spreadsheetId := <[title := []]> ss]> (files s);
            requests := requests s
                          ++ [AddSheet spreadsheetId title rowCount columnCount] |}
    end
  end.

(** [sheets.spreadsheets.values.get]: [None] stands for a response without
    the [values] property, which is what a range without data gives. *)
Definition values_get (spreadsheetId : jsstring) (range : a1range) (s : Service)
  : result (option (list row) * Service) :=
  match files s !! spreadsheetId with
  | None => Throw not_found
  | Some ss =>
    match range with
    | Columns sheet c1 c2 =>
      match ss !! sheet with
      | None => Throw bad_range
      | Some ws =>
        Ok (match range_values c1 c2 ws with
            | [] => None
            | rows => Some rows
            end, log (ValuesGet spreadsheetId range) s)
      end
    | Cells _ _ _ _ _ => Throw bad_range
    end
  end.

(** [sheets.spreadsheets.values.update] *)
Definition values_update (spreadsheetId : jsstring) (range : a1range)
    (valueInputOption : string) (values : list row) (s : Service)
  : result Service :=
  match files s !! spreadsheetId with
  | None => Throw not_found
  | Some ss =>
    match range with
    | Cells sheet c1 r1 c2 r2 =>
      match ss !! sheet with
      | None => Throw bad_range
      | Some ws =>
        if (1 <=? r1)%nat && (length values <=? S r2 - r1)%nat
           && forallb (fun v => (length v <=? S (column_index c2) - column_index c1)%nat)
                      values
        then Ok {| files := <[spreadsheetId :=
                               <[sheet := write_range (column_index c1) r1 values ws]> ss]>
                              (files s);
                   requests := requests s
                     ++ [ValuesUpdate spreadsheetId range valueInputOption values] |}
        else Throw no_fit
      end
    | Columns _ _ _ => Throw bad_range
    end
  end.

(** The cells of row [r] of a worksheet, as the service holds them. *)
Definition sheet_row (s : Service) (spreadsheetId title : jsstring) (r : nat)
  : option row :=
  match files s !! spreadsheetId with
  | Some ss => match ss !! title with
               | Some ws => ws !! (r - 1)%nat
               | None => None
               end
  | None => None
  end.

(** ** [SheetsService] *)

(** [ensureWorksheetExists]; its [catch] block throws again with a prefix. *)
Definition ensureWorksheetExists (spreadsheetId worksheetName : jsstring)
    (s : Service) : result Service :=
  try_catch
    (let* '(existingSheets, s1) := spreadsheets_get spreadsheetId s in
     let worksheetExists :=
       existsb (fun title => bool_decide (title = worksheetName)) existingSheets in
     if negb worksheetExists
     then add_sheet spreadsheetId worksheetName 1000 10 s1
     else Ok s1)
    (fun error => Throw (js "ワークシート確認・作成に失敗しました: " ++ error)).

(** The header row of the tweet sheet. *)
Definition headers : row :=
  map (fun h => CString (js h))
    [ "タイムスタンプ"; "ユーザー名"; "ツイート内容"; "いいね数"; "リツイート数";
      "返信数"; "リツイート?"; "元ユーザー"; "URL"; "収集日時" ]%string.

(** One record row; [collectedAt] is [new Date().toISOString()] at the
    moment the row is built. *)
Definition dataRow (collectedAt : jsstring) (tweet : Tweet) : row :=
  [ CString (timestamp tweet);
    CString (author tweet);
    CString (text tweet);
    CNumber (likes tweet);
    CNumber (retweets tweet);
    CNumber (replies tweet);
    CString (if isRetweet tweet then js "はい" else js "いいえ");
    CString (default [] (originalAuthor tweet));
    CString (js "https://x.com/" ++ author tweet);
    CString collectedAt ].

(** What the message of a successful export reports. *)
Record ExportReport : Type := mkExportReport {
  isFirstData : bool;
  newDataCount : nat;
  totalRows : nat;
  range : a1range
}.

(** [exportTweetsToSheets]. [now k] is [new Date().toISOString()] at the
    [k]-th reading of the clock in the call: reading 0 gives the default
    name of the worksheet, reading [i + 1] the [collectedAt] of record [i]. *)
Definition exportTweetsToSheets (now : nat -> jsstring)
    (spreadsheetId : jsstring) (tweets : list Tweet)
    (worksheetName : option jsstring) (s : Service)
  : result (ExportReport * Service) :=
  try_catch
    (if bool_decide (tweets = [])
     then Throw (js "Error: エクスポートするツイートデータがありません。")
     else
       let today := before_first 84 (now 0%nat) in
       let targetWorksheet := or_else (default [] worksheetName) today in
       let* s1 := ensureWorksheetExists spreadsheetId targetWorksheet s in
       let* '(existingData, s2) :=
         values_get spreadsheetId (Columns targetWorksheet 65 65) s1 in
       let existingRowCount := length (default [] existingData) in
       let isFirstData := (existingRowCount =? 0)%nat in
       let dataRows := imap (fun i tweet => dataRow (now (S i)) tweet) tweets in
       let '(startRow, values) :=
         if isFirstData then (1%nat, headers :: dataRows)
         else (S existingRowCount, dataRows) in
       let range :=
         Cells targetWorksheet 65 startRow 74 (startRow + length values - 1) in
       let* s3 := values_update spreadsheetId range "USER_ENTERED" values s2 in
       let newDataCount := length tweets in
       let totalRows := if isFirstData then S newDataCount
                        else (existingRowCount + newDataCount)%nat in
       Ok ({| isFirstData := isFirstData;
              newDataCount := newDataCount;
              totalRows := totalRows;
              range := range |}, s3))
    (fun error =>
       Throw (js "ツイートのスプレッドシート出力に失敗しました: " ++ error)).

End Sheets.

(* ===================================================================== *)
(** * src/types/interfaces.ts                                            *)
(* ===================================================================== *)

Module Interfaces.
Import Selectors.

(** The [parseEngagement] that [interfaces.ts] exports and that the
    earlier page script of [extractTweets] declares for itself: the
    pattern is applied to the text as it is, and a text without a match
    gives 0. *)
Definition parseEngagement (text : jsstring) : number :=
  if negb (truthy text) then of_Z 0 else
  match count_pattern text with
  | None => of_Z 0
  | Some (m1, m2) =>
    let num := parseFloat (remove_commas m1) in
    let suffix := toUpperCase m2 in
    let num :=
      if decide (suffix = js "K") then mul num (of_Z 1000)
      else if decide (suffix = js "M") then mul num (of_Z 1000000)
      else if decide (suffix = js "B") then mul num (of_Z 1000000000)
      else num in
    Math_floor num
  end.

End Interfaces.

(* ===================================================================== *)
(** * src/utils/selectors.ts: the helpers over the page                   *)
(* ===================================================================== *)

Module Helpers.
Import Selectors Dom.

(** [getTextContent(element, selector)]; [selector] is [None] when the
    argument is left out. *)
Definition getTextContent (element : option Element) (sel : option selector)
  : result jsstring :=
  let* targetElement :=
    match sel with
    | Some q => match element with
                | Some e => querySelector e q
                | None => Ok None
                end
    | None => Ok element
    end in
  let* t := trimmed_text targetElement in
  Ok (default [] t).

(** [getAttribute(element, attribute)] *)
Definition getAttribute (element : option Element) (attribute : string)
  : result jsstring :=
  match element with
  | Some e => let* a := Dom.getAttribute e attribute in Ok (default [] a)
  | None => Ok []
  end.

(** [findElementBySelectors], for a document as the container. *)
Fixpoint findElementBySelectors (container : Document) (selectors : list selector)
  : option Element :=
  match selectors with
  | [] => None
  | sel :: rest =>
    match doc_querySelector container sel with
    | Some element => Some element
    | None => findElementBySelectors container rest
    end
  end.

(** [findAllElementsBySelectors], for a document as the container. *)
Fixpoint findAllElementsBySelectors (container : Document)
    (selectors : list selector) : list Element :=
  match selectors with
  | [] => []
  | sel :: rest =>
    match querySelectorAll container sel with
    | [] => findAllElementsBySelectors container rest
    | elements => elements
    end
  end.

End Helpers.

(* ===================================================================== *)
(** * src/services/twitter.ts: the passes of a collection                 *)
(* ===================================================================== *)

Module Session.
Import Selectors Dom Twitter.

(** [collectTweetsNaturally] with [this.extractTweets()] for its passes:
    pass [i] runs the page script on the document and with the clock of
    that moment. *)
Definition collect (page : nat -> Document) (clock : nat -> Clock)
    (config : CollectionConfig) : result (list Tweet * nat) :=
  collectTweetsNaturally (fun i => extractTweets (page i) (clock i)) config.

(** The id that the page script gives to the element at [index]. *)
Definition tweet_id (clock : Clock) (index : nat) : jsstring :=
  js "tweet_" ++ string_of_N (Date_now clock index) ++ js "_"
    ++ string_of_N (N.of_nat index).

(** A count as the sheet is to hold it: a whole number that is not
    negative, or [Infinity] for a run of digits beyond the range of a
    double. *)
Definition whole_count (n : number) : Prop :=
  n = Infinity \/ exists z : Z, (0 <= z)%Z /\ n = of_Z z.

(** No white space at either end of a string. *)
Definition no_outer_space (s : jsstring) : Prop :=
  (forall c, head s = Some c -> is_space c = false)
  /\ (forall c, last s = Some c -> is_space c = false).

(** A number that is not negative. *)
Definition nonneg (a : number) : Prop :=
  match a with
  | Finite q => (0 <= q)%Q
  | _ => True
  end.

(** The posts of pass [i], none when the pass throws. *)
Definition returned (extract : nat -> result (list Tweet)) (i : nat) : list Tweet :=
  match extract i with
  | Ok l => l
  | Throw _ => []
  end.

End Session.

(* ===================================================================== *)
(** * src/services/twitter.ts, the earlier version                        *)
(* ===================================================================== *)

Module Earlier.
Import Selectors Dom Twitter.

(** [el?.textContent || fallback] *)
Definition text_of (el : option Element) (fallback : jsstring) : result jsstring :=
  match el with
  | Some e => let* t := textContent e in Ok (or_else (default [] t) fallback)
  | None => Ok fallback
  end.

(** [el?.getAttribute(attribute) || ''] *)
Definition attribute_of (el : option Element) (attribute : string)
  : result jsstring :=
  match el with
  | Some e => let* a := getAttribute e attribute in Ok (default [] a)
  | None => Ok []
  end.

(** The body of the [try] block of the earlier page script for one
    element: it pushes a post for every element whose reads return. *)
Definition extractTweet (clock : Clock) (index : nat) (element : Element)
  : result Tweet :=
  let* textElement := querySelector element [[testid "tweetText"]] in
  let* timeElement := querySelector element [[tag "time"]] in
  let* authorElement :=
    querySelector element [[testid "User-Name"; tag_with "a" [AttrEq "role" "link"]]] in
  let* likeElement := querySelector element [[testid "like"; tag "span"]] in
  let* retweetElement := querySelector element [[testid "retweet"; tag "span"]] in
  let* replyElement := querySelector element [[testid "reply"; tag "span"]] in
  let* text := text_of textElement [] in
  let* timestamp := attribute_of timeElement "datetime" in
  let* authorHref := attribute_of authorElement "href" in
  let author := remove_first 47 (remove_first 47 authorHref) in
  let* likeText := text_of likeElement (js "0") in
  let* retweetText := text_of retweetElement (js "0") in
  let* replyText := text_of replyElement (js "0") in
  let* socialContext := querySelector element [[testid "socialContext"]] in
  let* contextLink := querySelector element [[testid "socialContext"; tag "a"]] in
  let* original := match contextLink with
                   | Some a => textContent a
                   | None => Ok None
                   end in
  Ok {|
    id := js "tweet_" ++ string_of_N (Date_now clock index) ++ js "_"
            ++ string_of_N (N.of_nat index);
    text := text;
    timestamp := timestamp;
    author := author;
    likes := Interfaces.parseEngagement likeText;
    retweets := Interfaces.parseEngagement retweetText;
    replies := Interfaces.parseEngagement replyText;
    isRetweet := bool_decide (is_Some socialContext);
    originalAuthor := match original with
                      | Some s => if truthy s then Some s else None
                      | None => None
                      end
  |}.

Definition forEach_step (clock : Clock) (tweets : list Tweet)
    (index : nat) (element : Element) : result (list Tweet) :=
  try_catch (let* tweet := extractTweet clock index element in
             Ok (tweets ++ [tweet]))
            (fun error => Ok tweets).

Fixpoint forEach (clock : Clock) (tweets : list Tweet) (index : nat)
    (elements : list Element) : result (list Tweet) :=
  match elements with
  | [] => Ok tweets
  | element :: rest =>
    let* tweets' := forEach_step clock tweets index element in
    forEach clock tweets' (S index) rest
  end.

(** The earlier page script of [extractTweets]. *)
Definition extractTweets (doc : Document) (clock : Clock) : result (list Tweet) :=
  forEach clock [] 0 (querySelectorAll doc [[testid "tweet"]]).

(** An element whose reads, and the reads of the elements it hands out,
    return. *)
Definition reads_return (element : Element) : Prop :=
  forall sel, exists found,
    querySelector element sel = Ok found
    /\ forall child, found = Some child ->
         (exists t, textContent child = Ok t)
         /\ (forall attribute, exists a, getAttribute child attribute = Ok a).

End Earlier.

(* ===================================================================== *)
(** * src/services/sheets.ts: the profile sheet                           *)
(* ===================================================================== *)

Module Profiles.
Import Twitter Sheets.

(** The header row of the profile sheet. *)
Definition headers : row :=
  map (fun h => CString (js h))
    [ "ユーザー名"; "表示名"; "フォロワー数"; "フォロー数"; "認証済み";
      "自己紹介"; "ツイート数"; "収集日時" ]%string.

(** [profileRow]; [collectedAt] is [new Date().toISOString()] at the
    moment the row is built. *)
Definition profileRow (collectedAt : jsstring) (profile : UserProfile) : row :=
  [ CString (username profile);
    CString (displayName profile);
    CNumber (followers profile);
    CNumber (following profile);
    CString (if verified profile then js "認証済み" else js "未認証");
    CString (bio profile);
    CNumber (tweets profile);
    CString collectedAt ].

(** What the message of a successful profile export reports. *)
Record ProfileReport : Type := mkProfileReport {
  isFirstData : bool;
  range : a1range
}.

(** [exportProfileToSheets]. [worksheetName] is [None] when the argument
    is left out, which gives the default ["Profiles"]; [now] is the one
    reading of the clock. *)
Definition exportProfileToSheets (now : jsstring)
    (spreadsheetId : jsstring) (profile : UserProfile)
    (worksheetName : option jsstring) (s : Service)
  : result (ProfileReport * Service) :=
  try_catch
    (let worksheetName := default (js "Profiles") worksheetName in
     let* s1 := ensureWorksheetExists spreadsheetId worksheetName s in
     let* '(existingData, s2) :=
       values_get spreadsheetId (Columns worksheetName 65 65) s1 in
     let existingRowCount := length (default [] existingData) in
     let isFirstData := (existingRowCount =? 0)%nat in
     let profileRow := profileRow now profile in
     let '(startRow, values) :=
       if isFirstData then (1%nat, [headers; profileRow])
       else (S existingRowCount, [profileRow]) in
     let range :=
       Cells worksheetName 65 startRow 72 (startRow + length values - 1) in
     let* s3 := values_update spreadsheetId range "USER_ENTERED" values s2 in
     Ok ({| isFirstData := isFirstData; range := range |}, s3))
    (fun error =>
       Throw (js "プロフィールのスプレッドシート出力に失敗しました: " ++ error)).

End Profiles.

(* ===================================================================== *)
(** * Sample inputs                                                      *)
(* ===================================================================== *)

Module Samples.
Import Selectors Dom Twitter Sheets.

(** An element without descendants and attributes. *)
Definition leaf (t : jsstring) : Element :=
  mkElement (Ok (Some t)) (fun _ => Ok None) (fun _ => Ok None).

(** An element with the text [t] whose one descendant matches [sel] and
    has the text [t] too. *)
Definition wrapper (sel : selector) (t : jsstring) : Element :=
  mkElement (Ok (Some t))
            (fun q => if decide (q = sel) then Ok (Some (leaf t)) else Ok None)
            (fun _ => Ok None).

(** An element whose every read throws. *)
Definition broken : Element :=
  mkElement (Throw (js "TypeError")) (fun _ => Throw (js "TypeError"))
            (fun _ => Throw (js "TypeError")).

(** A page on which the selector [sel] matches [els] and no other
    selector matches anything. *)
Definition page_with (sel : selector) (els : list Element) : Document :=
  mkDocument (fun q => if decide (q = sel) then els else []).

Definition noon : Clock :=
  mkClock (fun _ => 1750000000000) (fun _ => js "2025-06-15T12:00:00.000Z").

(** A post of 600 code units in its [tweetText] element. *)
Definition long_text : jsstring := repeat 97 600.
Definition long_post : Element := wrapper [[testid "tweetText"]] long_text.
Definition long_post_page : Document := page_with [[testid "tweet"]] [long_post].

(** An element without [tweetText] or other text descendants whose own
    text has 600 code units. *)
Definition long_bare_post : Element := leaf long_text.

(** A text of exactly twenty code units with a handle in it, on a page
    where no container selector matches. *)
Definition twenty : jsstring := js "@alice says hi there".
Definition twenty_page : Document := page_with [[tag "*"]] [leaf twenty].

(** A text of 32 code units, 2 of them after trimming. *)
Definition padded : jsstring := repeat 32 30 ++ js "@a".

(** Three container elements, the second of them broken. *)
Definition hello : jsstring := js "hello world".
Definition mixed_page : Document :=
  page_with [[testid "tweet"]]
    [wrapper [[testid "tweetText"]] hello; broken;
     wrapper [[testid "tweetText"]] hello].

(** A page without any element. *)
Definition empty_page : Document := mkDocument (fun _ => []).

(** A page with one short and one long enough post. *)
Definition short_page : Document :=
  page_with [[testid "tweet"]]
    [wrapper [[testid "tweetText"]] (js "hey"); wrapper [[testid "tweetText"]] hello].

(** Extraction passes with overlapping ids. *)
Definition post (i t : string) : Tweet :=
  mkTweet (js i) (js t) (js "3h") (js "alice") (of_Z 0) (of_Z 0) (of_Z 0) false None.
Definition passes (i : nat) : list Tweet :=
  match i with
  | O => [post "a" "first a"; post "b" "first b"]
  | 1%nat => [post "b" "second b"; post "c" "first c"; post "a" "second a"]
  | _ => [post "d" "first d"; post "e" "first e"]
  end.

(** A profile page with a name and nothing else. *)
Definition profile_page : Document :=
  page_with [[testid "UserName"; tag "span"]] [leaf (js "Alice")].

(** An account with one spreadsheet that has no worksheet yet. *)
Definition book : jsstring := js "sheet-1".
Definition sheet : jsstring := js "Tweets".
Definition account : Service := mkService {[ book := ∅ ]} [].
Definition at_noon (k : nat) : jsstring := js "2025-06-15T12:00:00.000Z".

Definition record (ts txt : string) : Tweet :=
  mkTweet (js "tweet_1750000000000_0") (js txt) (js ts) (js "alice")
          (of_Z 12300) (of_Z 7) (of_Z 0) false None.

(** Batch A: three records, the last with the timestamp [''] that
    [extractTimestamp] gives for a [time] element without [datetime] and
    without text. Batch B: two records. *)
Definition batch_A : list Tweet :=
  [ record "2025-06-14T09:00:00.000Z" "first post";
    record "3h" "second post";
    record "" "third post" ].
Definition batch_B : list Tweet :=
  [ record "5m" "fourth post"; record "1h" "fifth post" ].

(** Batch A with a timestamp on every record. *)
Definition batch_A_dated : list Tweet :=
  [ record "2025-06-14T09:00:00.000Z" "first post";
    record "3h" "second post";
    record "2h" "third post" ].


End Samples.

Module MoreSamples.
Import Selectors Dom Twitter Sheets Samples.

(** An element with a text, descendants under some selectors and
    attributes. *)
Definition node (t : jsstring) (children : list (selector * Element))
    (attributes : list (string * jsstring)) : Element :=
  mkElement (Ok (Some t))
    (fun q => Ok (snd <$> List.find (fun c => bool_decide (fst c = q)) children))
    (fun a => Ok (snd <$> List.find (fun c => bool_decide (fst c = a)) attributes)).

(** A post with a like count of 12.3K, a repost count that is a lone
    comma and 7 replies. *)
Definition counted_post : Element :=
  node (js "Alice @alice 3h hello world")
       [ ([[testid "tweetText"]], leaf hello);
         ([[testid "like"; tag "span"]], leaf (js "12.3K"));
         ([[testid "retweet"; tag "span"]], leaf (js ","));
         ([[testid "reply"; tag "span"]], leaf (js "7")) ]
       [].
Definition counted_page : Document :=
  page_with [[testid "tweet"]] [counted_post; counted_post].

(** A clock that is five seconds further in every pass. *)
Definition tick (pass : nat) : Clock :=
  mkClock (fun _ => 1750000000000 + 5000 * N.of_nat pass)
          (fun _ => js "2025-06-15T12:00:00.000Z").

(** A post whose [time] element has no [datetime] and no text. *)
Definition undated_post : Element :=
  node hello [ ([[testid "tweetText"]], leaf hello); ([[tag "time"]], leaf []) ] [].

(** A post with a link to a status and, in its text, a handle. *)
Definition linked_post : Element :=
  node (js "Bob @bob_1 hello world")
       [ ([[testid "tweetText"]], leaf hello);
         ([[testid "User-Name"; tag_with "a" [AttrEq "role" "link"]]],
          node (js "Bob") [] [("href"%string, js "/bob_1/status/42")]) ]
       [].

(** Passes of which the second throws. *)
Definition failing (i : nat) : result (list Tweet) :=
  match i with
  | O => Ok (passes 0)
  | _ => Throw (js "detached")
  end.

Definition alice : UserProfile :=
  mkUserProfile (js "alice") (js "Alice") (js "hello") (of_Z 12) (of_Z 3) (of_Z 0) true.
Definition bob : UserProfile :=
  mkUserProfile (js "bob") (js "Bob") (js "") (of_Z 5) (of_Z 8) (of_Z 0) false.

(** The profile that [getUserProfile] returns for a page without the
    elements it looks for. *)
Definition nameless : UserProfile :=
  mkUserProfile (js "") (js "") (js "") (of_Z 0) (of_Z 0) (of_Z 0) false.

(** An account with a second spreadsheet that has a worksheet with a row. *)
Definition ledger : jsstring := js "sheet-2".
Definition two_books : Service :=
  mkService {[ book := {[ js "Notes" := [[CString (js "keep")]] ]};
               ledger := {[ sheet := [[CString (js "other")]] ]} ]} [].




End MoreSamples.

(* ===================================================================== *)
(** * The number model on known values                                   *)
(* ===================================================================== *)

Module NumberFacts.

(** [round64] on values whose doubles are well known: 0.1 is
    [0x1.999999999999ap-4]; [2^53 + 1] is a tie and goes to the even
    neighbour [2^53]; [2^53 + 3] goes up to [2^53 + 4]; the largest double
    is [(2^53 - 1) * 2^971], and half an ulp above it the result is
    [Infinity]; below half of the smallest subnormal the result is 0. *)
Lemma round64_known_values :
  round64 (1 # 10) = Finite (3602879701896397 # 36028797018963968)
  /\ round64 (inject_Z (2 ^ 53 + 1)) = of_Z (2 ^ 53)
  /\ round64 (inject_Z (2 ^ 53 + 3)) = of_Z (2 ^ 53 + 4)
  /\ round64 (inject_Z ((2 ^ 53 - 1) * 2 ^ 971)) = of_Z ((2 ^ 53 - 1) * 2 ^ 971)
  /\ round64 (inject_Z ((2 ^ 54 - 1) * 2 ^ 970)) = Infinity
  /\ round64 (1 # Z.to_pos (2 ^ 1076)) = of_Z 0.
Proof. repeat split; vm_compute; reflexivity. Qed.

(** [12.3 * 1000] is exactly 12300 in doubles, [1.005 * 1000] is not 1005. *)
Lemma mul_known_values :
  mul (parseFloat (js "12.3")) (of_Z 1000) = of_Z 12300
  /\ Math_floor (mul (parseFloat (js "1.005")) (of_Z 1000)) = of_Z 1004.
Proof. split; vm_compute; reflexivity. Qed.

Lemma round64_not_NaN (x : Q) : round64 x <> NaN.
Proof.
  unfold round64. destruct (Qnum x <=? 0)%Z; [discriminate |].
  repeat match goal with
         | |- context [if ?c then _ else _] => destruct c
         end; discriminate.
Qed.

End NumberFacts.

(* ===================================================================== *)
(** * Properties of [parseEngagement]                                    *)
(* ===================================================================== *)

Module SelectorsFacts.
Import Selectors.

(** *** Scanning *)

Lemma span_app_stop (p : char16 -> bool) (a b : jsstring) :
  Forall (fun c => p c = true) a ->
  match b with [] => True | c :: _ => p c = false end ->
  span p (a ++ b) = (a, b).
Proof.
  intros Ha Hb. induction Ha as [| c a Hc _ IH].
  - destruct b as [| c b]; simpl; [reflexivity |]. now rewrite Hb.
  - simpl. now rewrite Hc, IH.
Qed.

Lemma drop_while_In (p : char16 -> bool) (s : jsstring) c r :
  drop_while p s = c :: r -> In c s /\ p c = false.
Proof.
  induction s as [| x s IH]; simpl; [discriminate |].
  destruct (p x) eqn:Hx.
  - intros H. destruct (IH H). auto.
  - intros [= -> _]. auto.
Qed.

Lemma span_fst_head (p : char16 -> bool) (s : jsstring) c r :
  fst (span p s) = c :: r -> exists s', s = c :: s' /\ p c = true.
Proof.
  destruct s as [| x s]; simpl; [discriminate |].
  destruct (p x) eqn:Hx; [| discriminate].
  destruct (span p s). simpl. intros [= -> _]. eauto.
Qed.

(** *** The pattern of [parseEngagement] *)

Lemma count_pattern_at_None (s : jsstring) :
  count_pattern_at s = None <->
  match s with [] => True | c :: _ => is_digit_or_comma c = false end.
Proof.
  unfold count_pattern_at. destruct s as [| c s]; simpl; [tauto |].
  destruct (is_digit_or_comma c) eqn:Hc.
  - destruct (span is_digit_or_comma s) as [a b].
    split; [| discriminate].
    destruct b as [| x b]; [| destruct (x =? 46)];
      destruct (span is_digit _); discriminate.
  - tauto.
Qed.

Lemma count_pattern_None (s : jsstring) :
  count_pattern s = None <-> Forall (fun c => is_digit_or_comma c = false) s.
Proof.
  unfold count_pattern. induction s as [| c s IH]; simpl.
  - split; [constructor | reflexivity].
  - destruct (count_pattern_at (c :: s)) eqn:H.
    + split; [discriminate |]. intros HF. inversion HF as [| ? ? Hc _]; subst.
      assert (count_pattern_at (c :: s) = None) as E
        by (apply count_pattern_at_None; exact Hc).
      congruence.
    + apply count_pattern_at_None in H. rewrite IH.
      split; [now constructor | now inversion 1].
Qed.

Lemma digit_is_count_char c : is_digit c = true -> is_count_char c = true.
Proof. unfold is_count_char. now intros ->. Qed.

Lemma digit_is_digit_or_comma c : is_digit c = true -> is_digit_or_comma c = true.
Proof. unfold is_digit_or_comma. now intros ->. Qed.

(** When the pattern fails on the cleaned text, the text has no digit. *)
Lemma no_match_no_digit (text : jsstring) :
  count_pattern (List.filter is_count_char text) = None ->
  Forall (fun c => is_digit c = false) text.
Proof.
  rewrite count_pattern_None, !List.Forall_forall. intros H c Hc.
  destruct (is_digit c) eqn:Hd; [| reflexivity].
  rewrite <- (H c).
  - now rewrite digit_is_digit_or_comma.
  - apply filter_In. split; [exact Hc | now apply digit_is_count_char].
Qed.

Lemma first_digits_None (text : jsstring) :
  Forall (fun c => is_digit c = false) text -> first_digits text = None.
Proof.
  intros H. unfold first_digits.
  destruct (fst (span is_digit (drop_while (fun c => negb (is_digit c)) text)))
    as [| c r] eqn:E; [reflexivity |].
  apply span_fst_head in E as (s' & Hs & Hc).
  apply drop_while_In in Hs as [Hin _].
  rewrite List.Forall_forall in H. rewrite (H c Hin) in Hc. discriminate.
Qed.

(** The fallback branch of [parseEngagement] never finds a digit. *)
Lemma fallback_gives_zero (text : jsstring) :
  parseEngagement_branch text = Fallback -> parseEngagement text = of_Z 0.
Proof.
  unfold parseEngagement_branch, parseEngagement.
  destruct (negb (truthy text)); [discriminate |].
  destruct (count_pattern _) as [[m1 m2] |] eqn:E; [discriminate |]. intros _.
  now rewrite (first_digits_None text (no_match_no_digit text E)).
Qed.

Lemma no_digit_no_comma_zero (text : jsstring) :
  Forall (fun c => is_digit_or_comma c = false) text ->
  parseEngagement text = of_Z 0.
Proof.
  intros H. unfold parseEngagement.
  destruct (negb (truthy text)); [reflexivity |].
  assert (count_pattern (List.filter is_count_char text) = None) as ->.
  { apply count_pattern_None. rewrite List.Forall_forall in *.
    intros c Hc. apply filter_In in Hc as [Hc _]. now apply H. }
  rewrite first_digits_None; [reflexivity |].
  rewrite List.Forall_forall in *. intros c Hc. specialize (H c Hc).
  unfold is_digit_or_comma in H. now apply orb_false_elim in H as [-> _].
Qed.

(** *** Integrality *)

Lemma isInteger_of_Z z : isInteger (of_Z z) = true.
Proof.
  unfold isInteger, of_Z. rewrite Qfloor_Z. apply Qeq_bool_iff. reflexivity.
Qed.

Lemma isInteger_floor a :
  Math_floor a = NaN \/ Math_floor a = Infinity \/ isInteger (Math_floor a) = true.
Proof.
  destruct a as [| | x]; simpl; auto.
  right; right. apply (isInteger_of_Z (Qfloor x)).
Qed.

Lemma parseEngagement_integer (text : jsstring) :
  parseEngagement text = NaN \/ parseEngagement text = Infinity
  \/ isInteger (parseEngagement text) = true.
Proof.
  destruct (parseEngagement_branch text) eqn:B.
  - unfold parseEngagement_branch, parseEngagement in *.
    destruct (negb (truthy text)); [| destruct (count_pattern _); discriminate].
    right; right. apply isInteger_of_Z.
  - unfold parseEngagement_branch, parseEngagement in *.
    destruct (negb (truthy text)); [discriminate |].
    destruct (count_pattern _) as [[m1 m2] |]; [| discriminate].
    apply isInteger_floor.
  - rewrite (fallback_gives_zero text B). right; right. apply isInteger_of_Z.
Qed.

(** *** Letter case *)

Ltac decide_cmp :=
  repeat match goal with
  | |- context [N.leb ?a ?b] =>
      first [ rewrite (proj2 (N.leb_le a b)) by lia
            | rewrite (proj2 (N.leb_gt a b)) by lia ]
  | |- context [N.eqb ?a ?b] =>
      first [ rewrite (proj2 (N.eqb_eq a b)) by lia
            | rewrite (proj2 (N.eqb_neq a b)) by lia ]
  end.

Lemma is_lower_bounds c : is_lower c = true -> 97 <= c <= 122.
Proof.
  unfold is_lower. intros H. apply andb_prop in H as [H1 H2].
  apply N.leb_le in H1, H2. lia.
Qed.

Lemma up_fixed c : is_lower c = false -> to_upper_char c = c.
Proof. unfold to_upper_char. now intros ->. Qed.

Lemma up_lower c : is_lower c = true -> to_upper_char c = c - 32.
Proof. unfold to_upper_char. now intros ->. Qed.

Lemma up_idem c : to_upper_char (to_upper_char c) = to_upper_char c.
Proof.
  destruct (is_lower c) eqn:L.
  - rewrite (up_lower c L). apply is_lower_bounds in L. apply up_fixed.
    unfold is_lower. decide_cmp. reflexivity.
  - now rewrite !(up_fixed c L).
Qed.

Lemma up_digit c : is_digit (to_upper_char c) = is_digit c.
Proof.
  destruct (is_lower c) eqn:L; [| now rewrite (up_fixed c L)].
  rewrite (up_lower c L). apply is_lower_bounds in L.
  unfold is_digit. decide_cmp. reflexivity.
Qed.

Lemma up_eqb c k : k < 65 -> (to_upper_char c =? k) = (c =? k).
Proof.
  intros Hk. destruct (is_lower c) eqn:L; [| now rewrite (up_fixed c L)].
  rewrite (up_lower c L). apply is_lower_bounds in L. decide_cmp. reflexivity.
Qed.

Lemma up_space c : is_space (to_upper_char c) = is_space c.
Proof.
  destruct (is_lower c) eqn:L; [| now rewrite (up_fixed c L)].
  rewrite (up_lower c L). apply is_lower_bounds in L.
  unfold is_space. decide_cmp. reflexivity.
Qed.

Lemma up_suffix_char c : is_suffix_char (to_upper_char c) = is_suffix_char c.
Proof.
  destruct (is_lower c) eqn:L; [| now rewrite (up_fixed c L)].
  rewrite (up_lower c L). apply is_lower_bounds in L.
  unfold is_suffix_char.
  destruct (N.eqb_spec c 107) as [-> |]; [reflexivity |].
  destruct (N.eqb_spec c 109) as [-> |]; [reflexivity |].
  destruct (N.eqb_spec c 98) as [-> |]; [reflexivity |].
  decide_cmp. reflexivity.
Qed.

Lemma up_digit_or_comma c : is_digit_or_comma (to_upper_char c) = is_digit_or_comma c.
Proof. unfold is_digit_or_comma. now rewrite up_digit, up_eqb. Qed.

Lemma up_count_char c : is_count_char (to_upper_char c) = is_count_char c.
Proof.
  unfold is_count_char. now rewrite up_digit, !up_eqb, up_suffix_char.
Qed.

Lemma digit_not_lower c : is_digit c = true -> is_lower c = false.
Proof.
  unfold is_digit, is_lower. intros H. apply andb_prop in H as [H1 H2].
  apply N.leb_le in H1, H2. decide_cmp. reflexivity.
Qed.

Lemma digit_or_comma_up c : is_digit_or_comma c = true -> to_upper_char c = c.
Proof.
  unfold is_digit_or_comma. intros H. apply up_fixed.
  apply orb_prop in H as [H | H]; [now apply digit_not_lower |].
  apply N.eqb_eq in H. subst. reflexivity.
Qed.

Lemma span_map_up (p : char16 -> bool) (s : jsstring) :
  (forall c, p (to_upper_char c) = p c) ->
  (forall c, p c = true -> to_upper_char c = c) ->
  span p (map to_upper_char s)
  = (fst (span p s), map to_upper_char (snd (span p s))).
Proof.
  intros H1 H2. induction s as [| c s IH]; simpl; [reflexivity |].
  rewrite H1. destruct (p c) eqn:Hc; [| reflexivity].
  rewrite IH. destruct (span p s) as [a b]. simpl. now rewrite (H2 c Hc).
Qed.

Lemma drop_while_map_up (p : char16 -> bool) (s : jsstring) :
  (forall c, p (to_upper_char c) = p c) ->
  drop_while p (map to_upper_char s) = map to_upper_char (drop_while p s).
Proof.
  intros H. induction s as [| c s IH]; simpl; [reflexivity |].
  rewrite H. now destruct (p c).
Qed.

Lemma filter_map_up (p : char16 -> bool) (s : jsstring) :
  (forall c, p (to_upper_char c) = p c) ->
  List.filter p (map to_upper_char s) = map to_upper_char (List.filter p s).
Proof.
  intros H. induction s as [| c s IH]; simpl; [reflexivity |].
  rewrite H. destruct (p c); simpl; now rewrite IH.
Qed.

Lemma count_pattern_at_up (s : jsstring) :
  count_pattern_at (map to_upper_char s) = option_map up_suffix (count_pattern_at s).
Proof.
  unfold count_pattern_at.
  rewrite (span_map_up _ s up_digit_or_comma digit_or_comma_up).
  destruct (span is_digit_or_comma s) as [run r1]. simpl.
  destruct run as [| x run]; [reflexivity |].
  assert (forall r, span is_digit (map to_upper_char r)
                    = (fst (span is_digit r), map to_upper_char (snd (span is_digit r))))
    as Hspan.
  { intros r. apply span_map_up; [apply up_digit |].
    intros c Hc. apply up_fixed. now apply digit_not_lower. }
  assert (forall r4, match map to_upper_char r4 with
                     | c :: _ => if is_suffix_char c then [c] else []
                     | [] => []
                     end
                     = map to_upper_char match r4 with
                                         | c :: _ => if is_suffix_char c then [c] else []
                                         | [] => []
                                         end) as Hsuf.
  { intros [| c r4]; simpl; [reflexivity |].
    rewrite up_suffix_char. now destruct (is_suffix_char c). }
  destruct r1 as [| c r1]; simpl.
  - reflexivity.
  - rewrite up_eqb by lia. destruct (c =? 46) eqn:Hdot.
    + apply N.eqb_eq in Hdot. subst c. rewrite Hspan.
      destruct (span is_digit r1) as [frac r3]. simpl.
      rewrite drop_while_map_up by apply up_space. now rewrite Hsuf.
    + change (to_upper_char c :: map to_upper_char r1)
        with (map to_upper_char (c :: r1)).
      rewrite Hspan. destruct (span is_digit (c :: r1)) as [frac r3]. simpl.
      rewrite drop_while_map_up by apply up_space. now rewrite Hsuf.
Qed.

Lemma search_map_up {A} (at_ : jsstring -> option A) (f : A -> A) (s : jsstring) :
  (forall t, at_ (map to_upper_char t) = option_map f (at_ t)) ->
  search at_ (map to_upper_char s) = option_map f (search at_ s).
Proof.
  intros H. induction s as [| c s IH].
  - pose proof (H []) as H0. simpl in *. destruct (at_ []); simpl in *; congruence.
  - pose proof (H (c :: s)) as H0. simpl in *. rewrite H0.
    destruct (at_ (c :: s)); [reflexivity | exact IH].
Qed.

Lemma first_digits_up (s : jsstring) :
  first_digits (map to_upper_char s) = first_digits s.
Proof.
  unfold first_digits.
  rewrite drop_while_map_up by (intros c; now rewrite up_digit).
  rewrite span_map_up; [reflexivity | apply up_digit |].
  intros c Hc. apply up_fixed. now apply digit_not_lower.
Qed.

(** Upper and lower case letters count the same. *)
Lemma parseEngagement_toUpperCase (text : jsstring) :
  parseEngagement (toUpperCase text) = parseEngagement text.
Proof.
  unfold parseEngagement, toUpperCase.
  assert (truthy (map to_upper_char text) = truthy text) as -> by now destruct text.
  destruct (negb (truthy text)); [reflexivity |].
  rewrite (filter_map_up _ _ up_count_char).
  unfold count_pattern.
  rewrite (search_map_up _ up_suffix _ count_pattern_at_up).
  destruct (search count_pattern_at _) as [[m1 m2] |]; simpl.
  - rewrite map_map.
    now rewrite (map_ext _ _ up_idem m2).
  - now rewrite first_digits_up.
Qed.

(** *** Suffixes *)

Lemma remove_commas_digits (ds : jsstring) :
  Forall (fun c => is_digit c = true) ds -> remove_commas ds = ds.
Proof.
  unfold remove_commas. induction 1 as [| c ds Hc _ IH]; simpl; [reflexivity |].
  assert ((c =? 44) = false) as ->.
  { unfold is_digit in Hc. apply andb_prop in Hc as [H1 H2].
    apply N.leb_le in H1, H2. decide_cmp. reflexivity. }
  simpl. now rewrite IH.
Qed.

Lemma filter_count_digits (ds : jsstring) :
  Forall (fun c => is_digit c = true) ds -> List.filter is_count_char ds = ds.
Proof.
  induction 1 as [| c ds Hc _ IH]; simpl; [reflexivity |].
  now rewrite (digit_is_count_char c Hc), IH.
Qed.

Lemma suffix_char_not_digit c : is_suffix_char c = true -> is_digit c = false.
Proof.
  unfold is_suffix_char, is_digit. intros H.
  repeat (apply orb_prop in H as [H | H]); apply N.eqb_eq in H; subst; reflexivity.
Qed.

Lemma search_head {A} (at_ : jsstring -> option A) (s : jsstring) x :
  at_ s = Some x -> search at_ s = Some x.
Proof. intros H. destruct s; simpl; now rewrite H. Qed.

Lemma suffix_char_cases c :
  is_suffix_char c = true ->
  c = 75 \/ c = 77 \/ c = 66 \/ c = 107 \/ c = 109 \/ c = 98.
Proof.
  unfold is_suffix_char. intros H.
  repeat (apply orb_prop in H as [H | H]); apply N.eqb_eq in H; auto 10.
Qed.

Lemma count_pattern_digits_suffix (ds : jsstring) (c : char16) :
  ds <> [] -> Forall (fun d => is_digit d = true) ds -> is_suffix_char c = true ->
  count_pattern (ds ++ [c]) = Some (ds, [c]).
Proof.
  intros Hne Hds Hc. apply search_head. unfold count_pattern_at.
  rewrite (span_app_stop is_digit_or_comma ds [c]).
  - destruct ds as [| d ds]; [congruence |].
    apply suffix_char_cases in Hc.
    destruct Hc as [-> | [-> | [-> | [-> | [-> | ->]]]]]; simpl;
      now rewrite app_nil_r.
  - eapply List.Forall_impl; [| exact Hds]. intros x. apply digit_is_digit_or_comma.
  - apply suffix_char_cases in Hc.
    destruct Hc as [-> | [-> | [-> | [-> | [-> | ->]]]]]; reflexivity.
Qed.

(** A run of digits and one suffix letter: the number times the factor. *)
Lemma parseEngagement_suffix (ds : jsstring) (c : char16) :
  ds <> [] -> Forall (fun d => is_digit d = true) ds -> is_suffix_char c = true ->
  parseEngagement (ds ++ [c])
  = Math_floor (mul (parseFloat ds) (of_Z (factor_of c))).
Proof.
  intros Hne Hds Hc. unfold parseEngagement.
  assert (truthy (ds ++ [c]) = true) as -> by (destruct ds; [congruence | reflexivity]).
  simpl negb. cbv iota.
  rewrite List.filter_app, (filter_count_digits ds Hds). simpl List.filter.
  assert (is_count_char c = true) as ->
    by (unfold is_count_char; rewrite Hc; now rewrite !orb_true_r).
  rewrite (count_pattern_digits_suffix ds c Hne Hds Hc).
  rewrite (remove_commas_digits ds Hds).
  apply suffix_char_cases in Hc.
  destruct Hc as [-> | [-> | [-> | [-> | [-> | ->]]]]]; reflexivity.
Qed.

End SelectorsFacts.

Module SelectorsSpec.
Import Selectors SelectorsFacts.

(** C3, the claim as written fails at "7 replies": the text is decoded by
    the structured pattern (the cleaning step leaves "7" of it), not by
    the fallback that takes the first run of digits. *)
Lemma seven_replies_not_by_fallback :
  parseEngagement_branch (js "7 replies") <> Fallback.
Proof. vm_compute. discriminate. Qed.

(** C3, as amended: the six pairs hold; "7 replies" is decoded by the
    structured pattern, and whenever the fallback branch is taken the
    result is 0; upper and lower case letters count the same, and a run of
    digits followed by k, m or b in either case is multiplied by a
    thousand, a million or a billion; a result that is a number is an
    integer, the floor of the product; and a text without a digit and
    without a comma gives 0. *)
Theorem parseEngagement_count_parsing :
  (parseEngagement (js "1,234") = of_Z 1234
   /\ parseEngagement (js "12.3K") = of_Z 12300
   /\ parseEngagement (js "2M") = of_Z 2000000
   /\ parseEngagement (js "") = of_Z 0
   /\ parseEngagement (js "abc") = of_Z 0
   /\ parseEngagement (js "7 replies") = of_Z 7)
  /\ parseEngagement_branch (js "7 replies") = Structured
  /\ (forall text, parseEngagement_branch text = Fallback ->
                   parseEngagement text = of_Z 0)
  /\ (forall text, parseEngagement (toUpperCase text) = parseEngagement text)
  /\ (forall ds c, ds <> [] -> Forall (fun d => is_digit d = true) ds ->
                   is_suffix_char c = true ->
                   parseEngagement (ds ++ [c])
                   = Math_floor (mul (parseFloat ds) (of_Z (factor_of c))))
  /\ (forall text, parseEngagement text = NaN \/ parseEngagement text = Infinity
                   \/ isInteger (parseEngagement text) = true)
  /\ (forall text, Forall (fun c => is_digit_or_comma c = false) text ->
                   parseEngagement text = of_Z 0).
Proof.
  split; [repeat split; vm_compute; reflexivity |].
  split; [vm_compute; reflexivity |].
  split; [exact fallback_gives_zero |].
  split; [exact parseEngagement_toUpperCase |].
  split; [exact parseEngagement_suffix |].
  split; [exact parseEngagement_integer | exact no_digit_no_comma_zero].
Qed.

Lemma parseEngagement_count_parsing_witness :
  parseEngagement (js "abc") = of_Z 0
  /\ parseEngagement (js "12" ++ [107]) = of_Z 12000
  /\ parseEngagement (js "@!?") = of_Z 0.
Proof.
  destruct parseEngagement_count_parsing as (_ & _ & Hfb & _ & Hsuf & _ & Hnone).
  split; [apply Hfb; vm_compute; reflexivity |].
  split.
  - rewrite Hsuf; [vm_compute; reflexivity | discriminate | | reflexivity].
    repeat constructor.
  - apply Hnone. repeat constructor.
Defined.

(** C9, at the text ",": the pattern matches the comma alone, the commas
    are removed, [parseFloat('')] is [NaN] and so is its floor. The result
    is [NaN], which is neither 0 nor any other integer. *)
Theorem parseEngagement_comma_is_NaN :
  parseEngagement (js ",") = NaN
  /\ isInteger (parseEngagement (js ",")) = false
  /\ parseEngagement_branch (js ",") = Structured.
Proof. repeat split; vm_compute; reflexivity. Qed.

End SelectorsSpec.

(* ===================================================================== *)
(** * Properties of the extraction engine                                *)
(* ===================================================================== *)

Module TwitterFacts.
Import Selectors Dom Twitter.

Lemma bind_Ok {A B} (m : result A) (k : A -> result B) (b : B) :
  bind m k = Ok b -> exists a, m = Ok a /\ k a = Ok b.
Proof. destruct m as [a | e]; simpl; [eauto | discriminate]. Qed.

Ltac bind_inv H := apply bind_Ok in H as (? & ? & H).

(** *** One element *)

(** A post that is pushed carries the text that [extractTweetText] found,
    and that text has five code units or more. *)
Lemma extractTweet_Some clock index el t :
  extractTweet clock index el = Ok (Some t) ->
  extractTweetText el = Ok (text t) /\ (5 <= length (text t))%nat.
Proof.
  unfold extractTweet. intros H.
  destruct (extractTweetText el) as [txt | e]; simpl in H; [| discriminate].
  bind_inv H. bind_inv H.
  destruct (negb (truthy txt) || (length txt <? 5)%nat) eqn:Hshort; [discriminate |].
  do 6 bind_inv H. injection H as <-. simpl.
  apply orb_false_elim in Hshort as [_ Hlen].
  apply Nat.ltb_ge in Hlen. auto.
Qed.

(** An element whose text is empty or shorter than five code units is
    left out, whatever its other fields are. *)
Lemma extractTweet_short clock index el txt r :
  extractTweetText el = Ok txt -> (length txt < 5)%nat ->
  extractTweet clock index el = Ok r -> r = None.
Proof.
  unfold extractTweet. intros -> Hlen H. simpl in H.
  bind_inv H. bind_inv H.
  apply Nat.ltb_lt in Hlen. rewrite Hlen, orb_true_r in H. congruence.
Qed.

Lemma forEach_step_cases clock tweets index el :
  match extractTweet clock index el with
  | Ok (Some t) => forEach_step clock tweets index el = Ok (tweets ++ [t])
  | Ok None => forEach_step clock tweets index el = Ok tweets
  | Throw _ => forEach_step clock tweets index el = Ok tweets
  end.
Proof.
  unfold forEach_step. destruct (extractTweet clock index el) as [[t |] | e];
    reflexivity.
Qed.

(** *** The loop over the elements *)

Lemma forEach_total clock els : forall tweets index,
  exists r, forEach clock tweets index els = Ok r.
Proof.
  induction els as [| el els IH]; intros tweets index; simpl; [eauto |].
  pose proof (forEach_step_cases clock tweets index el) as Hs.
  destruct (extractTweet clock index el) as [[t |] | e]; rewrite Hs; simpl;
    apply IH.
Qed.


Lemma forEach_Forall (P : Tweet -> Prop) clock els :
  (forall index el t, extractTweet clock index el = Ok (Some t) -> P t) ->
  forall tweets index r,
    Forall P tweets -> forEach clock tweets index els = Ok r -> Forall P r.
Proof.
  intros HP. induction els as [| el els IH]; intros tweets index r Htw; simpl.
  - now intros [= <-].
  - pose proof (forEach_step_cases clock tweets index el) as Hs.
    destruct (extractTweet clock index el) as [[t |] | e] eqn:He;
      rewrite Hs; simpl; apply IH; auto.
    apply Forall_app. split; [exact Htw |]. repeat constructor. eapply HP, He.
Qed.


(** *** Engagement counts *)

Lemma parseInt_digits_not_NaN (s ds : jsstring) :
  first_digits s = Some ds -> parseInt ds <> NaN.
Proof.
  unfold first_digits, parseInt. intros H.
  destruct (fst (span is_digit (drop_while (fun c => negb (is_digit c)) s)))
    as [| c r] eqn:E; [discriminate |]. injection H as <-.
  apply SelectorsFacts.span_fst_head in E as (s' & _ & Hc).
  simpl. rewrite Hc. destruct (span is_digit r). simpl.
  apply NumberFacts.round64_not_NaN.
Qed.

Lemma first_positive_count_gt0 el ids num :
  first_positive_count el ids = Ok (Some num) -> gt0 num = true.
Proof.
  induction ids as [| testId ids IH]; simpl; [discriminate |]. intros H.
  bind_inv H. destruct x as [e |]; [| auto].
  bind_inv H. destruct x as [s |]; [| auto].
  destruct (truthy s && gt0 (parseEngagement s)) eqn:Hpos; [| auto].
  injection H as <-. now apply andb_prop in Hpos as [_ Hpos].
Qed.

(** The counts of a post are never [NaN]: a count that [parseEngagement]
    decodes is taken only when it is above zero. *)
Lemma extractEngagement_not_NaN el type n :
  extractEngagement el type = Ok n -> n <> NaN.
Proof.
  unfold extractEngagement. intros H. bind_inv H.
  destruct x as [num |].
  - injection H as <-. apply first_positive_count_gt0 in H0.
    now destruct num.
  - bind_inv H. destruct (first_digits x) as [ds |] eqn:E.
    + injection H as <-. eapply parseInt_digits_not_NaN, E.
    + now injection H as <-.
Qed.

(** *** The choice of the elements *)

Lemma textSelectors_are : textSelectors = TWEET_TEXT_SELECTORS.
Proof. reflexivity. Qed.

Lemma first_working_selector_None doc sels :
  first_working_selector doc sels = None
  <-> forall sel, In sel sels -> querySelectorAll doc sel = [].
Proof.
  induction sels as [| sel sels IH]; simpl.
  - split; [intros _ ? [] | reflexivity].
  - destruct (querySelectorAll doc sel) as [| el els] eqn:E.
    + rewrite IH. split.
      * intros H q [<- | Hq]; [exact E | now apply H].
      * intros H q Hq. apply H. now right.
    + split; [discriminate |]. intros H.
      specialize (H sel (or_introl eq_refl)). congruence.
Qed.

Lemma scan_candidates_filter els : forall cands,
  scan_candidates els = Ok cands ->
  cands = List.filter (fun el => match looks_like_tweet el with
                                 | Ok true => true
                                 | _ => false
                                 end) els.
Proof.
  induction els as [| el els IH]; simpl; intros cands H.
  - now injection H as <-.
  - destruct (looks_like_tweet el) as [keep | e]; simpl in H; [| discriminate].
    destruct (scan_candidates els) as [tail | e]; simpl in H; [| discriminate].
    injection H as <-. rewrite (IH tail eq_refl). now destruct keep.
Qed.

Lemma looks_like_tweet_true el :
  looks_like_tweet el = Ok true
  <-> exists text,
        text_or_empty el = Ok text
        /\ (20 < length text)%nat /\ (length text < 1000)%nat
        /\ querySelector el [[tag "input"]] = Ok None
        /\ querySelector el [[tag "button"]] = Ok None
        /\ (includes (js "@") text || mentions_time text) = true.
Proof.
  unfold looks_like_tweet. split.
  - intros H. destruct (text_or_empty el) as [text | e]; simpl in H; [| discriminate].
    exists text. split; [reflexivity |].
    destruct ((20 <? length text)%nat && (length text <? 1000)%nat) eqn:Hlen;
      [| discriminate].
    apply andb_prop in Hlen as [H1 H2].
    apply Nat.ltb_lt in H1, H2.
    destruct (querySelector el [[tag "input"]]) as [[i |] | e]; simpl in H;
      try discriminate.
    destruct (querySelector el [[tag "button"]]) as [[b |] | e]; simpl in H;
      try discriminate.
    injection H as H. auto 6.
  - intros (text & -> & H1 & H2 & -> & -> & H). simpl.
    apply Nat.ltb_lt in H1, H2. rewrite H1, H2. simpl. now rewrite H.
Qed.






End TwitterFacts.

Module ExtractionSpec.
Import Selectors Dom Twitter Samples TwitterFacts.

(** C4: every post that [extractTweets] returns has a text of five code
    units or more (so a text that is not empty), and an element whose
    resolved text is shorter leaves the list of posts as it was. *)
Theorem extractTweets_minimum_length :
  (forall doc clock posts,
     extractTweets doc clock = Ok posts ->
     Forall (fun t => text t <> [] /\ (5 <= length (text t))%nat) posts)
  /\ (forall clock tweets index el txt,
        extractTweetText el = Ok txt -> (length txt < 5)%nat ->
        forEach_step clock tweets index el = Ok tweets).
Proof.
  split.
  - intros doc clock posts H. unfold extractTweets in H.
    apply bind_Ok in H as (found & _ & H).
    destruct found as [[els strat] |]; [| injection H as <-; constructor].
    eapply forEach_Forall; [| constructor | exact H].
    intros index el t Ht. apply extractTweet_Some in Ht as [_ Hlen].
    split; [| exact Hlen]. intros E. rewrite E in Hlen. simpl in Hlen. lia.
  - intros clock tweets index el txt Htxt Hlen.
    pose proof (forEach_step_cases clock tweets index el) as Hs.
    destruct (extractTweet clock index el) as [[t |] | e] eqn:He; auto.
    pose proof (extractTweet_short _ _ _ _ _ Htxt Hlen He). discriminate.
Qed.

Lemma extractTweets_minimum_length_witness :
  (exists posts, extractTweets short_page noon = Ok posts
                 /\ length posts = 1%nat
                 /\ Forall (fun t => text t <> [] /\ (5 <= length (text t))%nat) posts)
  /\ forEach_step noon [] 0 (wrapper [[testid "tweetText"]] (js "hey")) = Ok [].
Proof.
  destruct extractTweets_minimum_length as [Hall Hshort]. split.
  - destruct (extractTweets short_page noon) as [posts | e] eqn:E;
      [| vm_compute in E; discriminate].
    exists posts. split; [reflexivity |]. split.
    + vm_compute in E. injection E as <-. reflexivity.
    + exact (Hall short_page noon posts E).
  - apply (Hshort noon [] 0%nat _ (js "hey")); [reflexivity | vm_compute; lia].
Defined.

(** C6, the claim as written fails for a post whose [tweetText] element
    holds 600 code units: the text is stored whole. *)
Lemma long_post_is_stored_whole :
  exists t, extractTweets long_post_page noon = Ok [t]
            /\ text t = long_text
            /\ length (text t) = 600%nat
            /\ ~ (length (text t) <= 283)%nat.
Proof.
  eexists. split; [vm_compute; reflexivity |].
  split; [reflexivity |]. split; [reflexivity |]. vm_compute. lia.
Qed.

(** C6, as amended: the ceiling applies to the fallback only. When no text
    selector yields a text that is not blank, the trimmed text of the
    element itself is stored: cut to its first 280 code units followed
    by "..." (283 code units) when it has more than 500, and whole
    otherwise. A text found by a text selector is stored whole, whatever
    its length. The text of a post is the one [extractTweetText] returns. *)
Theorem extractTweetText_truncation :
  forall el,
    (forall fullText,
       first_selector_text el textSelectors = Ok None ->
       trimmed_text (Some el) = Ok (Some fullText) ->
       (500 < length fullText)%nat ->
       extractTweetText el = Ok (firstn 280 fullText ++ js "...")
       /\ length (firstn 280 fullText ++ js "...") = 283%nat)
    /\ (forall fullText,
          first_selector_text el textSelectors = Ok None ->
          trimmed_text (Some el) = Ok (Some fullText) ->
          (length fullText <= 500)%nat ->
          extractTweetText el = Ok fullText)
    /\ (forall s,
          first_selector_text el textSelectors = Ok (Some s) ->
          extractTweetText el = Ok s)
    /\ (forall clock index t,
          extractTweet clock index el = Ok (Some t) ->
          extractTweetText el = Ok (text t)).
Proof.
  intros el. split; [| split; [| split]].
  - intros fullText H H0 H1. split.
    + unfold extractTweetText. rewrite H, H0. simpl.
      apply Nat.ltb_lt in H1. now rewrite H1.
    + rewrite length_app, firstn_length_le by lia. reflexivity.
  - intros fullText H H0 H1. unfold extractTweetText. rewrite H, H0. simpl.
    apply Nat.ltb_ge in H1. now rewrite H1.
  - intros s0 H. unfold extractTweetText. now rewrite H.
  - intros clock index t H. now apply extractTweet_Some in H as [H _].
Qed.

Lemma extractTweetText_truncation_witness :
  extractTweetText long_bare_post = Ok (firstn 280 long_text ++ js "...")
  /\ length (firstn 280 long_text ++ js "...") = 283%nat.
Proof.
  destruct (extractTweetText_truncation long_bare_post) as (Hcut & _).
  apply (Hcut long_text); [reflexivity | reflexivity | vm_compute; lia].
Defined.

(** C5, the claim as written fails for an element whose text has exactly
    twenty code units: by the words of the claim it is a candidate, the
    scan leaves it out, and the page yields no post. *)
Lemma twenty_is_no_candidate :
  length (trim twenty) = 20%nat
  /\ spec_candidate (leaf twenty) = Ok true
  /\ looks_like_tweet (leaf twenty) = Ok false
  /\ extractTweets twenty_page noon = Ok [].
Proof. repeat split; vm_compute; reflexivity. Qed.

(** C5, as amended. The fallback scan runs exactly when each of the six
    selectors of [possibleSelectors] (the five container selectors and
    the [tweetText] selector) matches nothing; when one of them matches,
    its elements are taken and the scan does not run. The scan keeps the
    elements whose text, not trimmed, has more than 20 and less than 1000
    code units, that have no [input] and no [button] descendant, and whose
    text contains an "@" or matches the relative-time pattern (digits
    followed by h, m or s, or one of 時間前, 分前, 時, 分); the first ten of
    them are processed. *)
Theorem fallback_scan :
  possibleSelectors = TWEET_CONTAINER_SELECTORS ++ [[[testid "tweetText"]]]
  /\ (forall doc,
     first_working_selector doc possibleSelectors = None
     <-> forall sel, In sel possibleSelectors -> querySelectorAll doc sel = [])
  /\ (forall doc els,
        first_working_selector doc possibleSelectors = Some els ->
        tweetElements doc = Ok (Some (els, BySelector)))
  /\ (forall doc,
        first_working_selector doc possibleSelectors = None ->
        tweetElements doc
        = let* tweetCandidates := scan_candidates (querySelectorAll doc [[tag "*"]]) in
          match tweetCandidates with
          | [] => Ok None
          | _ => Ok (Some (firstn 10 tweetCandidates, ByFallback))
          end)
  /\ (forall els cands,
        scan_candidates els = Ok cands ->
        cands = List.filter (fun el => match looks_like_tweet el with
                                       | Ok true => true
                                       | _ => false
                                       end) els)
  /\ (forall el,
        looks_like_tweet el = Ok true
        <-> exists text,
              text_or_empty el = Ok text
              /\ (20 < length text)%nat /\ (length text < 1000)%nat
              /\ querySelector el [[tag "input"]] = Ok None
              /\ querySelector el [[tag "button"]] = Ok None
              /\ (includes (js "@") text || mentions_time text) = true)
  /\ (forall doc els,
        tweetElements doc = Ok (Some (els, ByFallback)) ->
        first_working_selector doc possibleSelectors = None
        /\ (length els <= 10)%nat).
Proof.
  split; [reflexivity |].
  split; [intros doc; apply first_working_selector_None |].
  split; [intros doc els H; unfold tweetElements; now rewrite H |].
  split; [intros doc H; unfold tweetElements; now rewrite H |].
  split; [exact scan_candidates_filter |].
  split; [exact looks_like_tweet_true |].
  intros doc els H. unfold tweetElements in H.
  destruct (first_working_selector doc possibleSelectors) as [l |];
    [discriminate |]. split; [reflexivity |].
  apply bind_Ok in H as (cands & _ & H).
  destruct cands as [| c cands]; [discriminate |].
  injection H as <-. change (c :: firstn 9 cands) with (firstn 10 (c :: cands)).
  apply firstn_le_length.
Qed.

Lemma fallback_scan_witness :
  tweetElements (page_with [[tag "*"]] [leaf padded])
  = Ok (Some ([leaf padded], ByFallback))
  /\ looks_like_tweet (leaf padded) = Ok true
  /\ tweetElements long_post_page = Ok (Some ([long_post], BySelector)).
Proof.
  destruct fallback_scan as (_ & Hiff & Hsel & Hscan & _ & Htrue & _).
  split; [| split].
  - rewrite Hscan; [reflexivity |]. apply Hiff. intros sel Hin.
    simpl in Hin. repeat (destruct Hin as [<- | Hin]; [reflexivity |]).
    destruct Hin.
  - apply Htrue. exists padded. repeat split; vm_compute; reflexivity || lia.
  - apply Hsel. reflexivity.
Defined.




End ExtractionSpec.

(* ===================================================================== *)
(** * Properties of the collection loop                                  *)
(* ===================================================================== *)

Module CollectionFacts.
Import Twitter.

Lemma existsb_same_id (tweets : list Tweet) (tweet : Tweet) :
  existsb (fun t => bool_decide (id t = id tweet)) tweets
  = bool_decide (id tweet ∈ map id tweets).
Proof.
  induction tweets as [| t tweets IH]; [reflexivity |].
  cbn [existsb map]. rewrite IH.
  destruct (decide (id t = id tweet)) as [E | N].
  - rewrite (bool_decide_eq_true_2 _ E). simpl. symmetry.
    apply bool_decide_eq_true. rewrite E. apply list_elem_of_here.
  - rewrite (bool_decide_eq_false_2 _ N). simpl.
    apply bool_decide_ext. rewrite elem_of_cons. intuition congruence.
Qed.

Lemma first_seen_app seen l1 : forall l2,
  first_seen seen (l1 ++ l2)
  = first_seen seen l1 ++ first_seen (seen ++ map id (first_seen seen l1)) l2.
Proof.
  revert seen. induction l1 as [| t l1 IH]; intros seen l2; simpl.
  - now rewrite app_nil_r.
  - destruct (bool_decide (id t ∈ seen)); [apply IH |].
    simpl. rewrite IH. now rewrite <- app_assoc.
Qed.

Lemma first_seen_NoDup l : forall seen,
  NoDup seen -> NoDup (seen ++ map id (first_seen seen l)).
Proof.
  induction l as [| t l IH]; intros seen Hseen; simpl.
  - now rewrite app_nil_r.
  - destruct (decide (id t ∈ seen)) as [E | N].
    + rewrite (bool_decide_eq_true_2 _ E). now apply IH.
    + rewrite (bool_decide_eq_false_2 _ N). simpl.
      replace (seen ++ id t :: map id (first_seen (seen ++ [id t]) l))
        with ((seen ++ [id t]) ++ map id (first_seen (seen ++ [id t]) l))
        by now rewrite <- app_assoc.
      apply IH. apply NoDup_app. split; [exact Hseen |].
      split; [| apply NoDup_singleton].
      intros x Hx Hin. apply list_elem_of_singleton in Hin. congruence.
Qed.

(** The inner loop adds the posts that are new, in their order, while
    there is room. *)
Lemma fold_add_if_new maxTweets l : forall tweets,
  (length tweets <= maxTweets)%nat ->
  fold_left (add_if_new maxTweets) l tweets
  = tweets ++ firstn (maxTweets - length tweets) (first_seen (map id tweets) l).
Proof.
  induction l as [| t l IH]; intros tweets Hlen; simpl.
  - now rewrite firstn_nil, app_nil_r.
  - unfold add_if_new at 2. rewrite existsb_same_id.
    destruct (bool_decide (id t ∈ map id tweets)); simpl; [now apply IH |].
    destruct (length tweets <? maxTweets)%nat eqn:Hroom.
    + apply Nat.ltb_lt in Hroom. rewrite IH by (rewrite length_app; simpl; lia).
      rewrite length_app, map_app. simpl.
      destruct (maxTweets - length tweets)%nat as [| n] eqn:Hn; [lia |].
      simpl. rewrite <- app_assoc. simpl.
      replace (maxTweets - (length tweets + 1))%nat with n by lia. reflexivity.
    + apply Nat.ltb_ge in Hroom. rewrite IH by exact Hlen.
      now replace (maxTweets - length tweets)%nat with 0%nat by lia.
Qed.

Lemma extracted_before_S pages k :
  extracted_before pages (S k) = extracted_before pages k ++ pages k.
Proof.
  unfold extracted_before. rewrite seq_S, map_app, concat_app. simpl.
  now rewrite app_nil_r.
Qed.

Lemma collected_after_length pages maxTweets k :
  (length (collected_after pages maxTweets k) <= maxTweets)%nat.
Proof. apply firstn_le_length. Qed.

(** One turn of the outer loop takes the state from [k] turns to [k + 1]. *)
Lemma collected_after_S pages maxTweets k :
  (length (collected_after pages maxTweets k) < maxTweets)%nat ->
  fold_left (add_if_new maxTweets) (pages k) (collected_after pages maxTweets k)
  = collected_after pages maxTweets (S k).
Proof.
  unfold collected_after. intros Hlen.
  set (A := first_seen [] (extracted_before pages k)) in *.
  assert (length A < maxTweets)%nat as HA.
  { rewrite length_firstn in Hlen. lia. }
  rewrite (@firstn_all2 _ maxTweets A) by lia.
  rewrite fold_add_if_new by lia.
  rewrite extracted_before_S, first_seen_app. fold A. simpl.
  rewrite List.firstn_app. now rewrite (@firstn_all2 _ maxTweets A) by lia.
Qed.

Lemma scroll_loop_spec pages maxTweets remaining : forall i,
  (forall k, (k < i)%nat -> (length (collected_after pages maxTweets k) < maxTweets)%nat) ->
  exists scrollCount,
    scroll_loop (fun i => Ok (pages i)) maxTweets remaining i
                (collected_after pages maxTweets i) i
    = Ok (collected_after pages maxTweets scrollCount, scrollCount)
    /\ (i <= scrollCount <= i + remaining)%nat
    /\ ((scrollCount < i + remaining)%nat ->
        length (collected_after pages maxTweets scrollCount) = maxTweets)
    /\ (forall k, (k < scrollCount)%nat ->
                  (length (collected_after pages maxTweets k) < maxTweets)%nat).
Proof.
  induction remaining as [| remaining IH]; intros i Hbefore; simpl.
  - exists i. split; [reflexivity |]. split; [lia |]. split; [lia | exact Hbefore].
  - destruct (length (collected_after pages maxTweets i) <? maxTweets)%nat eqn:Hroom.
    + apply Nat.ltb_lt in Hroom. rewrite collected_after_S by exact Hroom.
      destruct (IH (S i)) as (sc & Hrun & Hrange & Hfull & Hless).
      { intros k Hk. destruct (decide (k = i)) as [-> | Hne]; [exact Hroom |].
        apply Hbefore. lia. }
      exists sc. split; [exact Hrun |]. split; [lia |].
      split; [intros; apply Hfull; lia | exact Hless].
    + apply Nat.ltb_ge in Hroom. exists i. split; [reflexivity |].
      split; [lia |]. split; [| exact Hbefore].
      intros _. pose proof (collected_after_length pages maxTweets i). lia.
Qed.

Lemma collected_after_NoDup pages maxTweets k :
  NoDup (map id (collected_after pages maxTweets k)).
Proof.
  unfold collected_after. rewrite <- firstn_map.
  eapply sublist_NoDup; [| apply sublist_take].
  apply (first_seen_NoDup (extracted_before pages k) []). apply NoDup_nil_2.
Qed.

End CollectionFacts.

Module CollectionSpec.
Import Twitter Samples CollectionFacts.

(** C8. Whatever the extraction passes return, the loop ends with the
    posts of the passes it ran, each id once, in first-seen order and with
    the earlier instance kept, cut at the target count. It runs at most
    [ceil(maxTweets / 3)] passes, stops before that only with the target
    count reached, and runs no pass once the target count is reached. *)
Theorem collectTweetsNaturally_first_seen :
  forall (pages : nat -> list Tweet) (config : CollectionConfig),
    let target := default 20%nat (maxTweets config) in
    let budget := maxScrolls_of target in
    (target <= 3 * budget < target + 3)%nat
    /\ exists tweets scrollCount,
         collectTweetsNaturally (fun i => Ok (pages i)) config
         = Ok (tweets, scrollCount)
         /\ tweets = firstn target (first_seen [] (extracted_before pages scrollCount))
         /\ NoDup (map id tweets)
         /\ (length tweets <= target)%nat
         /\ (scrollCount <= budget)%nat
         /\ ((scrollCount < budget)%nat -> length tweets = target)
         /\ (forall k, (k < scrollCount)%nat ->
                       (length (collected_after pages target k) < target)%nat).
Proof.
  intros pages config target budget. split.
  - unfold budget, maxScrolls_of.
    pose proof (Nat.div_mod_eq (target + 2) 3) as Hd.
    pose proof (Nat.mod_upper_bound (target + 2) 3). lia.
  - destruct (scroll_loop_spec pages target budget 0%nat)
      as (sc & Hrun & Hrange & Hfull & Hless); [intros k Hk; lia |].
    exists (collected_after pages target sc), sc.
    split.
    + unfold collectTweetsNaturally. fold target. fold budget.
      assert (collected_after pages target 0 = []) as E0 by apply firstn_nil.
      rewrite E0 in Hrun. now rewrite Hrun.
    + split; [reflexivity |].
      split; [apply collected_after_NoDup |].
      split; [apply collected_after_length |].
      split; [lia |]. split; [intros; apply Hfull; lia | exact Hless].
Qed.

Lemma collectTweetsNaturally_first_seen_witness :
  exists tweets,
    collectTweetsNaturally (fun i => Ok (passes i))
                           (mkCollectionConfig (Some 7%nat) None None)
    = Ok (tweets, 3%nat)
    /\ map id tweets = [js "a"; js "b"; js "c"; js "d"; js "e"]
    /\ map text tweets = [js "first a"; js "first b"; js "first c";
                          js "first d"; js "first e"]
    /\ (length (collected_after passes 7 2) < 7)%nat.
Proof.
  destruct (collectTweetsNaturally_first_seen passes
              (mkCollectionConfig (Some 7%nat) None None))
    as (_ & tweets & sc & Hrun & Htweets & _ & _ & _ & _ & Hless).
  assert (sc = 3%nat) as ->.
  { vm_compute in Hrun. now injection Hrun as _ <-. }
  exists tweets. split; [exact Hrun |].
  split; [subst tweets; vm_compute; reflexivity |].
  split; [subst tweets; vm_compute; reflexivity |].
  apply Hless. lia.
Defined.

End CollectionSpec.

(* ===================================================================== *)
(** * Properties of the profile script                                   *)
(* ===================================================================== *)

Module ProfileSpec.
Import Selectors Dom Twitter Samples TwitterFacts.

Lemma getTextContent_returns doc sel :
  (forall q el, doc_querySelector doc q = Some el -> exists t, textContent el = Ok t) ->
  exists s, getTextContent doc sel = Ok s.
Proof.
  intros Hreads. unfold getTextContent, trimmed_text.
  destruct (doc_querySelector doc sel) as [el |] eqn:E; simpl; [| eauto].
  destruct (Hreads sel el E) as [t ->]. simpl.
  destruct t as [s |]; simpl; [| eauto]. destruct (truthy (trim s)); simpl; eauto.
Qed.

Lemma link_count_returns doc sel :
  (forall q el, doc_querySelector doc q = Some el -> exists t, textContent el = Ok t) ->
  exists n, link_count (doc_querySelector doc sel) = Ok n.
Proof.
  intros Hreads. unfold link_count, text_or_empty.
  destruct (doc_querySelector doc sel) as [el |] eqn:E; simpl; [| eauto].
  destruct (Hreads sel el E) as [t ->]. simpl. eauto.
Qed.

(** C10. The profile that the page script of [getUserProfile] builds has
    [tweets] equal to 0 whatever the page holds; and the script returns a
    profile whenever the page lets it read the text of the elements it
    finds. *)
Theorem getUserProfile_tweets_is_zero :
  (forall doc profile,
     getUserProfile_evaluate doc = Ok profile -> tweets profile = of_Z 0)
  /\ (forall doc,
        (forall q el, doc_querySelector doc q = Some el ->
                      exists t, textContent el = Ok t) ->
        exists profile,
          getUserProfile_evaluate doc = Ok profile /\ tweets profile = of_Z 0).
Proof.
  assert (forall doc profile,
            getUserProfile_evaluate doc = Ok profile -> tweets profile = of_Z 0)
    as Hzero.
  { intros doc profile H. unfold getUserProfile_evaluate in H.
    do 5 bind_inv H. now injection H as <-. }
  split; [exact Hzero |].
  intros doc Hreads.
  destruct (getUserProfile_evaluate doc) as [profile | e] eqn:E; [eauto |].
  exfalso. unfold getUserProfile_evaluate in E.
  destruct (getTextContent_returns doc [[testid "UserName"; tag "span"]] Hreads)
    as [s1 E1].
  destruct (getTextContent_returns doc
              [[testid "UserName"; Compound None [AttrEq "dir" "ltr"]]] Hreads)
    as [s2 E2].
  destruct (getTextContent_returns doc [[testid "UserDescription"]] Hreads)
    as [s3 E3].
  destruct (link_count_returns doc
              [[tag_with "a" [AttrSuffix "href" "/following"]; tag "span"]] Hreads)
    as [n1 E4].
  destruct (link_count_returns doc
              [ [tag_with "a" [AttrSuffix "href" "/verified_followers"]; tag "span"];
                [tag_with "a" [AttrSuffix "href" "/followers"]; tag "span"] ] Hreads)
    as [n2 E5].
  rewrite E1 in E. simpl in E. rewrite E2 in E. simpl in E.
  rewrite E3 in E. simpl in E. rewrite E4 in E. simpl in E.
  rewrite E5 in E. simpl in E. discriminate.
Qed.

Lemma getUserProfile_tweets_is_zero_witness :
  exists profile,
    getUserProfile_evaluate profile_page = Ok profile
    /\ displayName profile = js "Alice"
    /\ tweets profile = of_Z 0.
Proof.
  destruct getUserProfile_tweets_is_zero as [Hzero _].
  destruct (getUserProfile_evaluate profile_page) as [profile | e] eqn:E;
    [| vm_compute in E; discriminate].
  exists profile. split; [reflexivity |].
  split; [| exact (Hzero profile_page profile E)].
  vm_compute in E. now injection E as <-.
Defined.

End ProfileSpec.

(* ===================================================================== *)
(** * Properties of the sheet writer                                     *)
(* ===================================================================== *)

Module SheetsFacts.
Import Twitter Sheets.

(** *** The service *)

Lemma title_listed (ss : spreadsheet) (title : jsstring) :
  existsb (fun t => bool_decide (t = title)) (map fst (map_to_list ss))
  = bool_decide (is_Some (ss !! title)).
Proof.
  destruct (ss !! title) as [ws |] eqn:E.
  - rewrite (bool_decide_eq_true_2 (is_Some (Some ws))) by eauto.
    apply existsb_exists. exists title. split; [| now apply bool_decide_eq_true].
    apply in_map_iff. exists (title, ws). split; [reflexivity |].
    apply list_elem_of_In, elem_of_map_to_list, E.
  - rewrite (bool_decide_eq_false_2 (is_Some None)) by (now intros [? ?]).
    apply not_true_is_false. intros H.
    apply existsb_exists in H as (t & Hin & Ht).
    apply bool_decide_eq_true in Ht. subst t.
    apply in_map_iff in Hin as ([t ws] & Ht & Hin). simpl in Ht. subst t.
    apply list_elem_of_In, elem_of_map_to_list in Hin.
    rewrite E in Hin. discriminate.
Qed.

(** [ensureWorksheetExists] leaves a worksheet with the given title:
    the one that was there, or a new, empty one. *)
Lemma ensureWorksheetExists_spec spreadsheetId title s ss :
  files s !! spreadsheetId = Some ss ->
  exists s1,
    ensureWorksheetExists spreadsheetId title s = Ok s1
    /\ files s1
       = <[spreadsheetId := <[title := default [] (ss !! title)]> ss]> (files s)
    /\ requests s1
       = requests s ++ [SpreadsheetsGet spreadsheetId]
           ++ match ss !! title with
              | None => [AddSheet spreadsheetId title 1000 10]
              | Some _ => []
              end.
Proof.
  intros Hss. unfold ensureWorksheetExists, spreadsheets_get. rewrite Hss. simpl.
  rewrite title_listed. destruct (ss !! title) as [ws |] eqn:E.
  - rewrite (bool_decide_eq_true_2 (is_Some (Some ws))) by eauto. simpl.
    eexists. split; [reflexivity |]. simpl.
    rewrite (insert_id ss title ws E), (insert_id (files s) _ _ Hss).
    split; reflexivity.
  - rewrite (bool_decide_eq_false_2 (is_Some None)) by (now intros [? ?]). simpl.
    unfold add_sheet. simpl. rewrite Hss, E. simpl.
    eexists. split; [reflexivity |]. simpl. split; [reflexivity |].
    now rewrite <- app_assoc.
Qed.

Lemma values_get_column spreadsheetId sheet c1 c2 s ss ws :
  files s !! spreadsheetId = Some ss -> ss !! sheet = Some ws ->
  values_get spreadsheetId (Columns sheet c1 c2) s
  = Ok (match range_values c1 c2 ws with
        | [] => None
        | rows => Some rows
        end, log (ValuesGet spreadsheetId (Columns sheet c1 c2)) s).
Proof. intros Hss Hws. unfold values_get. now rewrite Hss, Hws. Qed.

Lemma values_update_cells spreadsheetId sheet c1 r1 c2 r2 option values s ss ws :
  files s !! spreadsheetId = Some ss -> ss !! sheet = Some ws ->
  (1 <= r1)%nat -> (length values <= S r2 - r1)%nat ->
  Forall (fun v => (length v <= S (column_index c2) - column_index c1)%nat) values ->
  values_update spreadsheetId (Cells sheet c1 r1 c2 r2) option values s
  = Ok {| files := <[spreadsheetId :=
                       <[sheet := write_range (column_index c1) r1 values ws]> ss]>
                     (files s);
          requests := requests s
            ++ [ValuesUpdate spreadsheetId (Cells sheet c1 r1 c2 r2) option values] |}.
Proof.
  intros Hss Hws H1 H2 H3. unfold values_update. rewrite Hss, Hws.
  apply Nat.leb_le in H1, H2.
  match goal with
  | |- (if ?c then _ else _) = _ => assert (c = true) as ->; [| reflexivity]
  end.
  rewrite !andb_true_iff. split; [split; [exact H1 | exact H2] |].
  apply forallb_forall. rewrite List.Forall_forall in H3.
  intros v Hv. apply Nat.leb_le. now apply H3.
Qed.

Lemma Forall_imap {A B} (P : B -> Prop) (l : list A) : forall (f : nat -> A -> B),
  (forall i x, P (f i x)) -> Forall P (imap f l).
Proof.
  induction l as [| x l IH]; intros f Hf; simpl; constructor; [apply Hf |].
  apply IH. intros i y. apply Hf.
Qed.

Lemma length_values_get (rows : list row) :
  length (default [] match rows with
                     | [] => None
                     | r :: l => Some (r :: l)
                     end) = length rows.
Proof. now destruct rows. Qed.

Lemma rows_fit (r len : nat) : (1 <= r)%nat -> (len <= S (r + len - 1) - r)%nat.
Proof. lia. Qed.

Lemma length_headers : length headers = 10%nat.
Proof. reflexivity. Qed.

Lemma length_dataRow collectedAt tweet : length (dataRow collectedAt tweet) = 10%nat.
Proof. reflexivity. Qed.


(** *** What column A gives back after a write *)

Lemma cut_rows_length (l : list row) : (length (cut_rows l) <= length l)%nat.
Proof.
  induction l as [| r l IH]; simpl; [lia |].
  destruct (cut_rows l) as [| x rest]; [destruct r |]; simpl in *; lia.
Qed.

(** The rows after those that [cut_rows] keeps are empty. *)
Lemma cut_rows_rest_empty (l : list row) :
  Forall (fun r => r = []) (skipn (length (cut_rows l)) l).
Proof.
  induction l as [| r l IH]; simpl; [constructor |].
  destruct (cut_rows l) as [| x rest] eqn:E.
  - destruct r; simpl; [constructor; [reflexivity | exact IH] | exact IH].
  - exact IH.
Qed.

Lemma cut_rows_all_empty (l : list row) :
  Forall (fun r => r = []) l -> cut_rows l = [].
Proof. induction 1 as [| r l -> _ IH]; simpl; [| rewrite IH]; reflexivity. Qed.

Lemma cut_rows_last (l1 l2 : list row) (r : row) :
  r <> [] -> Forall (fun x => x = []) l2 ->
  cut_rows (l1 ++ r :: l2) = l1 ++ [r].
Proof.
  intros Hr Hl2. induction l1 as [| x l1 IH]; simpl.
  - rewrite (cut_rows_all_empty l2 Hl2). now destruct r.
  - rewrite IH. now destruct l1.
Qed.

(** Column A of a row, as [values.get] reports it. *)
Lemma column_A_of_cons (c : cell) (r : row) :
  cut_row (row_slice 65 65 (c :: r)) = if is_empty_cell c then [] else [c].
Proof. reflexivity. Qed.

Lemma column_A_written (v old : row) :
  v <> [] ->
  cut_row (row_slice 65 65 (write_cells 0 v old)) = cut_row (row_slice 65 65 v).
Proof. destruct v as [| c v]; [congruence | reflexivity]. Qed.

Lemma skipn_tl {A} (n : nat) (l : list A) : skipn n (tl l) = skipn (S n) l.
Proof. destruct l; [now rewrite skipn_nil | reflexivity]. Qed.

Lemma column_A_write_rows (values : list row) : forall rest : worksheet,
  Forall (fun v => v <> []) values ->
  map (fun r => cut_row (row_slice 65 65 r)) (write_rows 0 values rest)
  = map (fun r => cut_row (row_slice 65 65 r)) values
      ++ map (fun r => cut_row (row_slice 65 65 r)) (skipn (length values) rest).
Proof.
  induction values as [| v values IH]; intros rest Hv; [reflexivity |].
  inversion Hv as [| ? ? Hne Hrest]; subst.
  cbn [write_rows map length app]. rewrite (column_A_written v _ Hne).
  rewrite (IH (tl rest) Hrest). now rewrite skipn_tl.
Qed.

Lemma write_range_from_count (ws : worksheet) (values : list row) (n : nat) :
  (n <= length ws)%nat ->
  write_range 0 (S n) values ws = firstn n ws ++ write_rows 0 values (skipn n ws).
Proof.
  intros Hn. unfold write_range. rewrite Nat.sub_succ, Nat.sub_0_r.
  now replace (n - length ws)%nat with 0%nat by lia.
Qed.

(** After rows are written below the rows that column A gave back, and
    the last of them has a cell in column A that is not empty, column A
    gives back all the rows up to that one. *)
Lemma range_values_after_write (ws : worksheet) (values : list row) (last_row : row) :
  Forall (fun v => v <> []) values -> last_row <> [] ->
  cut_row (row_slice 65 65 last_row) <> [] ->
  let n := length (range_values 65 65 ws) in
  length (range_values 65 65 (write_range 0 (S n) (values ++ [last_row]) ws))
  = (n + length (values ++ [last_row]))%nat.
Proof.
  intros Hvalues Hne Hlast n.
  assert (n <= length ws)%nat as Hn.
  { unfold n, range_values.
    etransitivity; [apply cut_rows_length |]. now rewrite length_map. }
  rewrite (write_range_from_count ws _ n Hn). unfold range_values at 1.
  rewrite map_app, column_A_write_rows
    by (apply Forall_app; split; [exact Hvalues | now repeat constructor]).
  rewrite (map_app _ values [last_row]). cbn [map].
  rewrite <- !List.app_assoc. cbn [app].
  rewrite List.app_assoc. rewrite cut_rows_last; [| exact Hlast |].
  - rewrite !length_app, !length_map, length_firstn. simpl. lia.
  - rewrite <- !skipn_map. apply Forall_drop.
    exact (cut_rows_rest_empty (map (fun r => cut_row (row_slice 65 65 r)) ws)).
Qed.

(** Rows above the start row are not touched by a write. *)
Lemma write_range_above (ws : worksheet) (values : list row) (n r : nat) :
  (1 <= r <= n)%nat -> (n <= length ws)%nat ->
  write_range 0 (S n) values ws !! (r - 1)%nat = ws !! (r - 1)%nat.
Proof.
  intros Hr Hn. rewrite (write_range_from_count ws values n Hn).
  rewrite lookup_app_l by (rewrite length_firstn; lia).
  apply lookup_take_lt. lia.
Qed.

(** *** One export *)

Lemma exportTweetsToSheets_spec :
  forall now spreadsheetId tweets worksheetName s ss,
    tweets <> [] ->
    files s !! spreadsheetId = Some ss ->
    let targetWorksheet :=
      or_else (default [] worksheetName) (before_first 84 (now 0%nat)) in
    let ws := default [] (ss !! targetWorksheet) in
    let n := length (range_values 65 65 ws) in
    let dataRows := imap (fun i tweet => dataRow (now (S i)) tweet) tweets in
    let values := if (n =? 0)%nat then headers :: dataRows else dataRows in
    let startRow := if (n =? 0)%nat then 1%nat else S n in
    let range :=
      Cells targetWorksheet 65 startRow 74 (startRow + length values - 1) in
    exists report s',
      exportTweetsToSheets now spreadsheetId tweets worksheetName s
      = Ok (report, s')
      /\ requests s'
         = requests s ++ [SpreadsheetsGet spreadsheetId]
             ++ match ss !! targetWorksheet with
                | None => [AddSheet spreadsheetId targetWorksheet 1000 10]
                | Some _ => []
                end
             ++ [ValuesGet spreadsheetId (Columns targetWorksheet 65 65);
                 ValuesUpdate spreadsheetId range "USER_ENTERED" values]
      /\ Sheets.range report = range
      /\ length values
         = (if (n =? 0)%nat then S (length tweets) else length tweets)
      /\ files s'
         = <[spreadsheetId :=
               <[targetWorksheet := write_range 0 startRow values ws]> ss]>
             (files s).
Proof.
  intros now spreadsheetId tweets worksheetName s ss Hne Hss
    targetWorksheet ws n dataRows values startRow range.
  unfold exportTweetsToSheets.
  rewrite (bool_decide_eq_false_2 _ Hne). fold targetWorksheet.
  destruct (ensureWorksheetExists_spec spreadsheetId targetWorksheet s ss Hss)
    as (s1 & -> & Hfiles1 & Hreq1).
  fold ws in Hfiles1. cbn [bind].
  assert (files s1 !! spreadsheetId = Some (<[targetWorksheet := ws]> ss)) as Hss1
    by (rewrite Hfiles1; apply lookup_insert_eq).
  rewrite (values_get_column _ _ _ _ _ _ ws Hss1) by apply lookup_insert_eq.
  cbn [bind]. rewrite length_values_get. fold n. fold dataRows.
  assert ((if (n =? 0)%nat then (1%nat, headers :: dataRows) else (S n, dataRows))
          = (startRow, values)) as ->
    by (unfold startRow, values; now destruct (n =? 0)%nat).
  assert (length values = (if (n =? 0)%nat then S (length tweets) else length tweets))
    as Hlen.
  { unfold values, dataRows. destruct (n =? 0)%nat; simpl; now rewrite length_imap. }
  assert (1 <= startRow)%nat as Hstart
    by (unfold startRow; destruct (n =? 0)%nat; lia).
  fold range.
  unfold range at 1.
  rewrite (values_update_cells _ _ _ _ _ _ _ _ (log _ s1) _ ws Hss1);
    [| apply lookup_insert_eq | exact Hstart | apply rows_fit, Hstart |].
  - cbn [bind try_catch]. eexists _, _. split; [reflexivity |].
    cbn [requests files Sheets.range log].
    split; [| split; [reflexivity | split; [exact Hlen |]]].
    + rewrite Hreq1. rewrite <- !List.app_assoc. reflexivity.
    + rewrite Hfiles1, insert_insert_eq. f_equal.
      apply (insert_insert_eq ss).
  - change (S (column_index 74%N) - column_index 65%N)%nat with 10%nat.
    unfold values, dataRows. destruct (n =? 0)%nat.
    + constructor; [rewrite length_headers; lia |].
      apply Forall_imap. intros i x. rewrite length_dataRow. lia.
    + apply Forall_imap. intros i x. rewrite length_dataRow. lia.
Qed.


(** *** Two exports in a row *)

Lemma named_worksheet (w today : jsstring) :
  w <> [] -> or_else (default [] (Some w)) today = w.
Proof. destruct w; [congruence | reflexivity]. Qed.

Lemma column_A_of_dataRow collectedAt tweet :
  timestamp tweet <> [] ->
  cut_row (row_slice 65 65 (dataRow collectedAt tweet)) <> [].
Proof.
  intros Hts. unfold dataRow. rewrite column_A_of_cons. simpl.
  destruct (timestamp tweet); [congruence | discriminate].
Qed.

(** When the last record of the first batch has a timestamp, a second
    export to the same worksheet starts on the row after the last row of
    the first and leaves the rows up to there as they were. *)
Lemma sequential_exports_append nowA nowB spreadsheetId A a B w s ss :
  B <> [] -> w <> [] -> files s !! spreadsheetId = Some ss ->
  timestamp a <> [] ->
  exists rA sA rB sB firstA lastA,
    exportTweetsToSheets nowA spreadsheetId (A ++ [a]) (Some w) s = Ok (rA, sA)
    /\ exportTweetsToSheets nowB spreadsheetId B (Some w) sA = Ok (rB, sB)
    /\ Sheets.range rA = Cells w 65 firstA 74 lastA
    /\ Sheets.range rB = Cells w 65 (S lastA) 74 (lastA + length B)
    /\ (firstA <= lastA)%nat
    /\ (forall r, (1 <= r <= lastA)%nat ->
                  sheet_row sB spreadsheetId w r = sheet_row sA spreadsheetId w r).
Proof.
  intros HB Hw Hss Hts.
  destruct (exportTweetsToSheets_spec nowA spreadsheetId (A ++ [a]) (Some w) s ss)
    as (rA & sA & HrunA & _ & HrangeA & HlenA & HfilesA);
    [destruct A; discriminate | exact Hss |].
  rewrite (named_worksheet w _ Hw) in *.
  set (ws := default [] (ss !! w)) in *.
  set (n := length (range_values 65 65 ws)) in *.
  set (dataRowsA := imap (fun i tweet => dataRow (nowA (S i)) tweet) (A ++ [a])) in *.
  set (valuesA := if (n =? 0)%nat then headers :: dataRowsA else dataRowsA) in *.
  assert ((if (n =? 0)%nat then 1%nat else S n) = S n) as Hstart
    by (destruct (Nat.eqb_spec n 0); congruence).
  rewrite Hstart in *. clear Hstart.
  set (wsA := write_range 0 (S n) valuesA ws) in *.
  (* the rows of the first write end with the row of [a] *)
  assert (exists V, valuesA = V ++ [dataRow (nowA (S (length A))) a]
                    /\ Forall (fun v : row => v <> []) V) as (V & HV & HVne).
  { unfold valuesA, dataRowsA. rewrite imap_app. cbn [imap].
    rewrite Nat.add_0_r.
    destruct (n =? 0)%nat.
    - eexists (headers :: _). split; [reflexivity |].
      constructor; [discriminate |]. apply Forall_imap. discriminate.
    - eexists. split; [reflexivity |]. apply Forall_imap. discriminate. }
  assert (length (range_values 65 65 wsA) = (n + length valuesA)%nat) as Hcount.
  { unfold wsA. rewrite HV.
    apply (range_values_after_write ws V _ HVne); [discriminate |].
    now apply column_A_of_dataRow. }
  assert (1 <= length valuesA)%nat as Hpos
    by (rewrite HV, length_app; simpl; lia).
  (* the second export *)
  assert (files sA !! spreadsheetId = Some (<[w := wsA]> ss)) as HssA
    by (rewrite HfilesA; apply lookup_insert_eq).
  destruct (exportTweetsToSheets_spec nowB spreadsheetId B (Some w) sA _ HB HssA)
    as (rB & sB & HrunB & _ & HrangeB & HlenB & HfilesB).
  rewrite (named_worksheet w _ Hw) in *.
  rewrite lookup_insert_eq in HrangeB, HlenB, HfilesB.
  change (default [] (Some wsA)) with wsA in HrangeB, HlenB, HfilesB.
  rewrite Hcount in HrangeB, HlenB, HfilesB.
  assert ((n + length valuesA =? 0)%nat = false) as Hno by (apply Nat.eqb_neq; lia).
  rewrite Hno in HrangeB, HlenB, HfilesB.
  exists rA, sA, rB, sB, (S n), (n + length valuesA)%nat.
  split; [exact HrunA |]. split; [exact HrunB |].
  split; [rewrite HrangeA; f_equal; lia |].
  split; [rewrite HrangeB, length_imap; f_equal; lia |].
  split; [lia |].
  intros r Hr. unfold sheet_row.
  rewrite HfilesB, lookup_insert_eq, lookup_insert_eq, HssA, lookup_insert_eq.
  apply write_range_above; [exact Hr |].
  rewrite <- Hcount. unfold range_values.
  etransitivity; [apply cut_rows_length |]. now rewrite length_map.
Qed.

End SheetsFacts.

Module SheetsSpec.
Import Twitter Sheets Samples SheetsFacts.

(** C1. For a batch that is not empty and a spreadsheet that the service
    knows, with [n] the number of rows that column A of the target
    worksheet gives back (0 for a worksheet that had to be created): the
    call succeeds and sends, after the reads, one [values.update] request;
    its values are the header row followed by the record rows when [n] is
    0 and the record rows alone otherwise; its range goes from column A to
    column J and from row 1, or row [n + 1], to the start row plus the
    number of rows written minus one; and these rows are what the
    worksheet then holds from the start row on. *)
Theorem exportTweetsToSheets_write :
  forall now spreadsheetId tweets worksheetName s ss,
    tweets <> [] ->
    files s !! spreadsheetId = Some ss ->
    let targetWorksheet :=
      or_else (default [] worksheetName) (before_first 84 (now 0%nat)) in
    let ws := default [] (ss !! targetWorksheet) in
    let n := length (range_values 65 65 ws) in
    let dataRows := imap (fun i tweet => dataRow (now (S i)) tweet) tweets in
    let values := if (n =? 0)%nat then headers :: dataRows else dataRows in
    let startRow := if (n =? 0)%nat then 1%nat else S n in
    let range :=
      Cells targetWorksheet 65 startRow 74 (startRow + length values - 1) in
    exists report s',
      exportTweetsToSheets now spreadsheetId tweets worksheetName s
      = Ok (report, s')
      /\ requests s'
         = requests s ++ [SpreadsheetsGet spreadsheetId]
             ++ match ss !! targetWorksheet with
                | None => [AddSheet spreadsheetId targetWorksheet 1000 10]
                | Some _ => []
                end
             ++ [ValuesGet spreadsheetId (Columns targetWorksheet 65 65);
                 ValuesUpdate spreadsheetId range "USER_ENTERED" values]
      /\ Sheets.range report = range
      /\ length values
         = (if (n =? 0)%nat then S (length tweets) else length tweets)
      /\ files s'
         = <[spreadsheetId :=
               <[targetWorksheet := write_range 0 startRow values ws]> ss]>
             (files s).
Proof. exact exportTweetsToSheets_spec. Qed.

Lemma exportTweetsToSheets_write_witness :
  exists report s',
    exportTweetsToSheets at_noon book batch_A_dated (Some sheet) account
    = Ok (report, s')
    /\ Sheets.range report = Cells sheet 65 1 74 4
    /\ range_text (Sheets.range report) = js "Tweets!A1:J4"
    /\ last (requests s')
       = Some (ValuesUpdate book (Cells sheet 65 1 74 4) "USER_ENTERED"
                 (headers :: imap (fun i t => dataRow (at_noon (S i)) t) batch_A_dated)).
Proof.
  destruct (exportTweetsToSheets_write at_noon book batch_A_dated (Some sheet)
              account ∅)
    as (report & s' & Hrun & Hreq & Hrange & _); [discriminate | reflexivity |].
  exists report, s'. split; [exact Hrun |]. split; [exact Hrange |].
  split; [rewrite Hrange; reflexivity |].
  rewrite Hreq. reflexivity.
Defined.

(** C2, at the batches A and B of the samples: the third record of A has
    an empty timestamp, so cell A4 is empty after the first export and
    column A gives back three rows. The second export takes row 4 as its
    start row: its range is A4:J5, not A5:J6, it overlaps the range A1:J4
    of the first export, and the row of the third record of A is
    replaced by the first record of B. *)
Theorem second_export_overwrites_row :
  exists rA sA rB sB,
    exportTweetsToSheets at_noon book batch_A (Some sheet) account = Ok (rA, sA)
    /\ exportTweetsToSheets at_noon book batch_B (Some sheet) sA = Ok (rB, sB)
    /\ Sheets.range rA = Cells sheet 65 1 74 4
    /\ Sheets.range rB = Cells sheet 65 4 74 5
    /\ sheet_row sA book sheet 4
       = Some (dataRow (at_noon 3) (record "" "third post"))
    /\ sheet_row sB book sheet 4
       = Some (dataRow (at_noon 1) (record "5m" "fourth post"))
    /\ sheet_row sB book sheet 4 <> sheet_row sA book sheet 4.
Proof.
  destruct (exportTweetsToSheets at_noon book batch_A (Some sheet) account)
    as [[rA sA] | e] eqn:EA; [| vm_compute in EA; discriminate].
  destruct (exportTweetsToSheets at_noon book batch_B (Some sheet) sA)
    as [[rB sB] | e] eqn:EB.
  - exists rA, sA, rB, sB. split; [reflexivity |]. split; [exact EB |].
    vm_compute in EA. injection EA as <- <-.
    vm_compute in EB. injection EB as <- <-.
    repeat split; try (vm_compute; reflexivity).
    vm_compute. discriminate.
  - vm_compute in EA. injection EA as <- <-. vm_compute in EB. discriminate.
Qed.

End SheetsSpec.

(* ===================================================================== *)
(** * Further facts about the model                                   *)
(* ===================================================================== *)

Module CountFacts.
Import Selectors Dom Twitter Session SelectorsFacts TwitterFacts.

(** *** Doubles that are whole numbers *)

Lemma round_half_even_nonneg (n d : Z) :
  (0 <= n)%Z -> (0 < d)%Z -> (0 <= round_half_even n d)%Z.
Proof.
  intros Hn Hd. unfold round_half_even.
  pose proof (Z.div_pos n d Hn Hd).
  destruct (2 * (n mod d) ?= d)%Z; [destruct (Z.even (n / d)) | |]; lia.
Qed.

Lemma round_half_even_1 (n : Z) : round_half_even n 1 = n.
Proof.
  unfold round_half_even. rewrite Z.mod_1_r, Z.div_1_r. reflexivity.
Qed.

Lemma round64_nonneg (x : Q) : nonneg (round64 x).
Proof.
  unfold round64. destruct (Qnum x <=? 0)%Z eqn:E; [simpl; apply Qle_refl |].
  apply Z.leb_gt in E.
  cbv zeta.
  match goal with
  | |- context [Z.max ?e (-1022)] => set (ulp := (Z.max e (-1022) - 52)%Z)
  end.
  destruct (0 <=? ulp)%Z eqn:U.
  - apply Z.leb_le in U.
    destruct (2 ^ 1024 <=? _)%Z; [exact I |].
    unfold nonneg, Qle. cbn [Qnum Qden inject_Z]. rewrite !Z.mul_1_r.
    apply Z.mul_nonneg_nonneg; [| apply Z.pow_nonneg; lia].
    apply round_half_even_nonneg; [lia |].
    apply Z.mul_pos_pos; [lia | apply Z.pow_pos_nonneg; lia].
  - apply Z.leb_gt in U. unfold nonneg.
    rewrite Qred_correct. unfold Qle. cbn [Qnum Qden]. rewrite Z.mul_1_r, Z.mul_0_l.
    apply round_half_even_nonneg; [| lia].
    apply Z.mul_nonneg_nonneg; [lia | apply Z.pow_nonneg; lia].
Qed.

Lemma Qred_inject_Z (z : Z) : Qred (inject_Z z) = inject_Z z.
Proof.
  unfold Qred, inject_Z.
  pose proof (Z.ggcd_gcd z 1) as Hg.
  pose proof (Z.ggcd_correct_divisors z 1) as Hd.
  destruct (Z.ggcd z 1) as (g, (aa, bb)). cbn [fst snd] in *.
  rewrite Z.gcd_1_r in Hg. subst g. destruct Hd as [Ha Hb].
  rewrite Z.mul_1_l in Ha, Hb. subst aa bb. reflexivity.
Qed.

Lemma round64_integer (z : Z) :
  (0 <= z)%Z -> whole_count (round64 (inject_Z z)).
Proof.
  intros Hz. unfold round64. cbn [Qnum Qden inject_Z].
  destruct (z <=? 0)%Z eqn:E; [right; exists 0%Z; split; [lia | reflexivity] |].
  apply Z.leb_gt in E.
  cbv zeta.
  match goal with
  | |- context [Z.max ?e (-1022)] => set (ulp := (Z.max e (-1022) - 52)%Z)
  end.
  destruct (0 <=? ulp)%Z eqn:U.
  - apply Z.leb_le in U.
    destruct (2 ^ 1024 <=? _)%Z; [now left |].
    right. eexists. split; [| reflexivity].
    apply Z.mul_nonneg_nonneg; [| apply Z.pow_nonneg; lia].
    apply round_half_even_nonneg; [lia |].
    apply Z.mul_pos_pos; [lia | apply Z.pow_pos_nonneg; lia].
  - apply Z.leb_gt in U. right. exists z. split; [lia |].
    rewrite round_half_even_1. unfold of_Z. f_equal.
    assert (0 < 2 ^ (- ulp))%Z as Hp by (apply Z.pow_pos_nonneg; lia).
    rewrite <- (Qred_inject_Z z).
    apply Qred_complete. unfold Qeq. simpl.
    rewrite Z2Pos.id by exact Hp. lia.
Qed.

Lemma digits_value_nonneg (ds : jsstring) : (0 <= digits_value ds)%Z.
Proof.
  unfold digits_value.
  assert (forall acc, (0 <= acc)%Z ->
            (0 <= fold_left (fun acc c => (acc * 10 + digit_value c)%Z) ds acc)%Z)
    as H; [| apply H; lia].
  induction ds as [| c ds IH]; intros acc Hacc; [exact Hacc |].
  simpl. apply IH. unfold digit_value. lia.
Qed.

Lemma parseInt_whole (s : jsstring) :
  parseInt s = NaN \/ whole_count (parseInt s).
Proof.
  unfold parseInt. destruct (fst (span is_digit s)) as [| c ds]; [now left |].
  right. apply round64_integer, digits_value_nonneg.
Qed.

Lemma parseFloat_nonneg (s : jsstring) : nonneg (parseFloat s).
Proof.
  unfold parseFloat. destruct (span is_digit s) as [ip r].
  destruct ip, (match r with
                | c :: r' => if c =? 46 then fst (span is_digit r') else []
                | [] => []
                end); try exact I; apply round64_nonneg.
Qed.

Lemma mul_nonneg (a b : number) : nonneg (mul a b).
Proof.
  destruct a, b; simpl; try exact I; try apply round64_nonneg;
    match goal with |- nonneg (if ?c then _ else _) => destruct c end; exact I.
Qed.

Lemma floor_whole (a : number) :
  nonneg a -> Math_floor a = NaN \/ whole_count (Math_floor a).
Proof.
  destruct a as [| | q]; simpl; intros H; [now left | right; now left |].
  right. right. exists (Qfloor q). split; [| reflexivity].
  change 0%Z with (Qfloor 0). now apply Qfloor_resp_le.
Qed.

(** The outcome of the structured branch, for any two groups. *)
Lemma scaled_floor_whole (m1 m2 : jsstring) :
  let num := parseFloat (remove_commas m1) in
  let suffix := toUpperCase m2 in
  let num :=
    if decide (suffix = js "K") then mul num (of_Z 1000)
    else if decide (suffix = js "M") then mul num (of_Z 1000000)
    else if decide (suffix = js "B") then mul num (of_Z 1000000000)
    else num in
  Math_floor num = NaN \/ whole_count (Math_floor num).
Proof.
  intros num suffix num'. apply floor_whole. unfold num'.
  repeat match goal with |- nonneg (if ?c then _ else _) => destruct c end;
    try apply mul_nonneg; apply parseFloat_nonneg.
Qed.

Lemma whole_zero : whole_count (of_Z 0).
Proof. right. exists 0%Z. split; [lia | reflexivity]. Qed.

Lemma parseEngagement_whole (text : jsstring) :
  parseEngagement text = NaN \/ whole_count (parseEngagement text).
Proof.
  unfold parseEngagement. destruct (negb (truthy text)); [right; apply whole_zero |].
  destruct (count_pattern _) as [[m1 m2] |].
  - apply scaled_floor_whole.
  - destruct (first_digits text); [apply parseInt_whole | right; apply whole_zero].
Qed.

Lemma earlier_parseEngagement_whole (text : jsstring) :
  Interfaces.parseEngagement text = NaN
  \/ whole_count (Interfaces.parseEngagement text).
Proof.
  unfold Interfaces.parseEngagement.
  destruct (negb (truthy text)); [right; apply whole_zero |].
  destruct (count_pattern _) as [[m1 m2] |]; [apply scaled_floor_whole |].
  right; apply whole_zero.
Qed.

End CountFacts.

Module IdFacts.
Import Selectors Dom Twitter Session SelectorsFacts TwitterFacts.

(** *** [String(n)] *)

Lemma N_to_uint_nonnil (n : N) : N.to_uint n <> Decimal.Nil.
Proof.
  destruct n as [| p]; [discriminate |].
  apply DecimalPos.Unsigned.to_uint_nonnil.
Qed.

Lemma string_of_N_inj (a b : N) : string_of_N a = string_of_N b -> a = b.
Proof.
  unfold string_of_N. intros H.
  apply (f_equal (map ascii_of_N)) in H. rewrite !map_map in H.
  rewrite !(map_ext _ (fun x => x) ascii_N_embedding), !map_id in H.
  apply (f_equal string_of_list_ascii) in H.
  rewrite !string_of_list_ascii_of_string in H.
  apply (f_equal NilZero.uint_of_string) in H.
  rewrite !NilZero.usu in H by apply N_to_uint_nonnil.
  injection H as H. now apply DecimalN.Unsigned.to_uint_inj.
Qed.

Lemma string_of_uint_digits (d : Decimal.uint) :
  Forall (fun c => is_digit c = true)
         (map N_of_ascii (list_ascii_of_string (NilEmpty.string_of_uint d))).
Proof.
  induction d; cbn [NilEmpty.string_of_uint list_ascii_of_string map];
    constructor; try reflexivity; assumption.
Qed.

Lemma string_of_N_digits (n : N) :
  Forall (fun c => is_digit c = true) (string_of_N n).
Proof.
  unfold string_of_N, NilZero.string_of_uint.
  destruct (N.to_uint n) eqn:E;
    try (rewrite <- E; apply string_of_uint_digits);
    try (apply string_of_uint_digits).
  repeat constructor.
Qed.

(** Two strings cut at a separator that neither first part holds. *)
Lemma app_sep_inj (c : char16) (a a' b b' : jsstring) :
  ~ In c a -> ~ In c a' -> a ++ c :: b = a' ++ c :: b' -> a = a' /\ b = b'.
Proof.
  revert a'. induction a as [| x a IH]; intros [| x' a'] Ha Ha' H; simpl in *.
  - injection H as <-. auto.
  - injection H as <- _. tauto.
  - injection H as -> _. tauto.
  - injection H as <- H. destruct (IH a') as [-> ->]; auto.
Qed.

Lemma digits_no_underscore (ds : jsstring) :
  Forall (fun c => is_digit c = true) ds -> ~ In 95 ds.
Proof.
  intros H Hin. rewrite List.Forall_forall in H. apply H in Hin. discriminate.
Qed.

(** The id tells the reading of the clock and the index. *)
Lemma tweet_id_inj (c1 c2 : Clock) (i j : nat) :
  tweet_id c1 i = tweet_id c2 j -> Date_now c1 i = Date_now c2 j /\ i = j.
Proof.
  unfold tweet_id. intros H. apply app_inv_head in H.
  change (js "_" ++ ?x) with (95 :: x) in H.
  apply app_sep_inj in H as [Hn Hi];
    try (apply digits_no_underscore, string_of_N_digits).
  apply string_of_N_inj in Hn, Hi. split; [exact Hn | lia].
Qed.

End IdFacts.

Module PostFacts.
Import Selectors Dom Twitter Session SelectorsFacts TwitterFacts CountFacts IdFacts
  CollectionFacts.

(** What the fields of a post that [extractTweet] builds come from. *)
Lemma extractTweet_fields clock index el t :
  extractTweet clock index el = Ok (Some t) ->
  extractTweetText el = Ok (text t)
  /\ extractTimestamp clock index el = Ok (timestamp t)
  /\ extractAuthor index el = Ok (author t)
  /\ extractEngagement el like = Ok (likes t)
  /\ extractEngagement el retweet = Ok (retweets t)
  /\ extractEngagement el reply = Ok (replies t)
  /\ id t = tweet_id clock index.
Proof.
  unfold extractTweet. intros H.
  do 3 bind_inv H.
  destruct (negb (truthy _) || _); [discriminate |].
  do 6 bind_inv H. injection H as <-. cbn [text timestamp author likes retweets replies id].
  repeat split; assumption.
Qed.

Lemma first_positive_count_parsed el ids num :
  first_positive_count el ids = Ok (Some num) ->
  exists s, num = parseEngagement s /\ gt0 num = true.
Proof.
  induction ids as [| testId ids IH]; simpl; [discriminate |]. intros H.
  bind_inv H. destruct x as [e |]; [| auto].
  bind_inv H. destruct x as [s |]; [| auto].
  destruct (truthy s && gt0 (parseEngagement s)) eqn:Hpos; [| auto].
  injection H as <-. apply andb_prop in Hpos as [_ Hpos]. eauto.
Qed.

Lemma extractEngagement_whole el type n :
  extractEngagement el type = Ok n -> whole_count n.
Proof.
  unfold extractEngagement. intros H. bind_inv H.
  destruct x as [num |].
  - injection H as <-.
    apply first_positive_count_parsed in H0 as (s & -> & Hpos).
    destruct (parseEngagement_whole s) as [E | Hw]; [| exact Hw].
    rewrite E in Hpos. discriminate.
  - bind_inv H. destruct (first_digits x) as [ds |] eqn:E.
    + injection H as <-. destruct (parseInt_whole ds) as [EN | Hw]; [| exact Hw].
      exfalso. eapply parseInt_digits_not_NaN; [exact E | exact EN].
    + injection H as <-. apply whole_zero.
Qed.

(** The ids of the posts of a run of the loop: those of an increasing
    choice of the indexes of the elements. *)
Lemma forEach_ids clock els : forall tweets index r,
  forEach clock tweets index els = Ok r ->
  exists indexes,
    indexes `sublist_of` seq index (length els)
    /\ map id r = map id tweets ++ map (tweet_id clock) indexes.
Proof.
  induction els as [| el els IH]; intros tweets index r; simpl.
  - intros [= <-]. exists []. split; [constructor | now rewrite app_nil_r].
  - pose proof (forEach_step_cases clock tweets index el) as Hs.
    destruct (extractTweet clock index el) as [[t |] | e] eqn:He;
      rewrite Hs; simpl; intros H;
      apply IH in H as (indexes & Hsub & Hids).
    + exists (index :: indexes). split; [now constructor |].
      rewrite Hids, map_app. simpl.
      apply extractTweet_fields in He as (_ & _ & _ & _ & _ & _ & ->).
      now rewrite <- List.app_assoc.
    + exists indexes. split; [now constructor | exact Hids].
    + exists indexes. split; [now constructor | exact Hids].
Qed.

Lemma tweet_id_NoDup clock indexes :
  NoDup indexes -> NoDup (map (tweet_id clock) indexes).
Proof.
  intros H. apply NoDup_fmap_2_strong; [| exact H].
  intros i j _ _ E. now apply tweet_id_inj in E.
Qed.

Lemma extractTweets_indexes doc clock posts :
  extractTweets doc clock = Ok posts ->
  exists indexes, NoDup indexes /\ map id posts = map (tweet_id clock) indexes.
Proof.
  unfold extractTweets. intros H. bind_inv H.
  destruct x as [[els strat] |].
  - apply forEach_ids in H as (indexes & Hsub & Hids).
    exists indexes. split; [| exact Hids].
    eapply sublist_NoDup; [apply NoDup_seq | exact Hsub].
  - injection H as <-. exists []. split; [constructor | reflexivity].
Qed.

(** On a page where one of the selectors matches, the script returns. *)
Lemma extractTweets_returns_on_match doc clock els :
  first_working_selector doc possibleSelectors = Some els ->
  exists posts, extractTweets doc clock = Ok posts.
Proof.
  intros H. unfold extractTweets, tweetElements. rewrite H. cbn [bind].
  apply forEach_total.
Qed.

(** *** Passes with different readings of the clock *)

Lemma first_seen_all (l : list Tweet) : forall seen,
  NoDup (seen ++ map id l) -> first_seen seen l = l.
Proof.
  induction l as [| t l IH]; intros seen H; simpl; [reflexivity |].
  simpl in H. apply NoDup_app in H as (Hseen & Hdisj & Hl).
  rewrite bool_decide_eq_false_2.
  - f_equal. apply IH. rewrite <- List.app_assoc. simpl.
    apply NoDup_app. split; [exact Hseen |]. split; [exact Hdisj | exact Hl].
  - intros Hin. apply (Hdisj _ Hin). apply list_elem_of_here.
Qed.

Lemma scroll_loop_ext (f g : nat -> result (list Tweet)) maxTweets :
  (forall i, f i = g i) ->
  forall remaining i tweets scrollCount,
    scroll_loop f maxTweets remaining i tweets scrollCount
    = scroll_loop g maxTweets remaining i tweets scrollCount.
Proof.
  intros Hfg. induction remaining as [| remaining IH]; intros i tweets sc; simpl;
    [reflexivity |].
  destruct (length tweets <? maxTweets)%nat; [| reflexivity].
  rewrite Hfg. destruct (g i); simpl; [apply IH | reflexivity].
Qed.

Lemma extracted_before_ids (page : nat -> Document) (clock : nat -> Clock)
    (P : nat -> list Tweet) :
  (forall i, extractTweets (page i) (clock i) = Ok (P i)) ->
  forall k x, x ∈ map id (extracted_before P k) ->
    exists i a, (i < k)%nat /\ x = tweet_id (clock i) a.
Proof.
  intros HP. induction k as [| k IH]; intros x Hx.
  - inversion Hx.
  - rewrite extracted_before_S, map_app, elem_of_app in Hx.
    destruct Hx as [Hx | Hx].
    + destruct (IH x Hx) as (i & a & Hi & ->). exists i, a. split; [lia | reflexivity].
    + destruct (extractTweets_indexes _ _ _ (HP k)) as (indexes & _ & Hids).
      rewrite Hids in Hx. apply list_elem_of_fmap in Hx as (a & -> & _).
      exists k, a. split; [lia | reflexivity].
Qed.

Lemma extracted_before_NoDup (page : nat -> Document) (clock : nat -> Clock)
    (P : nat -> list Tweet) :
  (forall i, extractTweets (page i) (clock i) = Ok (P i)) ->
  (forall i j a b, i <> j -> Date_now (clock i) a <> Date_now (clock j) b) ->
  forall k, NoDup (map id (extracted_before P k)).
Proof.
  intros HP Hclock. induction k as [| k IH]; [constructor |].
  rewrite extracted_before_S, map_app. apply NoDup_app.
  split; [exact IH |]. split.
  - intros x Hx Hin.
    destruct (extracted_before_ids page clock P HP k x Hx) as (i & a & Hi & ->).
    destruct (extractTweets_indexes _ _ _ (HP k)) as (indexes & _ & Hids).
    rewrite Hids in Hin. apply list_elem_of_fmap in Hin as (b & E & _).
    apply tweet_id_inj in E as [E _]. apply (Hclock i k a b); [lia | exact E].
  - destruct (extractTweets_indexes _ _ _ (HP k)) as (indexes & Hnd & ->).
    now apply tweet_id_NoDup.
Qed.

End PostFacts.

Module TextFacts.
Import Selectors Dom Twitter Session SelectorsFacts TwitterFacts IdFacts PostFacts.

(** *** [trim] *)

Lemma drop_while_is_suffix (p : char16 -> bool) (s : jsstring) :
  exists pre, s = pre ++ drop_while p s.
Proof.
  induction s as [| c s [pre IH]]; simpl; [now exists [] |].
  destruct (p c); [| now exists []].
  exists (c :: pre). simpl. now f_equal.
Qed.

Lemma no_outer_space_nil : no_outer_space [].
Proof. split; intros c; discriminate. Qed.

Lemma trim_no_outer_space (s : jsstring) : no_outer_space (trim s).
Proof.
  unfold trim. set (a := drop_while is_space s).
  set (b := drop_while is_space (rev a)).
  destruct (drop_while_is_suffix is_space (rev a)) as [pre Hpre]. fold b in Hpre.
  split; intros c Hc.
  - assert (a = rev b ++ rev pre) as Ha.
    { rewrite <- rev_app_distr, <- Hpre. now rewrite rev_involutive. }
    destruct (rev b) as [| x r] eqn:E; [discriminate |].
    injection Hc as ->. unfold a in Ha. simpl in Ha.
    now apply drop_while_In in Ha.
  - destruct b as [| x r] eqn:E; [discriminate |].
    simpl in Hc. rewrite last_snoc in Hc. injection Hc as <-.
    unfold b in E. now apply drop_while_In in E.
Qed.

Lemma trimmed_text_trims el s :
  trimmed_text el = Ok (Some s) -> exists raw, s = trim raw /\ s <> [].
Proof.
  unfold trimmed_text. destruct el as [e |]; [| discriminate].
  intros H. bind_inv H. destruct x as [raw |]; [| discriminate].
  destruct (truthy (trim raw)) eqn:T; [| discriminate].
  injection H as <-. exists raw. split; [reflexivity |].
  now destruct (trim raw).
Qed.

Lemma trimmed_or_empty el t :
  trimmed_text el = Ok t -> no_outer_space (default [] t).
Proof.
  intros H. destruct t as [s |]; [| apply no_outer_space_nil].
  apply trimmed_text_trims in H as (raw & -> & _). apply trim_no_outer_space.
Qed.

Lemma first_selector_text_trims el sels s :
  first_selector_text el sels = Ok (Some s) -> exists raw, s = trim raw /\ s <> [].
Proof.
  induction sels as [| sel sels IH]; simpl; [discriminate |]. intros H.
  do 2 bind_inv H. destruct x0 as [s' |]; [| auto].
  injection H as <-. eapply trimmed_text_trims; eassumption.
Qed.

Lemma extractTweetText_no_outer_space el txt :
  extractTweetText el = Ok txt -> no_outer_space txt.
Proof.
  unfold extractTweetText. intros H. bind_inv H. destruct x as [s |].
  - injection H as <-.
    apply first_selector_text_trims in H0 as (raw & -> & _).
    apply trim_no_outer_space.
  - bind_inv H. pose proof (trimmed_or_empty _ _ H1) as [Hhead Hlast].
    destruct (500 <? length (default [] x))%nat eqn:L.
    + injection H as <-. apply Nat.ltb_lt in L. unfold substring0.
      destruct (default [] x) as [| c r] eqn:E; [simpl in L; lia |].
      split; intros y Hy.
      * simpl in Hy. injection Hy as <-. now apply Hhead.
      * change (js "...") with ([46; 46] ++ [46]) in Hy.
        rewrite !List.app_assoc, last_snoc in Hy. now injection Hy as <-.
    + injection H as <-. now split.
Qed.

(** *** The author *)

Lemma starts_with_head (c : char16) (p s : jsstring) :
  starts_with (c :: p) s = true -> exists r, s = c :: r.
Proof.
  destruct s as [| x s]; simpl; [discriminate |].
  intros H. apply andb_prop in H as [H _]. apply N.eqb_eq in H. subst. eauto.
Qed.

Lemma includes_In (c : char16) (p s : jsstring) :
  includes (c :: p) s = true -> In c s.
Proof.
  induction s as [| x s IH]; [simpl; discriminate |].
  intros H. cbn [includes] in H. apply orb_prop in H as [H | H].
  - apply starts_with_head in H as [r [= -> _]]. now left.
  - right. auto.
Qed.

Lemma includes_tail (p : jsstring) (c : char16) (s : jsstring) :
  includes p (c :: s) = false -> includes p s = false.
Proof. cbn [includes]. intros H. now apply orb_false_elim in H. Qed.

Lemma no_slash_no_status (s : jsstring) :
  ~ In 47 s -> includes (js "/status/") s = false.
Proof.
  intros H. apply not_true_is_false. intros E.
  change (js "/status/") with (47 :: js "status/") in E.
  now apply includes_In in E.
Qed.

Lemma span_fst_Forall (p : char16 -> bool) (s : jsstring) :
  Forall (fun c => p c = true) (fst (span p s)).
Proof.
  induction s as [| c s IH]; simpl; [constructor |].
  destruct (p c) eqn:E; [| constructor].
  destruct (span p s). simpl in *. now constructor.
Qed.

Lemma search_Some {A} (at_ : jsstring -> option A) (s : jsstring) x :
  search at_ s = Some x -> exists s', at_ s' = Some x.
Proof.
  induction s as [| c s IH]; simpl.
  - destruct (at_ []) eqn:E; [| discriminate]. intros [= <-]. eauto.
  - destruct (at_ (c :: s)) eqn:E; [intros [= <-]; eauto | exact IH].
Qed.

Lemma placeholder_no_slash (index : nat) :
  ~ In 47 (js "extracted_user_" ++ string_of_N (N.of_nat index)).
Proof.
  intros H. apply in_app_or in H as [H | H].
  - vm_compute in H. repeat (destruct H as [H | H]; [discriminate |]). exact H.
  - pose proof (string_of_N_digits (N.of_nat index)) as HF.
    rewrite List.Forall_forall in HF. apply HF in H. discriminate.
Qed.

Lemma first_author_link_no_status el sels a :
  first_author_link el sels = Ok (Some a) ->
  includes (js "/status/") a = false.
Proof.
  induction sels as [| sel sels IH]; cbn [first_author_link]; [discriminate |].
  intros H.
  bind_inv H. destruct x as [link |]; [| auto].
  bind_inv H. destruct x as [h |]; [| auto].
  destruct (truthy h && starts_with (js "/") h && negb (includes (js "/status/") h))
    eqn:C; [| auto].
  injection H as <-. apply andb_prop in C as [C N]. apply andb_prop in C as [T _].
  apply negb_true_iff in N. destruct h as [| c r]; [discriminate |].
  now apply includes_tail in N.
Qed.

Lemma extractAuthor_no_status index el a :
  extractAuthor index el = Ok a -> includes (js "/status/") a = false.
Proof.
  unfold extractAuthor. intros H. bind_inv H. destruct x as [link |].
  - injection H as <-. eapply first_author_link_no_status; eassumption.
  - bind_inv H. destruct (search handle_at x) as [m |] eqn:E.
    + injection H as <-. apply search_Some in E as [s E].
      unfold handle_at in E. destruct s as [| c r]; [discriminate |].
      destruct (c =? 64); [| discriminate].
      destruct (fst (span is_handle_char r)) as [| h hs] eqn:F; [discriminate |].
      injection E as <-. apply no_slash_no_status. intros Hin.
      pose proof (span_fst_Forall is_handle_char r) as HF. rewrite F in HF.
      rewrite List.Forall_forall in HF. apply HF in Hin. discriminate.
    + injection H as <-. apply no_slash_no_status, placeholder_no_slash.
Qed.

(** *** The timestamp *)

Lemma first_alt_Some alts s m :
  first_alt alts s = Some m -> exists a, In a alts /\ a s = Some m.
Proof.
  induction alts as [| a alts IH]; simpl; [discriminate |].
  destruct (a s) eqn:E.
  - intros [= <-]. eauto.
  - intros H. destruct (IH H) as (b & Hb & Hm). eauto.
Qed.

Lemma digits_then_nonempty alts s m : digits_then alts s = Some m -> m <> [].
Proof.
  unfold digits_then. destruct (span is_digit s) as [ds r].
  destruct ds as [| d ds]; [discriminate |].
  destruct (first_alt alts r); [| discriminate]. intros [= <-]. discriminate.
Qed.

Lemma relative_time_nonempty s m : search relative_time_at s = Some m -> m <> [].
Proof.
  intros H. apply search_Some in H as [s' H]. unfold relative_time_at in H.
  apply first_alt_Some in H as (a & Ha & Hm).
  simpl in Ha.
  repeat (destruct Ha as [<- | Ha]; [eapply digits_then_nonempty, Hm |]).
  destruct Ha.
Qed.

End TextFacts.

Module ParseFacts.
Import Selectors Dom Twitter Session SelectorsFacts TwitterFacts.

(** *** The two versions of [parseEngagement] *)

Lemma parseEngagement_cleans (text : jsstring) :
  parseEngagement text = Interfaces.parseEngagement (List.filter is_count_char text).
Proof.
  unfold Interfaces.parseEngagement.
  destruct (count_pattern (List.filter is_count_char text)) as [[m1 m2] |] eqn:E.
  - unfold parseEngagement. rewrite E.
    destruct (List.filter is_count_char text) as [| c r] eqn:F;
      [vm_compute in E; discriminate |].
    destruct text as [| x text]; [discriminate | reflexivity].
  - destruct text as [| x text]; [reflexivity |].
    rewrite fallback_gives_zero.
    + now destruct (negb (truthy _)).
    + unfold parseEngagement_branch. now rewrite E.
Qed.

Lemma suffix_is_count_char c : is_suffix_char c = true -> is_count_char c = true.
Proof. unfold is_count_char. intros ->. now rewrite !orb_true_r. Qed.

Lemma filter_none (p : char16 -> bool) (s : jsstring) :
  Forall (fun c => p c = false) s -> List.filter p s = [].
Proof. induction 1 as [| c s Hc _ IH]; simpl; [| rewrite Hc]; auto. Qed.

(** The pattern on a run of digits that a suffix letter follows. *)
Lemma count_pattern_digits_suffix_more (ds rest : jsstring) (c : char16) :
  ds <> [] -> Forall (fun d => is_digit d = true) ds -> is_suffix_char c = true ->
  count_pattern (ds ++ c :: rest) = Some (ds, [c]).
Proof.
  intros Hne Hds Hc. apply search_head. unfold count_pattern_at.
  rewrite (span_app_stop is_digit_or_comma ds (c :: rest)).
  - destruct ds as [| d ds]; [congruence |].
    apply suffix_char_cases in Hc.
    destruct Hc as [-> | [-> | [-> | [-> | [-> | ->]]]]]; simpl;
      now rewrite app_nil_r.
  - eapply List.Forall_impl; [| exact Hds]. intros x. apply digit_is_digit_or_comma.
  - apply suffix_char_cases in Hc.
    destruct Hc as [-> | [-> | [-> | [-> | [-> | ->]]]]]; reflexivity.
Qed.

Lemma parseEngagement_suffix_after_gap (ds gap rest : jsstring) (c : char16) :
  ds <> [] -> Forall (fun d => is_digit d = true) ds ->
  Forall (fun x => is_count_char x = false) gap ->
  is_suffix_char c = true ->
  parseEngagement (ds ++ gap ++ c :: rest)
  = Math_floor (mul (parseFloat ds) (of_Z (factor_of c))).
Proof.
  intros Hne Hds Hgap Hc. unfold parseEngagement.
  assert (truthy (ds ++ gap ++ c :: rest) = true) as ->
    by (destruct ds; [congruence | reflexivity]).
  simpl negb. cbv iota.
  rewrite !List.filter_app, (filter_count_digits ds Hds), (filter_none _ gap Hgap).
  cbn [List.filter app]. rewrite (suffix_is_count_char c Hc).
  rewrite (count_pattern_digits_suffix_more ds _ c Hne Hds Hc).
  rewrite (remove_commas_digits ds Hds).
  apply suffix_char_cases in Hc.
  destruct Hc as [-> | [-> | [-> | [-> | [-> | ->]]]]]; reflexivity.
Qed.

End ParseFacts.

Module HelpersFacts.
Import Selectors Dom Twitter Helpers TwitterFacts.

Lemma findElement_head container selectors :
  findElementBySelectors container selectors
  = head (findAllElementsBySelectors container selectors).
Proof.
  induction selectors as [| sel selectors IH]; simpl; [reflexivity |].
  unfold doc_querySelector.
  destruct (querySelectorAll container sel); simpl; [exact IH | reflexivity].
Qed.

Lemma findAll_first_match container selectors :
  match findAllElementsBySelectors container selectors with
  | [] => Forall (fun sel => querySelectorAll container sel = []) selectors
  | elements =>
    exists before sel after,
      selectors = before ++ sel :: after
      /\ Forall (fun q => querySelectorAll container q = []) before
      /\ querySelectorAll container sel = elements
  end.
Proof.
  induction selectors as [| sel selectors IH]; simpl; [constructor |].
  destruct (querySelectorAll container sel) as [| el els] eqn:E.
  - destruct (findAllElementsBySelectors container selectors) as [| x r].
    + now constructor.
    + destruct IH as (before & q & after & -> & Hb & Hq).
      exists (sel :: before), q, after. split; [reflexivity |].
      split; [now constructor | exact Hq].
  - exists [], sel, selectors. split; [reflexivity |]. split; [constructor | exact E].
Qed.

Lemma first_working_selector_findAll doc sels :
  first_working_selector doc sels
  = match findAllElementsBySelectors doc sels with
    | [] => None
    | el :: els => Some (el :: els)
    end.
Proof.
  induction sels as [| sel sels IH]; simpl; [reflexivity |].
  destruct (querySelectorAll doc sel); [exact IH | reflexivity].
Qed.

End HelpersFacts.

Module EarlierFacts.
Import Selectors Dom Twitter Session Earlier TwitterFacts.

Lemma text_of_returns found fallback :
  (forall child, found = Some child -> exists t, textContent child = Ok t) ->
  exists s, text_of found fallback = Ok s.
Proof.
  intros H. destruct found as [child |]; simpl; [| eauto].
  destruct (H child eq_refl) as [t ->]. simpl. eauto.
Qed.

Lemma attribute_of_returns found attribute :
  (forall child, found = Some child -> exists a, getAttribute child attribute = Ok a) ->
  exists s, attribute_of found attribute = Ok s.
Proof.
  intros H. destruct found as [child |]; simpl; [| eauto].
  destruct (H child eq_refl) as [a ->]. simpl. eauto.
Qed.

Lemma extractTweet_returns clock index element :
  reads_return element ->
  exists t, extractTweet clock index element = Ok t /\ id t = tweet_id clock index.
Proof.
  intros Hr. unfold extractTweet.
  destruct (Hr [[testid "tweetText"]]) as (textElement & -> & H1).
  destruct (Hr [[tag "time"]]) as (timeElement & -> & H2).
  destruct (Hr [[testid "User-Name"; tag_with "a" [AttrEq "role" "link"]]])
    as (authorElement & -> & H3).
  destruct (Hr [[testid "like"; tag "span"]]) as (likeElement & -> & H4).
  destruct (Hr [[testid "retweet"; tag "span"]]) as (retweetElement & -> & H5).
  destruct (Hr [[testid "reply"; tag "span"]]) as (replyElement & -> & H6).
  destruct (Hr [[testid "socialContext"]]) as (socialContext & -> & H7).
  destruct (Hr [[testid "socialContext"; tag "a"]]) as (contextLink & -> & H8).
  cbn [bind].
  destruct (text_of_returns textElement []) as [text ->];
    [intros c Hc; apply (H1 c Hc) |].
  destruct (attribute_of_returns timeElement "datetime") as [ts ->];
    [intros c Hc; apply (H2 c Hc) |].
  destruct (attribute_of_returns authorElement "href") as [href ->];
    [intros c Hc; apply (H3 c Hc) |].
  destruct (text_of_returns likeElement (js "0")) as [likeText ->];
    [intros c Hc; apply (H4 c Hc) |].
  destruct (text_of_returns retweetElement (js "0")) as [retweetText ->];
    [intros c Hc; apply (H5 c Hc) |].
  destruct (text_of_returns replyElement (js "0")) as [replyText ->];
    [intros c Hc; apply (H6 c Hc) |].
  cbn [bind].
  assert (exists o, match contextLink with
                    | Some a => textContent a
                    | None => Ok None
                    end = Ok o) as [o ->].
  { destruct contextLink as [a |]; [| eauto]. apply (H8 a eq_refl). }
  cbn [bind]. eexists. split; reflexivity.
Qed.

Lemma forEach_step_returns clock tweets index element :
  exists r, forEach_step clock tweets index element = Ok r
            /\ (r = tweets \/ exists t, r = tweets ++ [t]).
Proof.
  unfold forEach_step. destruct (extractTweet clock index element) as [t | e]; simpl;
    eauto.
Qed.

Lemma forEach_returns clock els : forall tweets index,
  exists new, forEach clock tweets index els = Ok (tweets ++ new)
              /\ (length new <= length els)%nat.
Proof.
  induction els as [| el els IH]; intros tweets index; simpl.
  - exists []. rewrite app_nil_r. split; [reflexivity | simpl; lia].
  - destruct (forEach_step_returns clock tweets index el) as (r & -> & Hr).
    simpl. destruct Hr as [-> | [t ->]].
    + destruct (IH tweets (S index)) as (new & -> & Hlen).
      exists new. split; [reflexivity | simpl; lia].
    + destruct (IH (tweets ++ [t]) (S index)) as (new & -> & Hlen).
      exists (t :: new). rewrite <- List.app_assoc. split; [reflexivity | simpl; lia].
Qed.

Lemma forEach_every_element clock els : forall tweets index,
  Forall reads_return els ->
  exists new, forEach clock tweets index els = Ok (tweets ++ new)
              /\ map id new = map (tweet_id clock) (seq index (length els)).
Proof.
  induction els as [| el els IH]; intros tweets index Hr; simpl.
  - exists []. rewrite app_nil_r. split; reflexivity.
  - inversion Hr as [| ? ? Hel Hels]; subst.
    destruct (extractTweet_returns clock index el Hel) as (t & Ht & Hid).
    unfold forEach_step. rewrite Ht. simpl.
    destruct (IH (tweets ++ [t]) (S index) Hels) as (new & -> & Hids).
    exists (t :: new). rewrite <- List.app_assoc. split; [reflexivity |].
    simpl. now rewrite Hid, Hids.
Qed.

End EarlierFacts.

Module PassFacts.
Import Selectors Dom Twitter Session TwitterFacts CollectionFacts.

Lemma scroll_loop_throws extract maxTweets k e :
  extract k = Throw e ->
  (forall j, (j < k)%nat -> exists l, extract j = Ok l) ->
  (forall j, (j <= k)%nat ->
     (length (collected_after (returned extract) maxTweets j) < maxTweets)%nat) ->
  forall remaining i scrollCount,
    (i <= k < i + remaining)%nat ->
    scroll_loop extract maxTweets remaining i
                (collected_after (returned extract) maxTweets i) scrollCount
    = Throw e.
Proof.
  intros Hk Hbefore Hroom.
  induction remaining as [| remaining IH]; intros i sc Hi; [lia |].
  cbn [scroll_loop].
  rewrite (proj2 (Nat.ltb_lt _ _) (Hroom i ltac:(lia))).
  destruct (decide (i = k)) as [-> | Hne].
  - now rewrite Hk.
  - destruct (Hbefore i ltac:(lia)) as [l Hl].
    assert (returned extract i = l) as Hp by (unfold returned; now rewrite Hl).
    rewrite Hl. cbn [bind]. rewrite <- Hp.
    rewrite collected_after_S by (apply Hroom; lia).
    apply IH. lia.
Qed.

End PassFacts.

Module SheetsMoreFacts.
Import Twitter Sheets SheetsFacts.

Lemma column_A_bound (ws : worksheet) :
  (length (range_values 65 65 ws) <= length ws)%nat.
Proof.
  unfold range_values. etransitivity; [apply cut_rows_length |].
  now rewrite length_map.
Qed.

Lemma ensureWorksheetExists_unknown spreadsheetId title s :
  files s !! spreadsheetId = None ->
  ensureWorksheetExists spreadsheetId title s
  = Throw (js "ワークシート確認・作成に失敗しました: " ++ not_found).
Proof.
  intros H. unfold ensureWorksheetExists, spreadsheets_get. now rewrite H.
Qed.

(** The report of an export. *)
Lemma exportTweetsToSheets_report :
  forall now spreadsheetId tweets worksheetName s ss report s',
    files s !! spreadsheetId = Some ss ->
    exportTweetsToSheets now spreadsheetId tweets worksheetName s = Ok (report, s') ->
    let targetWorksheet :=
      or_else (default [] worksheetName) (before_first 84 (now 0%nat)) in
    let n := length (range_values 65 65 (default [] (ss !! targetWorksheet))) in
    isFirstData report = (n =? 0)%nat
    /\ newDataCount report = length tweets
    /\ totalRows report
       = (if (n =? 0)%nat then S (length tweets) else n + length tweets)%nat.
Proof.
  intros now spreadsheetId tweets worksheetName s ss report s' Hss Hrun
    targetWorksheet n.
  unfold exportTweetsToSheets in Hrun.
  destruct (bool_decide (tweets = [])); [discriminate |].
  fold targetWorksheet in Hrun.
  destruct (ensureWorksheetExists_spec spreadsheetId targetWorksheet s ss Hss)
    as (s1 & E1 & Hfiles1 & _).
  rewrite E1 in Hrun. cbn [bind] in Hrun.
  assert (files s1 !! spreadsheetId
          = Some (<[targetWorksheet := default [] (ss !! targetWorksheet)]> ss))
    as Hss1 by (rewrite Hfiles1; apply lookup_insert_eq).
  rewrite (values_get_column _ _ _ _ _ _ _ Hss1) in Hrun by apply lookup_insert_eq.
  cbn [bind] in Hrun. rewrite length_values_get in Hrun. fold n in Hrun.
  destruct (n =? 0)%nat;
    match type of Hrun with
    | try_catch (let* _ := ?u in _) _ = _ => destruct u; [| discriminate]
    end; cbn [bind try_catch] in Hrun; injection Hrun as <- _; auto.
Qed.

End SheetsMoreFacts.

Module ProfileSheetFacts.
Import Twitter Sheets Profiles SheetsFacts SheetsMoreFacts.

Lemma length_profile_headers : length Profiles.headers = 8%nat.
Proof. reflexivity. Qed.

Lemma length_profileRow now profile : length (profileRow now profile) = 8%nat.
Proof. reflexivity. Qed.

Lemma exportProfileToSheets_spec :
  forall now spreadsheetId profile worksheetName s ss,
    files s !! spreadsheetId = Some ss ->
    let w := default (js "Profiles") worksheetName in
    let ws := default [] (ss !! w) in
    let n := length (range_values 65 65 ws) in
    let values := if (n =? 0)%nat
                  then [Profiles.headers; profileRow now profile]
                  else [profileRow now profile] in
    let startRow := if (n =? 0)%nat then 1%nat else S n in
    let range := Cells w 65 startRow 72 (startRow + length values - 1) in
    exists report s',
      exportProfileToSheets now spreadsheetId profile worksheetName s
      = Ok (report, s')
      /\ requests s'
         = requests s ++ [SpreadsheetsGet spreadsheetId]
             ++ match ss !! w with
                | None => [AddSheet spreadsheetId w 1000 10]
                | Some _ => []
                end
             ++ [ValuesGet spreadsheetId (Columns w 65 65);
                 ValuesUpdate spreadsheetId range "USER_ENTERED" values]
      /\ Profiles.range report = range
      /\ Profiles.isFirstData report = (n =? 0)%nat
      /\ files s' = <[spreadsheetId := <[w := write_range 0 startRow values ws]> ss]>
                      (files s).
Proof.
  intros now spreadsheetId profile worksheetName s ss Hss w ws n values startRow range.
  unfold exportProfileToSheets. fold w.
  destruct (ensureWorksheetExists_spec spreadsheetId w s ss Hss)
    as (s1 & -> & Hfiles1 & Hreq1).
  fold ws in Hfiles1. cbn [bind].
  assert (files s1 !! spreadsheetId = Some (<[w := ws]> ss)) as Hss1
    by (rewrite Hfiles1; apply lookup_insert_eq).
  rewrite (values_get_column _ _ _ _ _ _ ws Hss1) by apply lookup_insert_eq.
  cbn [bind]. rewrite length_values_get. fold n.
  assert ((if (n =? 0)%nat
           then (1%nat, [Profiles.headers; profileRow now profile])
           else (S n, [profileRow now profile]))
          = (startRow, values)) as ->
    by (unfold startRow, values; now destruct (n =? 0)%nat).
  assert (1 <= startRow)%nat as Hstart
    by (unfold startRow; destruct (n =? 0)%nat; lia).
  fold range. unfold range at 1.
  rewrite (values_update_cells _ _ _ _ _ _ _ _ (log _ s1) _ ws Hss1);
    [| apply lookup_insert_eq | exact Hstart | apply rows_fit, Hstart |].
  - cbn [bind try_catch]. eexists _, _. split; [reflexivity |].
    cbn [requests files Profiles.range Profiles.isFirstData log].
    split; [| split; [reflexivity | split; [reflexivity |]]].
    + rewrite Hreq1. rewrite <- !List.app_assoc. reflexivity.
    + rewrite Hfiles1, insert_insert_eq. f_equal.
      apply (insert_insert_eq ss).
  - change (S (column_index 72%N) - column_index 65%N)%nat with 8%nat.
    unfold values. destruct (n =? 0)%nat; repeat constructor.
Qed.

Lemma column_A_of_profileRow now profile :
  cut_row (row_slice 65 65 (profileRow now profile))
  = if is_empty_cell (CString (username profile)) then []
    else [CString (username profile)].
Proof. apply column_A_of_cons. Qed.

(** A worksheet whose column A gives back nothing has it empty in every
    row. *)
Lemma column_A_empty (ws : worksheet) :
  range_values 65 65 ws = [] ->
  Forall (fun r => r = []) (map (fun r => cut_row (row_slice 65 65 r)) ws).
Proof.
  unfold range_values. intros H.
  pose proof (cut_rows_rest_empty (map (fun r => cut_row (row_slice 65 65 r)) ws)) as E.
  now rewrite H in E.
Qed.

(** Column A after a header and a row without a user name are written
    to a worksheet on which it was empty: the header alone. *)
Lemma column_A_after_nameless (ws : worksheet) (h r : row) :
  range_values 65 65 ws = [] ->
  h <> [] -> r <> [] ->
  cut_row (row_slice 65 65 h) <> [] -> cut_row (row_slice 65 65 r) = [] ->
  length (range_values 65 65 (write_range 0 1 [h; r] ws)) = 1%nat.
Proof.
  intros Hws Hh Hr Hch Hcr.
  change (write_range 0 1 [h; r] ws) with (write_rows 0 [h; r] ws).
  unfold range_values at 1.
  rewrite column_A_write_rows by (repeat constructor; assumption).
  cbn [map app length]. rewrite Hcr.
  set (rest := map (fun r => cut_row (row_slice 65 65 r)) (skipn 2 ws)).
  assert (Forall (fun x : row => x = []) ([] :: rest)) as HF.
  { constructor; [reflexivity |]. unfold rest.
    rewrite <- skipn_map. apply Forall_drop, column_A_empty, Hws. }
  pose proof (cut_rows_last [] ([] :: rest) _ Hch HF) as E.
  cbn [app] in E. now rewrite E.
Qed.

End ProfileSheetFacts.

Module ProfileScriptFacts.
Import Selectors Dom Twitter Session SelectorsFacts TwitterFacts CountFacts TextFacts.

Lemma getNumber_whole (text : jsstring) :
  getNumber text = NaN \/ whole_count (getNumber text).
Proof.
  unfold getNumber. destruct (search digits_commas_at text);
    [apply parseInt_whole | right; apply whole_zero].
Qed.

Lemma span_all (p : char16 -> bool) (s : jsstring) :
  Forall (fun c => p c = true) s -> span p s = (s, []).
Proof.
  intros H. rewrite <- (app_nil_r s) at 1. now apply span_app_stop.
Qed.

(** [getNumber] reads the digits up to the first code unit that is
    neither a digit nor a comma. *)
Lemma getNumber_stops (ds rest : jsstring) (c : char16) :
  ds <> [] -> Forall (fun d => is_digit d = true) ds ->
  is_digit_or_comma c = false ->
  getNumber (ds ++ c :: rest) = round64 (inject_Z (digits_value ds)).
Proof.
  intros Hne Hds Hc. unfold getNumber.
  rewrite (search_head digits_commas_at _ ds).
  - rewrite (remove_commas_digits ds Hds). unfold parseInt.
    rewrite (span_all is_digit ds Hds). now destruct ds.
  - unfold digits_commas_at. rewrite (span_app_stop is_digit_or_comma ds (c :: rest)).
    + now destruct ds.
    + eapply List.Forall_impl; [| exact Hds]. intros x. apply digit_is_digit_or_comma.
    + exact Hc.
Qed.

Lemma link_count_whole el n :
  link_count el = Ok n -> n = NaN \/ whole_count n.
Proof.
  unfold link_count. destruct el as [e |].
  - intros H. bind_inv H. injection H as <-. apply getNumber_whole.
  - intros [= <-]. right. apply whole_zero.
Qed.

Lemma or_else_nil (s : jsstring) : or_else s [] = s.
Proof. now destruct s. Qed.

Lemma getTextContent_trimmed doc sel s :
  getTextContent doc sel = Ok s -> no_outer_space s.
Proof.
  unfold getTextContent. intros H. bind_inv H. injection H as <-.
  eapply trimmed_or_empty; eassumption.
Qed.

Lemma getUserProfile_fields doc p :
  getUserProfile_evaluate doc = Ok p ->
  no_outer_space (displayName p) /\ no_outer_space (bio p)
  /\ (followers p = NaN \/ whole_count (followers p))
  /\ (following p = NaN \/ whole_count (following p)).
Proof.
  unfold getUserProfile_evaluate. intros H. do 5 bind_inv H. injection H as <-.
  cbn [displayName bio followers following]. rewrite !or_else_nil.
  repeat split;
    try (eapply getTextContent_trimmed; eassumption);
    eapply link_count_whole; eassumption.
Qed.

End ProfileScriptFacts.

Module SequenceFacts.
Import Twitter Sheets Profiles SheetsFacts SheetsMoreFacts ProfileSheetFacts.

(** *** What an export leaves as it was *)

Lemma exportTweetsToSheets_frame :
  forall now spreadsheetId tweets worksheetName s ss report s',
    files s !! spreadsheetId = Some ss ->
    exportTweetsToSheets now spreadsheetId tweets worksheetName s = Ok (report, s') ->
    let target := or_else (default [] worksheetName) (before_first 84 (now 0%nat)) in
    let n := length (range_values 65 65 (default [] (ss !! target))) in
    (forall other, other <> spreadsheetId -> files s' !! other = files s !! other)
    /\ (forall t r, t <> target ->
          sheet_row s' spreadsheetId t r = sheet_row s spreadsheetId t r)
    /\ (forall r, (1 <= r <= n)%nat ->
          sheet_row s' spreadsheetId target r = sheet_row s spreadsheetId target r).
Proof.
  intros now spreadsheetId tweets worksheetName s ss report s' Hss Hrun target n.
  assert (tweets <> []) as Hne.
  { intros ->. unfold exportTweetsToSheets in Hrun.
    rewrite bool_decide_eq_true_2 in Hrun by reflexivity. discriminate. }
  destruct (exportTweetsToSheets_spec now spreadsheetId tweets worksheetName s ss
              Hne Hss) as (report0 & s0 & Hrun0 & _ & _ & _ & Hfiles).
  rewrite Hrun in Hrun0. injection Hrun0 as <- <-.
  fold target in Hfiles. fold n in Hfiles.
  split; [| split].
  - intros other Hother. rewrite Hfiles. now apply lookup_insert_ne.
  - intros t r Ht. unfold sheet_row.
    rewrite Hfiles, lookup_insert_eq, Hss. now rewrite lookup_insert_ne.
  - intros r Hr. unfold sheet_row.
    rewrite Hfiles, lookup_insert_eq, lookup_insert_eq, Hss.
    assert ((n =? 0)%nat = false) as E by (apply Nat.eqb_neq; lia).
    rewrite E.
    destruct (ss !! target) as [ws |] eqn:Hws.
    + apply write_range_above; [exact Hr | apply column_A_bound].
    + unfold n in Hr. try rewrite Hws in Hr. simpl in Hr. lia.
Qed.

(** After an export whose last record has a timestamp, column A gives
    back as many rows as the report counts. *)
Lemma exportTweetsToSheets_count :
  forall now spreadsheetId A a worksheetName s ss report s',
    files s !! spreadsheetId = Some ss ->
    exportTweetsToSheets now spreadsheetId (A ++ [a]) worksheetName s
    = Ok (report, s') ->
    timestamp a <> [] ->
    let target := or_else (default [] worksheetName) (before_first 84 (now 0%nat)) in
    exists ws',
      files s' !! spreadsheetId ≫= (fun ss' => ss' !! target) = Some ws'
      /\ length (range_values 65 65 ws') = totalRows report.
Proof.
  intros now spreadsheetId A a worksheetName s ss report s' Hss Hrun Hts target.
  destruct (exportTweetsToSheets_report now spreadsheetId (A ++ [a]) worksheetName
              s ss report s' Hss Hrun) as (_ & _ & Htotal).
  destruct (exportTweetsToSheets_spec now spreadsheetId (A ++ [a]) worksheetName s ss)
    as (report0 & s0 & Hrun0 & _ & _ & Hlen & Hfiles);
    [destruct A; discriminate | exact Hss |].
  rewrite Hrun in Hrun0. injection Hrun0 as <- <-.
  fold target in Hfiles, Hlen, Htotal.
  set (ws := default [] (ss !! target)) in *.
  set (n := length (range_values 65 65 ws)) in *.
  set (dataRows := imap (fun i tweet => dataRow (now (S i)) tweet) (A ++ [a])) in *.
  set (values := if (n =? 0)%nat then Sheets.headers :: dataRows else dataRows) in *.
  assert ((if (n =? 0)%nat then 1%nat else S n) = S n) as Hstart
    by (destruct (Nat.eqb_spec n 0); congruence).
  rewrite Hstart in Hfiles.
  eexists. split.
  - rewrite Hfiles, lookup_insert_eq. cbn [mbind option_bind].
    apply lookup_insert_eq.
  - assert (exists V, values = V ++ [dataRow (now (S (length A))) a]
                      /\ Forall (fun v : row => v <> []) V) as (V & HV & HVne).
    { unfold values, dataRows. rewrite imap_app. cbn [imap].
      rewrite Nat.add_0_r.
      destruct (n =? 0)%nat.
      - eexists (Sheets.headers :: _). split; [reflexivity |].
        constructor; [discriminate |]. apply Forall_imap. discriminate.
      - eexists. split; [reflexivity |]. apply Forall_imap. discriminate. }
    assert (length (range_values 65 65 (write_range 0 (S n) values ws))
            = (n + length values)%nat) as Hcount.
    { rewrite HV.
      apply (range_values_after_write ws V _ HVne); [discriminate |].
      now apply column_A_of_dataRow. }
    rewrite Hcount, Hlen, Htotal.
    destruct (n =? 0)%nat eqn:E; [apply Nat.eqb_eq in E |]; lia.
Qed.

(** *** Two profile exports in a row *)

Lemma profile_exports_append now1 now2 spreadsheetId p1 p2 worksheetName s ss :
  files s !! spreadsheetId = Some ss ->
  username p1 <> [] ->
  let w := default (js "Profiles") worksheetName in
  exists r1 s1 r2 s2 first_row last_row,
    exportProfileToSheets now1 spreadsheetId p1 worksheetName s = Ok (r1, s1)
    /\ exportProfileToSheets now2 spreadsheetId p2 worksheetName s1 = Ok (r2, s2)
    /\ Profiles.range r1 = Cells w 65 first_row 72 last_row
    /\ Profiles.range r2 = Cells w 65 (S last_row) 72 (S last_row)
    /\ (first_row <= last_row)%nat
    /\ Profiles.isFirstData r2 = false
    /\ (forall r, (1 <= r <= last_row)%nat ->
                  sheet_row s2 spreadsheetId w r = sheet_row s1 spreadsheetId w r).
Proof.
  intros Hss Hname w.
  destruct (exportProfileToSheets_spec now1 spreadsheetId p1 worksheetName s ss Hss)
    as (r1 & s1 & Hrun1 & _ & Hrange1 & _ & Hfiles1).
  fold w in Hrange1, Hfiles1.
  set (ws := default [] (ss !! w)) in *.
  set (n := length (range_values 65 65 ws)) in *.
  set (values1 := if (n =? 0)%nat
                  then [Profiles.headers; profileRow now1 p1]
                  else [profileRow now1 p1]) in *.
  assert ((if (n =? 0)%nat then 1%nat else S n) = S n) as Hstart
    by (destruct (Nat.eqb_spec n 0); congruence).
  rewrite Hstart in *. clear Hstart.
  set (ws1 := write_range 0 (S n) values1 ws) in *.
  assert (exists V, values1 = V ++ [profileRow now1 p1]
                    /\ Forall (fun v : row => v <> []) V) as (V & HV & HVne).
  { unfold values1. destruct (n =? 0)%nat.
    - exists [Profiles.headers]. split; [reflexivity |].
      repeat constructor. discriminate.
    - exists []. split; [reflexivity | constructor]. }
  assert (length (range_values 65 65 ws1) = (n + length values1)%nat) as Hcount.
  { unfold ws1. rewrite HV.
    apply (range_values_after_write ws V _ HVne); [discriminate |].
    rewrite column_A_of_profileRow. simpl.
    destruct (username p1); [congruence | discriminate]. }
  assert (1 <= length values1)%nat as Hpos
    by (rewrite HV, length_app; simpl; lia).
  assert (files s1 !! spreadsheetId = Some (<[w := ws1]> ss)) as Hss1
    by (rewrite Hfiles1; apply lookup_insert_eq).
  destruct (exportProfileToSheets_spec now2 spreadsheetId p2 worksheetName s1 _ Hss1)
    as (r2 & s2 & Hrun2 & _ & Hrange2 & Hfirst2 & Hfiles2).
  fold w in Hrange2, Hfirst2, Hfiles2.
  rewrite lookup_insert_eq in Hrange2, Hfirst2, Hfiles2.
  change (default [] (Some ws1)) with ws1 in Hrange2, Hfirst2, Hfiles2.
  rewrite Hcount in Hrange2, Hfirst2, Hfiles2.
  assert ((n + length values1 =? 0)%nat = false) as Hno by (apply Nat.eqb_neq; lia).
  rewrite Hno in Hrange2, Hfirst2, Hfiles2.
  exists r1, s1, r2, s2, (S n), (n + length values1)%nat.
  split; [exact Hrun1 |]. split; [exact Hrun2 |].
  split; [rewrite Hrange1; f_equal; lia |].
  split; [rewrite Hrange2; simpl; f_equal; lia |].
  split; [lia |]. split; [exact Hfirst2 |].
  intros r Hr. unfold sheet_row.
  rewrite Hfiles2, lookup_insert_eq, lookup_insert_eq, Hss1, lookup_insert_eq.
  apply write_range_above; [exact Hr |].
  rewrite <- Hcount. apply column_A_bound.
Qed.

Lemma profile_without_name_is_overwritten
    now1 now2 spreadsheetId p1 p2 worksheetName s ss :
  files s !! spreadsheetId = Some ss ->
  username p1 = [] ->
  let w := default (js "Profiles") worksheetName in
  range_values 65 65 (default [] (ss !! w)) = [] ->
  exists r1 s1 r2 s2 row1 row2,
    exportProfileToSheets now1 spreadsheetId p1 worksheetName s = Ok (r1, s1)
    /\ exportProfileToSheets now2 spreadsheetId p2 worksheetName s1 = Ok (r2, s2)
    /\ Profiles.range r1 = Cells w 65 1 72 2
    /\ Profiles.range r2 = Cells w 65 2 72 2
    /\ sheet_row s1 spreadsheetId w 2 = Some row1
    /\ row_slice 65 72 row1 = profileRow now1 p1
    /\ sheet_row s2 spreadsheetId w 2 = Some row2
    /\ row_slice 65 72 row2 = profileRow now2 p2.
Proof.
  intros Hss Hname w Hempty.
  destruct (exportProfileToSheets_spec now1 spreadsheetId p1 worksheetName s ss Hss)
    as (r1 & s1 & Hrun1 & _ & Hrange1 & _ & Hfiles1).
  fold w in Hrange1, Hfiles1.
  set (ws := default [] (ss !! w)) in *.
  rewrite Hempty in Hrange1, Hfiles1.
  cbn [length Nat.eqb] in Hrange1, Hfiles1.
  set (ws1 := write_range 0 1 [Profiles.headers; profileRow now1 p1] ws) in *.
  assert (length (range_values 65 65 ws1) = 1%nat) as Hcount.
  { apply column_A_after_nameless; try discriminate; [exact Hempty |].
    rewrite column_A_of_profileRow, Hname. reflexivity. }
  assert (files s1 !! spreadsheetId = Some (<[w := ws1]> ss)) as Hss1
    by (rewrite Hfiles1; apply lookup_insert_eq).
  destruct (exportProfileToSheets_spec now2 spreadsheetId p2 worksheetName s1 _ Hss1)
    as (r2 & s2 & Hrun2 & _ & Hrange2 & _ & Hfiles2).
  fold w in Hrange2, Hfiles2.
  rewrite lookup_insert_eq in Hrange2, Hfiles2.
  change (default [] (Some ws1)) with ws1 in Hrange2, Hfiles2.
  rewrite Hcount in Hrange2, Hfiles2.
  cbn [length Nat.eqb] in Hrange2, Hfiles2.
  exists r1, s1, r2, s2.
  exists (write_cells 0 (profileRow now1 p1) (hd [] (tl ws))).
  exists (write_cells 0 (profileRow now2 p2)
                      (write_cells 0 (profileRow now1 p1) (hd [] (tl ws)))).
  split; [exact Hrun1 |]. split; [exact Hrun2 |].
  split; [exact Hrange1 |]. split; [exact Hrange2 |].
  split; [| split; [reflexivity | split; [| reflexivity]]].
  - unfold sheet_row. rewrite Hss1, lookup_insert_eq. reflexivity.
  - unfold sheet_row. rewrite Hfiles2, lookup_insert_eq, lookup_insert_eq.
    reflexivity.
Qed.

End SequenceFacts.

(* ===================================================================== *)
(** * Further properties of the sources                              *)
(* ===================================================================== *)

Module CountsMore.
Import Selectors Dom Twitter Session Samples MoreSamples SelectorsFacts TwitterFacts
  CountFacts PostFacts ParseFacts ProfileScriptFacts.

(** X1. [parseEngagement] of [selectors.ts] gives for a text what the
    [parseEngagement] of [interfaces.ts] gives for that text without the
    code units other than digits, dot, comma and the letters K, M, B in
    either case: cleaning first is the whole difference between them. *)
Theorem parseEngagement_is_earlier_on_cleaned :
  forall text : jsstring,
    parseEngagement text
    = Interfaces.parseEngagement (List.filter is_count_char text).
Proof. exact parseEngagement_cleans. Qed.

(** X2. In a text that starts with a run of digits, the first of the
    letters K, M, B (either case) that comes after it is taken for the
    unit of the count, whatever stands between them, as long as that has
    no digit, dot or comma: the text in between is removed before the
    pattern is applied. *)
Theorem parseEngagement_unit_after_gap :
  forall (ds gap rest : jsstring) (c : char16),
    ds <> [] -> Forall (fun d => is_digit d = true) ds ->
    Forall (fun x => is_count_char x = false) gap ->
    is_suffix_char c = true ->
    parseEngagement (ds ++ gap ++ c :: rest)
    = Math_floor (mul (parseFloat ds) (of_Z (factor_of c))).
Proof. exact parseEngagement_suffix_after_gap. Qed.

Lemma parseEngagement_unit_after_gap_witness :
  parseEngagement (js "1 likes") = of_Z 1000
  /\ Interfaces.parseEngagement (js "1 likes") = of_Z 1.
Proof.
  split; [| vm_compute; reflexivity].
  change (js "1 likes") with (js "1" ++ js " li" ++ 107 :: js "es").
  rewrite (parseEngagement_unit_after_gap (js "1") (js " li") (js "es") 107).
  - vm_compute. reflexivity.
  - discriminate.
  - repeat constructor.
  - repeat constructor.
  - reflexivity.
Defined.

(** X3. Neither version of [parseEngagement] ever gives a negative number
    or a fraction: the result is [NaN], [Infinity] or a whole number from
    zero up. *)
Theorem parseEngagement_never_negative :
  forall text : jsstring,
    (parseEngagement text = NaN \/ whole_count (parseEngagement text))
    /\ (Interfaces.parseEngagement text = NaN
        \/ whole_count (Interfaces.parseEngagement text)).
Proof.
  intros text. split; [apply parseEngagement_whole | apply earlier_parseEngagement_whole].
Qed.

(** X4. The three counts of every post that [extractTweets] returns are
    whole numbers from zero up (or [Infinity], for a run of digits beyond
    the range of a double); none of them is [NaN], although
    [parseEngagement] can give [NaN]: [extractEngagement] passes on a
    result of [parseEngagement] only when it is above zero. *)
Theorem extractTweets_counts_are_whole :
  forall doc clock posts,
    extractTweets doc clock = Ok posts ->
    Forall (fun t => whole_count (likes t) /\ whole_count (retweets t)
                     /\ whole_count (replies t)) posts.
Proof.
  intros doc clock posts H. unfold extractTweets in H. bind_inv H.
  destruct x as [[els strat] |]; [| injection H as <-; constructor].
  eapply forEach_Forall; [| constructor | exact H].
  intros index el t Ht.
  apply extractTweet_fields in Ht as (_ & _ & _ & Hl & Hr & Hp & _).
  repeat split; eapply extractEngagement_whole; eassumption.
Qed.

Lemma extractTweets_counts_are_whole_witness :
  exists posts,
    extractTweets counted_page noon = Ok posts
    /\ map likes posts = [of_Z 12300; of_Z 12300]
    /\ map retweets posts = [of_Z 3; of_Z 3]
    /\ parseEngagement (js ",") = NaN
    /\ Forall (fun t => whole_count (likes t) /\ whole_count (retweets t)
                        /\ whole_count (replies t)) posts.
Proof.
  destruct (extractTweets counted_page noon) as [posts | e] eqn:E;
    [| vm_compute in E; discriminate].
  exists posts. split; [reflexivity |].
  split; [vm_compute in E; injection E as <-; reflexivity |].
  split; [vm_compute in E; injection E as <-; reflexivity |].
  split; [vm_compute; reflexivity |].
  exact (extractTweets_counts_are_whole counted_page noon posts E).
Defined.

(** X5. [getNumber] of the profile script reads the digits up to the
    first code unit that is neither a digit nor a comma, so a dot or a
    unit letter ends the number; its result, and with it the follower and
    following counts of a profile, is [NaN], [Infinity] (for a run of
    digits beyond the range of a double) or a whole number from zero
    up. *)
Theorem getNumber_reads_leading_digits :
  (forall (ds rest : jsstring) (c : char16),
     ds <> [] -> Forall (fun d => is_digit d = true) ds ->
     is_digit_or_comma c = false ->
     getNumber (ds ++ c :: rest) = round64 (inject_Z (digits_value ds)))
  /\ (forall text, getNumber text = NaN \/ whole_count (getNumber text))
  /\ (forall doc p,
        getUserProfile_evaluate doc = Ok p ->
        (followers p = NaN \/ whole_count (followers p))
        /\ (following p = NaN \/ whole_count (following p))).
Proof.
  split; [exact getNumber_stops |]. split; [exact getNumber_whole |].
  intros doc p H. now apply getUserProfile_fields in H.
Qed.

Lemma getNumber_reads_leading_digits_witness :
  getNumber (js "12.3K Followers") = of_Z 12
  /\ getNumber (js ",") = NaN
  /\ getNumber (repeat 57 400) = Infinity
  /\ (exists p, getUserProfile_evaluate profile_page = Ok p
                /\ (followers p = NaN \/ whole_count (followers p))).
Proof.
  destruct getNumber_reads_leading_digits as (Hstop & _ & Hprofile).
  split; [| split; [vm_compute; reflexivity | split; [vm_compute; reflexivity |]]].
  - change (js "12.3K Followers") with (js "12" ++ 46 :: js "3K Followers").
    rewrite (Hstop (js "12") (js "3K Followers") 46).
    + vm_compute. reflexivity.
    + discriminate.
    + repeat constructor.
    + reflexivity.
  - destruct (getUserProfile_evaluate profile_page) as [p | e] eqn:E;
      [| vm_compute in E; discriminate].
    exists p. split; [reflexivity |]. exact (proj1 (Hprofile profile_page p E)).
Defined.

End CountsMore.

Module PostsMore.
Import Selectors Dom Twitter Session Samples MoreSamples SelectorsFacts TwitterFacts
  CountFacts IdFacts PostFacts TextFacts ProfileScriptFacts CollectionFacts PassFacts.

(** X6. The ids of the posts of one call of [extractTweets] are pairwise
    distinct: they are the ids [tweet_<Date.now()>_<index>] of an
    increasing choice of the indexes of the processed elements, so there
    is at most one post per element, and at most ten when the elements
    come from the fallback scan. *)
Theorem extractTweets_ids_are_distinct :
  forall doc clock posts,
    extractTweets doc clock = Ok posts ->
    NoDup (map id posts)
    /\ exists indexes,
         map id posts = map (tweet_id clock) indexes
         /\ forall els strat,
              tweetElements doc = Ok (Some (els, strat)) ->
              indexes `sublist_of` seq 0 (length els)
              /\ (length posts <= length els)%nat
              /\ (strat = ByFallback -> (length posts <= 10)%nat).
Proof.
  intros doc clock posts H. split.
  - destruct (extractTweets_indexes doc clock posts H) as (indexes & Hnd & ->).
    now apply tweet_id_NoDup.
  - unfold extractTweets in H. bind_inv H. destruct x as [[els strat] |].
    + apply forEach_ids in H as (indexes & Hsub & Hids). simpl in Hids.
      exists indexes. split; [exact Hids |].
      intros els' strat' E. rewrite H0 in E. injection E as <- <-.
      assert (length posts <= length els)%nat as Hlen.
      { rewrite <- (length_map id posts), Hids, length_map.
        apply sublist_length in Hsub. now rewrite length_seq in Hsub. }
      split; [exact Hsub |]. split; [exact Hlen |].
      intros ->. unfold tweetElements in H0.
      destruct (first_working_selector doc possibleSelectors); [discriminate |].
      bind_inv H0. destruct x as [| c cands]; [discriminate |].
      injection H0 as <-. pose proof (firstn_le_length 9 cands).
      simpl in Hlen. lia.
    + injection H as <-. exists []. split; [reflexivity |].
      intros els strat E. rewrite H0 in E. discriminate.
Qed.

Lemma extractTweets_ids_are_distinct_witness :
  exists posts,
    extractTweets mixed_page noon = Ok posts
    /\ map id posts = [js "tweet_1750000000000_0"; js "tweet_1750000000000_2"]
    /\ NoDup (map id posts).
Proof.
  destruct (extractTweets mixed_page noon) as [posts | e] eqn:E;
    [| vm_compute in E; discriminate].
  exists posts. split; [reflexivity |].
  split; [vm_compute in E; injection E as <-; reflexivity |].
  exact (proj1 (extractTweets_ids_are_distinct mixed_page noon posts E)).
Defined.

(** X7. When the passes of a collection return and no reading of the clock
    in one pass equals a reading in another, the loop of
    [collectTweetsNaturally] never finds an id that it holds already: the
    result is the posts of the passes one after the other, cut at the
    target, the posts that a later pass extracts again included. *)
Theorem collect_keeps_every_pass :
  forall (page : nat -> Document) (clock : nat -> Clock) (config : CollectionConfig),
    let extract := fun i => extractTweets (page i) (clock i) in
    let target := default 20%nat (maxTweets config) in
    (forall i, exists l, extract i = Ok l) ->
    (forall i j a b, i <> j -> Date_now (clock i) a <> Date_now (clock j) b) ->
    exists scrollCount,
      collect page clock config
      = Ok (firstn target (extracted_before (returned extract) scrollCount),
            scrollCount)
      /\ (scrollCount <= maxScrolls_of target)%nat.
Proof.
  intros page clock config extract target Hret Hclock.
  assert (forall i, extract i = Ok (returned extract i)) as HP.
  { intros i. unfold returned. now destruct (Hret i) as [l ->]. }
  destruct (scroll_loop_spec (returned extract) target (maxScrolls_of target) 0%nat)
    as (sc & Hrun & Hrange & _); [intros k Hk; lia |].
  exists sc. split; [| lia].
  unfold collect, collectTweetsNaturally. fold extract. fold target.
  rewrite (scroll_loop_ext extract (fun i => Ok (returned extract i)) target HP).
  assert (collected_after (returned extract) target 0 = []) as E0 by apply firstn_nil.
  rewrite E0 in Hrun. rewrite Hrun. cbn [try_catch].
  unfold collected_after. rewrite first_seen_all; [reflexivity |].
  apply (extracted_before_NoDup page clock (returned extract) HP Hclock).
Qed.

Lemma collect_keeps_every_pass_witness :
  (exists scrollCount,
     collect (fun _ => counted_page) tick (mkCollectionConfig (Some 4%nat) None None)
     = Ok (firstn 4 (extracted_before
                       (returned (fun i => extractTweets counted_page (tick i)))
                       scrollCount), scrollCount)
     /\ (scrollCount <= 2)%nat)
  /\ (exists tweets,
        collect (fun _ => counted_page) tick
                (mkCollectionConfig (Some 4%nat) None None)
        = Ok (tweets, 2%nat)
        /\ map text tweets = [hello; hello; hello; hello]).
Proof.
  split.
  - apply (collect_keeps_every_pass (fun _ => counted_page) tick
             (mkCollectionConfig (Some 4%nat) None None)).
    + intros i.
      apply (extractTweets_returns_on_match counted_page (tick i)
               [counted_post; counted_post]).
      reflexivity.
    + intros i j a b Hij. cbn [tick Date_now]. lia.
  - eexists. split; vm_compute; reflexivity.
Defined.

(** X8. A pass that throws while the target is not reached makes the whole
    collection fail: [collectTweetsNaturally] throws the error of the pass
    with its prefix, and the posts of the earlier passes are not
    returned. *)
Theorem collect_fails_with_a_pass :
  forall (extract : nat -> result (list Tweet)) (config : CollectionConfig)
         (k : nat) (e : jsstring),
    let target := default 20%nat (maxTweets config) in
    (k < maxScrolls_of target)%nat ->
    extract k = Throw e ->
    (forall j, (j < k)%nat -> exists l, extract j = Ok l) ->
    (forall j, (j <= k)%nat ->
       (length (collected_after (returned extract) target j) < target)%nat) ->
    collectTweetsNaturally extract config
    = Throw (js "ツイート収集に失敗しました: " ++ e).
Proof.
  intros extract config k e target Hk He Hbefore Hroom.
  unfold collectTweetsNaturally. fold target.
  pose proof (scroll_loop_throws extract target k e He Hbefore Hroom
                (maxScrolls_of target) 0%nat 0%nat ltac:(lia)) as Hrun.
  assert (collected_after (returned extract) target 0 = []) as E0 by apply firstn_nil.
  rewrite E0 in Hrun. now rewrite Hrun.
Qed.

Lemma collect_fails_with_a_pass_witness :
  collectTweetsNaturally failing (mkCollectionConfig (Some 7%nat) None None)
  = Throw (js "ツイート収集に失敗しました: " ++ js "detached").
Proof.
  apply (collect_fails_with_a_pass failing
           (mkCollectionConfig (Some 7%nat) None None) 1%nat).
  - vm_compute. lia.
  - reflexivity.
  - intros j Hj. assert (j = 0%nat) as -> by lia. eexists. reflexivity.
  - intros j Hj. destruct j as [| [| j]]; [vm_compute; lia | vm_compute; lia | lia].
Defined.

(** X9. The text of a post never starts or ends with white space, and it
    is never empty: [extractTweetText] returns a trimmed text, or the
    first 280 code units of one followed by three dots. *)
Theorem extracted_text_is_trimmed :
  (forall el txt, extractTweetText el = Ok txt -> no_outer_space txt)
  /\ (forall doc clock posts,
        extractTweets doc clock = Ok posts ->
        Forall (fun t => no_outer_space (text t) /\ text t <> []) posts).
Proof.
  split; [exact extractTweetText_no_outer_space |].
  intros doc clock posts H. unfold extractTweets in H. bind_inv H.
  destruct x as [[els strat] |]; [| injection H as <-; constructor].
  eapply forEach_Forall; [| constructor | exact H].
  intros index el t Ht. apply extractTweet_Some in Ht as [Ht Hlen].
  split; [eapply extractTweetText_no_outer_space, Ht |].
  intros E. rewrite E in Hlen. simpl in Hlen. lia.
Qed.

Lemma extracted_text_is_trimmed_witness :
  exists txt,
    extractTweetText (leaf (js "  hello world  ")) = Ok txt
    /\ txt = hello /\ no_outer_space txt.
Proof.
  destruct extracted_text_is_trimmed as [Htext _].
  exists hello. split; [vm_compute; reflexivity |]. split; [reflexivity |].
  apply (Htext (leaf (js "  hello world  "))). vm_compute. reflexivity.
Defined.

(** X10. The author of a post never contains ["/status/"]: a link to a
    status is passed over, and the handle and the placeholder that take
    its place have no slash. *)
Theorem extracted_author_is_no_status_link :
  (forall index el a,
     extractAuthor index el = Ok a -> includes (js "/status/") a = false)
  /\ (forall doc clock posts,
        extractTweets doc clock = Ok posts ->
        Forall (fun t => includes (js "/status/") (author t) = false) posts).
Proof.
  split; [exact extractAuthor_no_status |].
  intros doc clock posts H. unfold extractTweets in H. bind_inv H.
  destruct x as [[els strat] |]; [| injection H as <-; constructor].
  eapply forEach_Forall; [| constructor | exact H].
  intros index el t Ht.
  apply extractTweet_fields in Ht as (_ & _ & Ha & _).
  eapply extractAuthor_no_status, Ha.
Qed.

Lemma extracted_author_is_no_status_link_witness :
  extractAuthor 0 linked_post = Ok (js "bob_1")
  /\ includes (js "/status/") (js "bob_1") = false.
Proof.
  destruct extracted_author_is_no_status_link as [Hauthor _].
  split; [vm_compute; reflexivity |].
  apply (Hauthor 0%nat linked_post). vm_compute. reflexivity.
Defined.

(** X11. With a clock whose ISO string is not empty, [extractTimestamp]
    returns the empty string exactly for an element that has a [time]
    element without a [datetime] and without text. *)
Theorem extractTimestamp_empty_iff :
  forall clock index el,
    Date_toISOString clock index <> [] ->
    (extractTimestamp clock index el = Ok []
     <-> exists t datetime content,
           querySelector el [[tag "time"]] = Ok (Some t)
           /\ getAttribute t "datetime" = Ok datetime /\ default [] datetime = []
           /\ textContent t = Ok content /\ default [] content = []).
Proof.
  intros clock index el Hclock. unfold extractTimestamp. split.
  - intros H. bind_inv H. destruct x as [t |].
    + bind_inv H. exists t, x.
      destruct (default [] x) as [| c r] eqn:D; [| discriminate].
      cbn [truthy] in H. bind_inv H. exists x0.
      injection H as H. rewrite or_else_nil in H. auto.
    + bind_inv H. destruct (search relative_time_at x) as [m |] eqn:S.
      * injection H as ->. now apply relative_time_nonempty in S.
      * injection H as H. congruence.
  - intros (t & datetime & content & Ht & Ha & Hd & Hc & He).
    rewrite Ht. cbn [bind]. rewrite Ha. cbn [bind]. rewrite Hd. cbn [truthy].
    rewrite Hc. cbn [bind]. now rewrite or_else_nil, He.
Qed.

Lemma extractTimestamp_empty_iff_witness :
  extractTimestamp noon 0 undated_post = Ok [].
Proof.
  apply (extractTimestamp_empty_iff noon 0%nat undated_post); [discriminate |].
  exists (leaf []), None, (Some []). repeat split; reflexivity.
Defined.

(** X12. [getTextContent] gives a text without white space at either end,
    in [selectors.ts] and in the page script of [getUserProfile]; so the
    display name and the bio of a profile have none. *)
Theorem getTextContent_is_trimmed :
  (forall element sel s, Helpers.getTextContent element sel = Ok s -> no_outer_space s)
  /\ (forall doc sel s, getTextContent doc sel = Ok s -> no_outer_space s)
  /\ (forall doc p,
        getUserProfile_evaluate doc = Ok p ->
        no_outer_space (displayName p) /\ no_outer_space (bio p)).
Proof.
  split; [| split; [exact getTextContent_trimmed |]].
  - intros element sel s H. unfold Helpers.getTextContent in H.
    do 2 bind_inv H. injection H as <-. eapply trimmed_or_empty; eassumption.
  - intros doc p H. apply getUserProfile_fields in H. tauto.
Qed.

Lemma getTextContent_is_trimmed_witness :
  Helpers.getTextContent (Some (leaf (js " Alice "))) None = Ok (js "Alice")
  /\ no_outer_space (js "Alice").
Proof.
  destruct getTextContent_is_trimmed as [Hhelper _].
  split; [vm_compute; reflexivity |].
  apply (Hhelper (Some (leaf (js " Alice "))) None). vm_compute. reflexivity.
Defined.

End PostsMore.

Module HelpersMore.
Import Selectors Dom Twitter Session Helpers Samples MoreSamples TwitterFacts
  HelpersFacts EarlierFacts.

(** X13. [findAllElementsBySelectors] returns the elements of the first
    selector of the list that matches anything and never joins the
    matches of two selectors; it returns the empty array exactly when no
    selector matches. [findElementBySelectors] returns the first of these
    elements, and the search for containers in [extractTweets] is this
    function on [TWEET_CONTAINER_SELECTORS] followed by the selector of
    the tweet text. *)
Theorem findAllElementsBySelectors_first_match :
  forall (container : Document) (selectors : list selector),
    findElementBySelectors container selectors
    = head (findAllElementsBySelectors container selectors)
    /\ match findAllElementsBySelectors container selectors with
       | [] => Forall (fun sel => querySelectorAll container sel = []) selectors
       | elements =>
         exists before sel after,
           selectors = before ++ sel :: after
           /\ Forall (fun q => querySelectorAll container q = []) before
           /\ querySelectorAll container sel = elements
       end
    /\ first_working_selector container possibleSelectors
       = match findAllElementsBySelectors container
                 (TWEET_CONTAINER_SELECTORS ++ [ [[testid "tweetText"]] ]) with
         | [] => None
         | el :: els => Some (el :: els)
         end.
Proof.
  intros container selectors.
  split; [apply findElement_head |]. split; [apply findAll_first_match |].
  apply (first_working_selector_findAll container possibleSelectors).
Qed.

(** X14. The earlier page script of [extractTweets] never throws and
    returns at most one post per element that matches
    [[data-testid="tweet"]]; when the reads of these elements return, it
    returns one post for every element, in document order, the post of
    the element at index [i] with the id [tweet_<Date.now()>_<i>]: no
    element is left out for its text. *)
Theorem earlier_extractTweets_keeps_every_element :
  forall (doc : Document) (clock : Clock),
    let els := querySelectorAll doc [[testid "tweet"]] in
    (exists posts, Earlier.extractTweets doc clock = Ok posts
                   /\ (length posts <= length els)%nat)
    /\ (Forall Earlier.reads_return els ->
        exists posts,
          Earlier.extractTweets doc clock = Ok posts
          /\ length posts = length els
          /\ map id posts = map (tweet_id clock) (seq 0 (length els))).
Proof.
  intros doc clock els. unfold Earlier.extractTweets. fold els. split.
  - destruct (forEach_returns clock els [] 0%nat) as (new & -> & Hlen). eauto.
  - intros Hr.
    destruct (forEach_every_element clock els [] 0%nat Hr) as (new & -> & Hids).
    exists new. split; [reflexivity |]. split; [| exact Hids].
    rewrite <- (length_map id new), Hids, length_map. apply length_seq.
Qed.

Lemma earlier_extractTweets_keeps_every_element_witness :
  (exists posts,
     Earlier.extractTweets short_page noon = Ok posts
     /\ length posts = 2%nat
     /\ map id posts = [tweet_id noon 0; tweet_id noon 1])
  /\ (exists posts, extractTweets short_page noon = Ok posts /\ length posts = 1%nat).
Proof.
  split; [| eexists; split; vm_compute; reflexivity].
  destruct (earlier_extractTweets_keeps_every_element short_page noon) as [_ H].
  apply H. repeat constructor;
    (intros sel; unfold wrapper; cbn [querySelector];
     destruct (decide (sel = [[testid "tweetText"]]));
     eexists; (split; [reflexivity |]);
     [ intros child [= <-]; split; [eexists; reflexivity |];
       intros attribute; eexists; reflexivity
     | discriminate ]).
Defined.

End HelpersMore.

Module SheetsMore.
Import Twitter Sheets Profiles Samples MoreSamples SheetsFacts SheetsMoreFacts
  ProfileSheetFacts SequenceFacts.

(** X15. For a spreadsheet that the service knows, [ensureWorksheetExists]
    returns and leaves a worksheet with the given title; the rows of the
    worksheets that were there stay as they were, a worksheet that it adds
    has no rows, and other spreadsheets are not touched. A second call
    changes nothing and sends one request, the [spreadsheets.get]. For a
    spreadsheet that the service does not know it throws, with the prefix
    of its [catch] block. *)
Theorem ensureWorksheetExists_keeps_worksheets :
  forall (spreadsheetId title : jsstring) (s : Service),
    (files s !! spreadsheetId = None ->
     exists error,
       ensureWorksheetExists spreadsheetId title s
       = Throw (js "ワークシート確認・作成に失敗しました: " ++ error))
    /\ (forall ss,
          files s !! spreadsheetId = Some ss ->
          exists s1 s2,
            ensureWorksheetExists spreadsheetId title s = Ok s1
            /\ ensureWorksheetExists spreadsheetId title s1 = Ok s2
            /\ (exists ws, files s1 !! spreadsheetId ≫= (fun f => f !! title) = Some ws
                           /\ (ss !! title = None -> ws = []))
            /\ (forall t r, is_Some (ss !! t) ->
                  sheet_row s1 spreadsheetId t r = sheet_row s spreadsheetId t r)
            /\ (forall other, other <> spreadsheetId ->
                  files s1 !! other = files s !! other)
            /\ files s2 = files s1
            /\ requests s2 = requests s1 ++ [SpreadsheetsGet spreadsheetId]).
Proof.
  intros spreadsheetId title s.
  split; [intros H; eexists; now apply ensureWorksheetExists_unknown |].
  intros ss Hss.
  destruct (ensureWorksheetExists_spec spreadsheetId title s ss Hss)
    as (s1 & Hrun1 & Hfiles1 & _).
  set (ws := default [] (ss !! title)) in *.
  assert (files s1 !! spreadsheetId = Some (<[title := ws]> ss)) as Hss1
    by (rewrite Hfiles1; apply lookup_insert_eq).
  destruct (ensureWorksheetExists_spec spreadsheetId title s1 _ Hss1)
    as (s2 & Hrun2 & Hfiles2 & Hreq2).
  rewrite lookup_insert_eq in Hfiles2, Hreq2.
  exists s1, s2. split; [exact Hrun1 |]. split; [exact Hrun2 |].
  split; [| split; [| split; [| split]]].
  - exists ws. split.
    + rewrite Hss1. cbn [mbind option_bind]. apply lookup_insert_eq.
    + unfold ws. now intros ->.
  - intros t r [x Hx]. unfold sheet_row. rewrite Hss1, Hss, Hx.
    destruct (decide (t = title)) as [-> | Hne].
    + rewrite lookup_insert_eq. unfold ws. now rewrite Hx.
    + rewrite lookup_insert_ne by congruence. now rewrite Hx.
  - intros other Hother. rewrite Hfiles1. now apply lookup_insert_ne.
  - rewrite Hfiles2. cbn [default].
    rewrite (insert_id (<[title := ws]> ss)) by apply lookup_insert_eq.
    now apply insert_id.
  - rewrite Hreq2. reflexivity.
Qed.

Lemma ensureWorksheetExists_keeps_worksheets_witness :
  exists s1 s2,
    ensureWorksheetExists book sheet two_books = Ok s1
    /\ ensureWorksheetExists book sheet s1 = Ok s2
    /\ sheet_row s1 book (js "Notes") 1 = Some [CString (js "keep")]
    /\ files s2 = files s1.
Proof.
  destruct (ensureWorksheetExists_keeps_worksheets book sheet two_books) as [_ H].
  destruct (H {[ js "Notes" := [[CString (js "keep")]] ]})
    as (s1 & s2 & H1 & H2 & _ & Hrows & _ & Hsame & _); [reflexivity |].
  exists s1, s2. split; [exact H1 |]. split; [exact H2 |]. split; [| exact Hsame].
  rewrite (Hrows (js "Notes") 1%nat); [reflexivity |].
  eexists. reflexivity.
Defined.

(** X16. An export of tweets that returns has changed nothing but the
    target worksheet from the first row after those that column A gave
    back: other spreadsheets, the other worksheets of the spreadsheet and
    the rows that column A counted are as they were. *)
Theorem exportTweetsToSheets_leaves_the_rest :
  forall now spreadsheetId tweets worksheetName s ss report s',
    files s !! spreadsheetId = Some ss ->
    exportTweetsToSheets now spreadsheetId tweets worksheetName s = Ok (report, s') ->
    let target := or_else (default [] worksheetName) (before_first 84 (now 0%nat)) in
    let n := length (range_values 65 65 (default [] (ss !! target))) in
    (forall other, other <> spreadsheetId -> files s' !! other = files s !! other)
    /\ (forall t r, t <> target ->
          sheet_row s' spreadsheetId t r = sheet_row s spreadsheetId t r)
    /\ (forall r, (1 <= r <= n)%nat ->
          sheet_row s' spreadsheetId target r = sheet_row s spreadsheetId target r).
Proof. exact exportTweetsToSheets_frame. Qed.

Lemma exportTweetsToSheets_leaves_the_rest_witness :
  exists report s',
    exportTweetsToSheets at_noon book batch_B (Some (js "Notes")) two_books
    = Ok (report, s')
    /\ files s' !! ledger = files two_books !! ledger
    /\ sheet_row s' book (js "Notes") 1 = Some [CString (js "keep")]
    /\ Sheets.range report = Cells (js "Notes") 65 2 74 3.
Proof.
  destruct (exportTweetsToSheets at_noon book batch_B (Some (js "Notes")) two_books)
    as [[report s'] | e] eqn:E; [| vm_compute in E; discriminate].
  exists report, s'. split; [reflexivity |].
  destruct (exportTweetsToSheets_leaves_the_rest at_noon book batch_B
              (Some (js "Notes")) two_books
              {[ js "Notes" := [[CString (js "keep")]] ]} report s' eq_refl E)
    as (Hother & _ & Habove).
  split; [apply Hother; discriminate |].
  split; [rewrite Habove; [reflexivity | vm_compute; lia] |].
  vm_compute in E. injection E as <- _. reflexivity.
Defined.

(** X17. The report of an export counts the records of the batch, tells a
    first write by column A having given back no row, and, when the last
    record of the batch has a timestamp, its total is the number of rows
    that column A of the target worksheet gives back after the export. *)
Theorem exportTweetsToSheets_report_counts :
  forall now spreadsheetId A a worksheetName s ss report s',
    files s !! spreadsheetId = Some ss ->
    exportTweetsToSheets now spreadsheetId (A ++ [a]) worksheetName s
    = Ok (report, s') ->
    let target := or_else (default [] worksheetName) (before_first 84 (now 0%nat)) in
    let n := length (range_values 65 65 (default [] (ss !! target))) in
    Sheets.isFirstData report = (n =? 0)%nat
    /\ newDataCount report = S (length A)
    /\ totalRows report = (if (n =? 0)%nat then S (S (length A)) else n + S (length A))%nat
    /\ (timestamp a <> [] ->
        exists ws',
          files s' !! spreadsheetId ≫= (fun f => f !! target) = Some ws'
          /\ length (range_values 65 65 ws') = totalRows report).
Proof.
  intros now spreadsheetId A a worksheetName s ss report s' Hss Hrun target n.
  destruct (exportTweetsToSheets_report now spreadsheetId (A ++ [a]) worksheetName
              s ss report s' Hss Hrun) as (Hfirst & Hnew & Htotal).
  fold target in Hfirst, Htotal. fold n in Hfirst, Htotal.
  rewrite length_app in Hnew, Htotal. cbn [length] in Hnew, Htotal.
  rewrite Nat.add_1_r in Hnew, Htotal.
  split; [exact Hfirst |]. split; [exact Hnew |]. split; [exact Htotal |].
  intros Hts.
  exact (exportTweetsToSheets_count now spreadsheetId A a worksheetName s ss
           report s' Hss Hrun Hts).
Qed.

Lemma exportTweetsToSheets_report_counts_witness :
  exists report s' ws',
    exportTweetsToSheets at_noon book batch_A_dated (Some sheet) account
    = Ok (report, s')
    /\ totalRows report = 4%nat
    /\ files s' !! book ≫= (fun f => f !! sheet) = Some ws'
    /\ length (range_values 65 65 ws') = totalRows report.
Proof.
  destruct (exportTweetsToSheets at_noon book batch_A_dated (Some sheet) account)
    as [[report s'] | e] eqn:E; [| vm_compute in E; discriminate].
  destruct (exportTweetsToSheets_report_counts at_noon book
              [record "2025-06-14T09:00:00.000Z" "first post";
               record "3h" "second post"]
              (record "2h" "third post") (Some sheet) account ∅ report s'
              eq_refl E) as (_ & _ & Htotal & Hcount).
  destruct Hcount as (ws' & Hws & Hlen); [discriminate |].
  exists report, s', ws'. split; [reflexivity |].
  split; [exact Htotal |]. split; [exact Hws | exact Hlen].
Defined.



(** X19. When the last record of a batch has a timestamp, a second export
    to the same named worksheet starts on the row after the last row of
    the first, covers one row per record, and leaves the rows up to there
    as the first export left them. *)
Theorem sequential_exports_do_not_overlap :
  forall nowA nowB spreadsheetId A a B w s ss,
    B <> [] -> w <> [] -> files s !! spreadsheetId = Some ss ->
    timestamp a <> [] ->
    exists rA sA rB sB firstA lastA,
      exportTweetsToSheets nowA spreadsheetId (A ++ [a]) (Some w) s = Ok (rA, sA)
      /\ exportTweetsToSheets nowB spreadsheetId B (Some w) sA = Ok (rB, sB)
      /\ Sheets.range rA = Cells w 65 firstA 74 lastA
      /\ Sheets.range rB = Cells w 65 (S lastA) 74 (lastA + length B)
      /\ (firstA <= lastA)%nat
      /\ (forall r, (1 <= r <= lastA)%nat ->
                    sheet_row sB spreadsheetId w r = sheet_row sA spreadsheetId w r).
Proof. exact sequential_exports_append. Qed.

Lemma sequential_exports_do_not_overlap_witness :
  exists rA sA rB sB,
    exportTweetsToSheets at_noon book batch_A_dated (Some sheet) account = Ok (rA, sA)
    /\ exportTweetsToSheets at_noon book batch_B (Some sheet) sA = Ok (rB, sB)
    /\ Sheets.range rA = Cells sheet 65 1 74 4
    /\ Sheets.range rB = Cells sheet 65 5 74 6
    /\ sheet_row sB book sheet 4 = sheet_row sA book sheet 4.
Proof.
  destruct (sequential_exports_do_not_overlap at_noon at_noon book
              [record "2025-06-14T09:00:00.000Z" "first post";
               record "3h" "second post"]
              (record "2h" "third post") batch_B sheet account ∅)
    as (rA & sA & rB & sB & firstA & lastA & HA & HB & HrA & HrB & _ & Hrows);
    try discriminate; [reflexivity |].
  change ([record "2025-06-14T09:00:00.000Z" "first post";
           record "3h" "second post"] ++ [record "2h" "third post"])
    with batch_A_dated in HA.
  assert (Sheets.range rA = Cells sheet 65 1 74 4) as HrA'.
  { pose proof HA as HA'. vm_compute in HA'. injection HA' as <- _. reflexivity. }
  rewrite HrA in HrA'. injection HrA' as -> ->.
  exists rA, sA, rB, sB. split; [exact HA |]. split; [exact HB |].
  split; [exact HrA |]. split; [exact HrB |].
  apply Hrows. lia.
Defined.

(** X20. For a spreadsheet that the service knows, [exportProfileToSheets]
    returns. With [n] the number of rows that column A of the worksheet
    (["Profiles"] when none is named) gives back, it sends one
    [values.update] for the columns A to H: the header row and the row of
    the profile at rows 1 and 2 when [n] is 0, and the row of the profile
    alone at row [n + 1] otherwise. *)
Theorem exportProfileToSheets_write :
  forall now spreadsheetId profile worksheetName s ss,
    files s !! spreadsheetId = Some ss ->
    let w := default (js "Profiles") worksheetName in
    let ws := default [] (ss !! w) in
    let n := length (range_values 65 65 ws) in
    let values := if (n =? 0)%nat
                  then [Profiles.headers; profileRow now profile]
                  else [profileRow now profile] in
    let startRow := if (n =? 0)%nat then 1%nat else S n in
    let range := Cells w 65 startRow 72 (startRow + length values - 1) in
    exists report s',
      exportProfileToSheets now spreadsheetId profile worksheetName s
      = Ok (report, s')
      /\ requests s'
         = requests s ++ [SpreadsheetsGet spreadsheetId]
             ++ match ss !! w with
                | None => [AddSheet spreadsheetId w 1000 10]
                | Some _ => []
                end
             ++ [ValuesGet spreadsheetId (Columns w 65 65);
                 ValuesUpdate spreadsheetId range "USER_ENTERED" values]
      /\ Profiles.range report = range
      /\ Profiles.isFirstData report = (n =? 0)%nat
      /\ files s' = <[spreadsheetId := <[w := write_range 0 startRow values ws]> ss]>
                      (files s).
Proof. exact exportProfileToSheets_spec. Qed.

Lemma exportProfileToSheets_write_witness :
  exists report s',
    exportProfileToSheets (at_noon 0) book alice None account = Ok (report, s')
    /\ range_text (Profiles.range report) = js "Profiles!A1:H2"
    /\ sheet_row s' book (js "Profiles") 2 = Some (profileRow (at_noon 0) alice).
Proof.
  destruct (exportProfileToSheets_write (at_noon 0) book alice None account ∅)
    as (report & s' & Hrun & _ & Hrange & _ & Hfiles); [reflexivity |].
  exists report, s'. split; [exact Hrun |].
  split; [rewrite Hrange; vm_compute; reflexivity |].
  unfold sheet_row. rewrite Hfiles. vm_compute. reflexivity.
Defined.

(** X21. When a profile has a user name, the export of a second profile to
    the same worksheet goes to the row after it and leaves the rows up to
    there as they were. *)
Theorem sequential_profile_exports_append :
  forall now1 now2 spreadsheetId p1 p2 worksheetName s ss,
    files s !! spreadsheetId = Some ss ->
    username p1 <> [] ->
    let w := default (js "Profiles") worksheetName in
    exists r1 s1 r2 s2 first_row last_row,
      exportProfileToSheets now1 spreadsheetId p1 worksheetName s = Ok (r1, s1)
      /\ exportProfileToSheets now2 spreadsheetId p2 worksheetName s1 = Ok (r2, s2)
      /\ Profiles.range r1 = Cells w 65 first_row 72 last_row
      /\ Profiles.range r2 = Cells w 65 (S last_row) 72 (S last_row)
      /\ (first_row <= last_row)%nat
      /\ Profiles.isFirstData r2 = false
      /\ (forall r, (1 <= r <= last_row)%nat ->
                    sheet_row s2 spreadsheetId w r = sheet_row s1 spreadsheetId w r).
Proof. exact profile_exports_append. Qed.

Lemma sequential_profile_exports_append_witness :
  exists r1 s1 r2 s2,
    exportProfileToSheets (at_noon 0) book alice None account = Ok (r1, s1)
    /\ exportProfileToSheets (at_noon 0) book bob None s1 = Ok (r2, s2)
    /\ range_text (Profiles.range r2) = js "Profiles!A3:H3"
    /\ sheet_row s2 book (js "Profiles") 2 = sheet_row s1 book (js "Profiles") 2.
Proof.
  destruct (sequential_profile_exports_append (at_noon 0) (at_noon 0) book alice bob
              None account ∅)
    as (r1 & s1 & r2 & s2 & first_row & last_row & H1 & H2 & Hr1 & Hr2 & _ & _ & Hrows);
    [reflexivity | discriminate |].
  assert (Profiles.range r1 = Cells (js "Profiles") 65 1 72 2) as Hr1'.
  { pose proof H1 as H1'. vm_compute in H1'. injection H1' as <- _. reflexivity. }
  rewrite Hr1 in Hr1'. injection Hr1' as -> ->.
  exists r1, s1, r2, s2. split; [exact H1 |]. split; [exact H2 |].
  split; [rewrite Hr2; vm_compute; reflexivity |].
  apply Hrows. lia.
Defined.

(** X22. A profile without a user name leaves column A of its row empty;
    on a worksheet where column A was empty before, the export of a second
    profile is written to row 2 again, and its cells replace those of the
    first. *)
Theorem profile_without_name_is_replaced :
  forall now1 now2 spreadsheetId p1 p2 worksheetName s ss,
    files s !! spreadsheetId = Some ss ->
    username p1 = [] ->
    let w := default (js "Profiles") worksheetName in
    range_values 65 65 (default [] (ss !! w)) = [] ->
    exists r1 s1 r2 s2 row1 row2,
      exportProfileToSheets now1 spreadsheetId p1 worksheetName s = Ok (r1, s1)
      /\ exportProfileToSheets now2 spreadsheetId p2 worksheetName s1 = Ok (r2, s2)
      /\ Profiles.range r1 = Cells w 65 1 72 2
      /\ Profiles.range r2 = Cells w 65 2 72 2
      /\ sheet_row s1 spreadsheetId w 2 = Some row1
      /\ row_slice 65 72 row1 = profileRow now1 p1
      /\ sheet_row s2 spreadsheetId w 2 = Some row2
      /\ row_slice 65 72 row2 = profileRow now2 p2.
Proof. exact profile_without_name_is_overwritten. Qed.

Lemma profile_without_name_is_replaced_witness :
  getUserProfile_evaluate empty_page = Ok nameless
  /\ exists r1 s1 r2 s2,
    exportProfileToSheets (at_noon 0) book nameless None account = Ok (r1, s1)
    /\ exportProfileToSheets (at_noon 0) book bob None s1 = Ok (r2, s2)
    /\ range_text (Profiles.range r1) = js "Profiles!A1:H2"
    /\ range_text (Profiles.range r2) = js "Profiles!A2:H2"
    /\ sheet_row s1 book (js "Profiles") 2 = Some (profileRow (at_noon 0) nameless)
    /\ sheet_row s2 book (js "Profiles") 2 = Some (profileRow (at_noon 0) bob).
Proof.
  destruct (profile_without_name_is_replaced (at_noon 0) (at_noon 0) book nameless bob
              None account ∅)
    as (r1 & s1 & r2 & s2 & row1 & row2 & H1 & H2 & Hr1 & Hr2 & _);
    [reflexivity | reflexivity | reflexivity |].
  split; [vm_compute; reflexivity |].
  exists r1, s1, r2, s2. split; [exact H1 |]. split; [exact H2 |].
  split; [rewrite Hr1; vm_compute; reflexivity |].
  split; [rewrite Hr2; vm_compute; reflexivity |].
  pose proof H1 as H1'. vm_compute in H1'. injection H1' as _ <-.
  split; [vm_compute; reflexivity |].
  pose proof H2 as H2'. vm_compute in H2'. injection H2' as _ <-.
  vm_compute. reflexivity.
Defined.

End SheetsMore.
